(** * resume-ai-analyzer: a shallow embedding of the extraction, matching and
    cache code, and the properties of its specification.

    Sources embedded here:
    - [src/ai_extractor.py]  (class [AIExtractor])
    - [src/matcher.py]       (class [ResumeMatcher])
    - [src/cache.py]         (class [CacheManager], in-memory backend)
    - [src/parser.py]        (class [PDFParser], from the page texts on)
    - [src/app.py]           (the handlers [upload_resume], [analyze_resume]
                              and [get_resume])

    Conventions of the embedding.
    - A Python [str] is a [string]; its characters are the 8-bit characters of
      [ascii], classified as Python classifies the ASCII code points (code
      points above 127 are uncased symbols that are neither digits, spaces nor
      word characters).
    - A Python [int] is a [Z]. Turning a string of more than 4300 digits into
      an [int], or an [int] of more than 4300 digits into a string, raises
      [ValueError] (the default of [sys.int_max_str_digits]).
    - A Python [float] is an IEEE 754 binary64 number, given as the rational
      it denotes, a [Q]: every operation returns the float nearest to the
      exact result, ties to the even significand ([Float.rnd]); [round(x, 1)]
      is the float nearest to the multiple of one tenth nearest to [x], ties
      to the even multiple. The readings of the clock are rationals.
    - An exception is a [Raise] in the [result] monad; every other step of the
      source is total. [print] writes its line without error.
    - [list(set(l))] keeps the first occurrence of every element, in order.
      Python promises no order there; no statement below depends on it. *)

From Stdlib Require Import Ascii ZArith QArith Qround Qminmax Qpower Lqa DecimalString.
From stdpp Require Import base option list strings gmap.

Local Open Scope Z_scope.

(* ===================================================================== *)
(** * Characters and strings, as Python's [str] methods see them *)
(* ===================================================================== *)

Module Py.

Definition code (c : ascii) : N := N_of_ascii c.

Definition in_range (lo hi : N) (c : ascii) : bool :=
  ((lo <=? code c) && (code c <=? hi))%N.

(** [str.isdigit] and the regex class [\d]. *)
Definition is_digit (c : ascii) : bool := in_range 48 57 c.
Definition is_upper (c : ascii) : bool := in_range 65 90 c.
Definition is_lower (c : ascii) : bool := in_range 97 122 c.
Definition is_alpha (c : ascii) : bool := is_upper c || is_lower c.

(** [str.isspace] and the regex class [\s]: TAB, LF, VT, FF, CR, the four
    separators FS, GS, RS, US, and SPACE. *)
Definition is_space (c : ascii) : bool := in_range 9 13 c || in_range 28 32 c.

(** The regex class [\w]. *)
Definition is_word (c : ascii) : bool :=
  is_alpha c || is_digit c || bool_decide (c = "_"%char).

Definition lower_char (c : ascii) : ascii :=
  if is_upper c then ascii_of_N (code c + 32) else c.
Definition upper_char (c : ascii) : ascii :=
  if is_lower c then ascii_of_N (code c - 32) else c.

Fixpoint smap (f : ascii → ascii) (s : string) : string :=
  match s with
  | EmptyString => EmptyString
  | String c s' => String (f c) (smap f s')
  end.

Fixpoint sexists (p : ascii → bool) (s : string) : bool :=
  match s with
  | EmptyString => false
  | String c s' => p c || sexists p s'
  end.

Fixpoint sforall (p : ascii → bool) (s : string) : bool :=
  match s with
  | EmptyString => true
  | String c s' => p c && sforall p s'
  end.

(** [s.lower()], [s.upper()]. *)
Definition lower (s : string) : string := smap lower_char s.
Definition upper (s : string) : string := smap upper_char s.

(** [s.title()]: a cased character is upper-cased when the character before
    it is not cased, lower-cased otherwise. *)
Fixpoint title_go (prev_cased : bool) (s : string) : string :=
  match s with
  | EmptyString => EmptyString
  | String c s' =>
      String (if is_alpha c
              then (if prev_cased then lower_char c else upper_char c)
              else c)
             (title_go (is_alpha c) s')
  end.
Definition title (s : string) : string := title_go false s.

(** [len(s)]. *)
Definition len (s : string) : nat := String.length s.

(** [s[:n]]. *)
Fixpoint take (n : nat) (s : string) : string :=
  match n, s with
  | S n', String c s' => String c (take n' s')
  | _, _ => EmptyString
  end.

(** [strip_prefix p s] is [Some r] when [s = p + r]. *)
Fixpoint strip_prefix (p s : string) : option string :=
  match p, s with
  | EmptyString, _ => Some s
  | String a p', String b s' =>
      if bool_decide (a = b) then strip_prefix p' s' else None
  | String _ _, EmptyString => None
  end.

Definition startswith (p s : string) : bool :=
  match strip_prefix p s with Some _ => true | None => false end.

(** [p in s]: [p] occurs in [s] as a substring. *)
Fixpoint contains (p s : string) : bool :=
  startswith p s ||
  match s with
  | EmptyString => false
  | String _ s' => contains p s'
  end.

(** [any(k in s for k in ks)]. *)
Definition any_in (ks : list string) (s : string) : bool :=
  existsb (fun k => contains k s) ks.

Fixpoint lstrip (s : string) : string :=
  match s with
  | EmptyString => EmptyString
  | String c s' => if is_space c then lstrip s' else s
  end.

Fixpoint rstrip (s : string) : string :=
  match s with
  | EmptyString => EmptyString
  | String c s' =>
      match rstrip s' with
      | EmptyString => if is_space c then EmptyString else String c EmptyString
      | r => String c r
      end
  end.

(** [s.strip()]. *)
Definition strip (s : string) : string := rstrip (lstrip s).

(** [s.split(sep)] for a one-character separator, and [re.split] on a
    one-character class: every separator character ends a (possibly empty)
    piece. *)
Fixpoint split_on (p : ascii → bool) (s : string) : list string :=
  match s with
  | EmptyString => [EmptyString]
  | String c s' =>
      if p c then EmptyString :: split_on p s'
      else match split_on p s' with
           | h :: t => String c h :: t
           | [] => [String c EmptyString]
           end
  end.

Definition split_lines (s : string) : list string :=
  split_on (fun c => bool_decide (c = "010"%char)) s.

(** [s.split()]: the maximal runs of characters that are not white space. *)
Fixpoint split_ws_go (cur : option string) (s : string) : list string :=
  match s with
  | EmptyString => option_list (String.rev <$> cur)
  | String c s' =>
      if is_space c
      then option_list (String.rev <$> cur) ++ split_ws_go None s'
      else split_ws_go (Some (String c (default EmptyString cur))) s'
  end.
Definition split_ws (s : string) : list string := split_ws_go None s.

(** [list(set(l))], see the conventions at the top of the file. *)
Definition list_set (l : list string) : list string := remove_dups l.

End Py.

(* ===================================================================== *)
(** * Exceptions *)
(* ===================================================================== *)

Inductive exn : Type :=
| ValueError   (** [int(s)] on a string that is not a number *)
| TypeError.   (** [int(None)] *)

Inductive result (A : Type) : Type :=
| Ok (a : A)
| Raise (e : exn).
Arguments Ok {A} a.
Arguments Raise {A} e.

Global Instance result_ret : MRet result := fun A a => Ok a.
Global Instance result_bind : MBind result := fun A B k m =>
  match m with
  | Ok a => k a
  | Raise e => Raise e
  end.

(** [sys.int_max_str_digits], at its default. *)
Definition int_max_str_digits : Z := 4300.

(** [int(s)] for a string of decimal digits: [ValueError] for more than 4300
    digits, leading zeros counted. Python's [int] also accepts surrounding
    white space, a sign and underscores between digits, which no pattern of
    the source lets through; the model raises there. *)
Fixpoint digits_value (acc : Z) (s : string) : Z :=
  match s with
  | EmptyString => acc
  | String c s' => digits_value (10 * acc + Z.of_N (Py.code c - 48)) s'
  end.

Definition py_int (s : string) : result Z :=
  match s with
  | EmptyString => Raise ValueError
  | _ =>
      if Py.sforall Py.is_digit s
      then if int_max_str_digits <? Z.of_nat (Py.len s) then Raise ValueError
           else Ok (digits_value 0 s)
      else Raise ValueError
  end.

(** [f"{n}"] and [str(n)] for an [int]: [ValueError] for a number of more
    than 4300 digits. *)
Definition format_int (n : Z) : result unit :=
  if Z.abs n <? 10 ^ int_max_str_digits then Ok tt else Raise ValueError.

(** [int(m.group(1))]: the group of a match is [None] when it took no part. *)
Definition py_int_group (g : option string) : result Z :=
  match g with
  | Some s => py_int s
  | None => Raise TypeError
  end.

(* ===================================================================== *)
(** * The fragment of Python's [re] the source uses *)
(* ===================================================================== *)

(** Every repetition in the patterns of the source is over one character
    class ([\d+], [\s*], [[a-z]+], [\d{3,4}]) or is an optional item
    ([years?], [\+?]); there is a single capturing group per pattern. *)
Module Re.

Inductive regex : Type :=
| Lit (s : string)                                     (** literal text *)
| Cls (p : ascii → bool)                               (** one character of a class *)
| Rep (p : ascii → bool) (lo : nat) (hi : option nat)  (** greedy [class{lo,hi}] *)
| Opt (r : regex)                                      (** greedy [r?] *)
| Seq (r1 r2 : regex)
| Alt (r1 r2 : regex)
| Grp (r : regex)                                      (** capturing group 1 *)
| Bnd.                                                 (** [\b] *)

(** One way of matching at a position: the text matched, the text of group 1
    when it took part, and the rest of the input. *)
Record mres : Type := MRes {
  m_text : string;
  m_group : option string;
  m_rest : string
}.

(** All the ways [class{lo,hi}] matches a prefix of [s], longest first. *)
Fixpoint rep_run (p : ascii → bool) (lo : nat) (hi : option nat) (s : string)
  : list (string * string) :=
  match s with
  | String c s' =>
      if p c && negb (bool_decide (hi = Some 0%nat))
      then map (fun tr => (String c tr.1, tr.2)) (rep_run p (pred lo) (pred <$> hi) s')
      else []
  | EmptyString => []
  end ++ (if bool_decide (lo = 0%nat) then [(EmptyString, s)] else []).

(** The character before the position reached after matching [t]. *)
Fixpoint last_char (prev : option ascii) (t : string) : option ascii :=
  match t with
  | EmptyString => prev
  | String c t' => last_char (Some c) t'
  end.

Definition first_char (s : string) : option ascii :=
  match s with
  | EmptyString => None
  | String c _ => Some c
  end.

Definition word_at (c : option ascii) : bool :=
  match c with
  | Some c => Py.is_word c
  | None => false
  end.

(** [run r prev s]: all the ways [r] matches at the start of [s], in the order
    in which a backtracking matcher tries them; [prev] is the character before
    [s] in the whole input. The first element is the match Python reports. *)
Fixpoint run (r : regex) (prev : option ascii) (s : string) : list mres :=
  match r with
  | Lit l =>
      match Py.strip_prefix l s with
      | Some s' => [MRes l None s']
      | None => []
      end
  | Cls p =>
      match s with
      | String c s' => if p c then [MRes (String c EmptyString) None s'] else []
      | EmptyString => []
      end
  | Rep p lo hi => map (fun tr => MRes tr.1 None tr.2) (rep_run p lo hi s)
  | Opt r => run r prev s ++ [MRes EmptyString None s]
  | Seq r1 r2 =>
      flat_map (fun m1 =>
        map (fun m2 =>
               MRes (m_text m1 +:+ m_text m2)
                    (match m_group m2 with
                     | Some g => Some g
                     | None => m_group m1
                     end)
                    (m_rest m2))
            (run r2 (last_char prev (m_text m1)) (m_rest m1)))
        (run r1 prev s)
  | Alt r1 r2 => run r1 prev s ++ run r2 prev s
  | Grp r =>
      map (fun m => MRes (m_text m) (Some (m_text m)) (m_rest m)) (run r prev s)
  | Bnd =>
      if xorb (word_at prev) (word_at (first_char s))
      then [MRes EmptyString None s] else []
  end.

(** [re.search]: the first match at the leftmost position that has one. *)
Fixpoint search_from (r : regex) (prev : option ascii) (s : string) : option mres :=
  match run r prev s with
  | m :: _ => Some m
  | [] =>
      match s with
      | EmptyString => None
      | String c s' => search_from r (Some c) s'
      end
  end.

Definition search (r : regex) (s : string) : option mres := search_from r None s.

(** The matches [re.findall] and [re.finditer] go through: scanning resumes
    where the previous match ended ([skip] characters are still part of it).
    No pattern of the source matches the empty string; after an empty match
    the scan moves one character on. *)
Fixpoint matches_from (r : regex) (prev : option ascii) (skip : nat) (s : string)
  : list mres :=
  match skip with
  | S k =>
      match s with
      | EmptyString => []
      | String c s' => matches_from r (Some c) k s'
      end
  | O =>
      match run r prev s with
      | m :: _ =>
          m :: match s with
               | EmptyString => []
               | String c s' => matches_from r (Some c) (pred (Py.len (m_text m))) s'
               end
      | [] =>
          match s with
          | EmptyString => []
          | String c s' => matches_from r (Some c) 0 s'
          end
      end
  end.

Fixpoint has_group (r : regex) : bool :=
  match r with
  | Grp _ => true
  | Opt r => has_group r
  | Seq r1 r2 | Alt r1 r2 => has_group r1 || has_group r2
  | Lit _ | Cls _ | Rep _ _ _ | Bnd => false
  end.

(** [re.findall]: the text of group 1 when the pattern has a group (the empty
    string when the group took no part), the whole match otherwise. *)
Definition findall (r : regex) (s : string) : list string :=
  map (fun m => if has_group r then default EmptyString (m_group m) else m_text m)
      (matches_from r None 0 s).

(** Shorthands for the classes and quantifiers of the patterns. *)
Definition digit : ascii → bool := Py.is_digit.
Definition space : ascii → bool := Py.is_space.
Definition one_of (cs : string) : ascii → bool :=
  fun c => Py.sexists (fun d => bool_decide (c = d)) cs.
Definition plus (p : ascii → bool) : regex := Rep p 1 None.
Definition star (p : ascii → bool) : regex := Rep p 0 None.
Definition between (p : ascii → bool) (lo hi : nat) : regex := Rep p lo (Some hi).

Fixpoint seq (rs : list regex) : regex :=
  match rs with
  | [] => Lit EmptyString
  | [r] => r
  | r :: rs' => Seq r (seq rs')
  end.

End Re.

Import Re.

(* ===================================================================== *)
(** * [ai_extractor.py]: class [AIExtractor] *)
(* ===================================================================== *)

Record basic_info : Type := BasicInfo {
  name : string;
  phone : string;
  email : string;
  location : string
}.

(** The [experience] dictionary. The extractor always sets ["years"]; the
    matcher reads it with [experience.get('years', 0)], hence the option. *)
Record experience : Type := Experience {
  years : option Z;
  companies : list string;
  roles : list string
}.

Record education : Type := Education {
  degree : string;
  university : string;
  graduation_year : string
}.

(** The dictionary [extract_info] returns; [skills] maps a category name to
    the list of the skills found for it. *)
Record profile : Type := Profile {
  p_basic_info : basic_info;
  p_skills : gmap string (list string);
  p_experience : experience;
  p_education : education;
  p_summary : string
}.

Module AIExtractor.

(** [self.skill_keywords]. *)
Definition skill_keywords : list (string * list string) :=
  [ ("programming", ["python"; "java"; "javascript"; "c++"; "c#"; "go"; "rust";
                     "php"; "ruby"; "swift"; "kotlin"]);
    ("web", ["html"; "css"; "react"; "vue"; "angular"; "django"; "flask";
             "node.js"; "express"; "spring"]);
    ("databases", ["mysql"; "postgresql"; "mongodb"; "redis"; "oracle"; "sqlite";
                   "sql"]);
    ("cloud", ["aws"; "azure"; "gcp"; "docker"; "kubernetes"; "jenkins"; "gitlab";
               "github"]);
    ("ai_ml", ["tensorflow"; "pytorch"; "scikit-learn"; "nlp"; "computer vision";
               "machine learning"; "deep learning"]);
    ("soft_skills", ["leadership"; "communication"; "teamwork"; "problem solving";
                     "project management"]) ].

(** ** [_extract_basic_info] *)

(** [[@#\$%\^&\*\(\)]] *)
Definition name_symbols : regex := Cls (one_of "@#$%^&*()").

(** The test a stripped line of the first ten passes to become the name. *)
Definition looks_like_name (line : string) : bool :=
  negb (bool_decide (line = EmptyString))
  && (2 <=? length (Py.split_ws line))%nat
  && (length (Py.split_ws line) <=? 4)%nat
  && negb (Py.sexists Py.is_digit line)
  && negb (bool_decide (is_Some (search name_symbols line))).

Definition extract_name (text : string) : string :=
  default EmptyString
    (find looks_like_name (map Py.strip (take 10 (Py.split_lines text)))).

Definition sep_space_dash : ascii → bool := fun c => space c || one_of "-" c.
Definition sep_space_dash_dot : ascii → bool := fun c => space c || one_of "-." c.

(** [phone_patterns], in order. *)
Definition phone_patterns : list regex :=
  [ (* \+\d{1,3}[\s\-]?\d{3,4}[\s\-]?\d{3,4}[\s\-]?\d{3,4} *)
    seq [Lit "+"; between digit 1 3; Opt (Cls sep_space_dash);
         between digit 3 4; Opt (Cls sep_space_dash);
         between digit 3 4; Opt (Cls sep_space_dash); between digit 3 4];
    (* \(\d{3}\)[\s\-]?\d{3}[\s\-]?\d{4} *)
    seq [Lit "("; between digit 3 3; Lit ")"; Opt (Cls sep_space_dash);
         between digit 3 3; Opt (Cls sep_space_dash); between digit 4 4];
    (* \d{3}[\s\-\.]?\d{3}[\s\-\.]?\d{4} *)
    seq [between digit 3 3; Opt (Cls sep_space_dash_dot);
         between digit 3 3; Opt (Cls sep_space_dash_dot); between digit 4 4] ].

(** The loop over [phone_patterns]: the first pattern with a match gives its
    first match. *)
Fixpoint extract_phone (patterns : list regex) (text : string) : string :=
  match patterns with
  | [] => EmptyString
  | pattern :: patterns' =>
      match findall pattern text with
      | m :: _ => m
      | [] => extract_phone patterns' text
      end
  end.

(** [[a-zA-Z0-9._%+-]+@[a-zA-Z0-9.-]+\.[a-zA-Z]{2,}] *)
Definition email_pattern : regex :=
  seq [plus (fun c => Py.is_alpha c || Py.is_digit c || one_of "._%+-" c);
       Lit "@";
       plus (fun c => Py.is_alpha c || Py.is_digit c || one_of ".-" c);
       Lit ".";
       Rep Py.is_alpha 2 None].

Definition extract_email (text : string) : string :=
  match findall email_pattern text with
  | m :: _ => m
  | [] => EmptyString
  end.

Definition location_keywords : list string :=
  ["street"; "avenue"; "road"; "st\."; "ave\."; "rd\.";
   "city"; "state"; "province"; "country"; "zip"; "postal"].

Definition is_address (sentence : string) : bool :=
  Py.any_in location_keywords (Py.lower sentence)
  && (10 <? Py.len (Py.strip sentence))%nat
  && (Py.len (Py.strip sentence) <? 100)%nat.

Definition extract_location (text : string) : string :=
  match find is_address (Py.split_on (one_of ".!?") text) with
  | Some sentence => Py.strip sentence
  | None => EmptyString
  end.

Definition _extract_basic_info (text : string) : basic_info :=
  {| name := extract_name text;
     phone := extract_phone phone_patterns text;
     email := extract_email text;
     location := extract_location text |}.

(** ** [_extract_skills] *)

(** The inner loop: the keywords of a category that occur in the text, each
    turned to title case. *)
Definition found_skills (keywords : list string) (text_lower : string) : list string :=
  map Py.title (filter (fun keyword => Py.contains keyword text_lower) keywords).

Definition empty_skills : gmap string (list string) :=
  list_to_map [("programming", []); ("web", []); ("databases", []); ("cloud", []);
               ("ai_ml", []); ("soft_skills", []); ("other", [])].

Definition _extract_skills (text : string) : gmap string (list string) :=
  let text_lower := Py.lower text in
  foldl (fun skills ck =>
           <[ck.1 := Py.list_set (found_skills ck.2 text_lower)]> skills)
        empty_skills skill_keywords.

(** ** [_estimate_experience_years] *)

(** [(19|20)\d{2}] *)
Definition date_pattern : regex :=
  Seq (Grp (Alt (Lit "19") (Lit "20"))) (between digit 2 2).

(** [rf'(\d+)\s*{keyword}'] *)
Definition number_before (keyword : string) : regex :=
  seq [Grp (plus digit); star space; Lit keyword].

Definition experience_keywords : list string := ["years"; "experience"; "experienced"].
Definition senior_keywords : list string :=
  ["senior"; "lead"; "principal"; "architect"; "director"].
Definition junior_keywords : list string :=
  ["junior"; "entry"; "fresh"; "graduate"; "intern"].

Definition list_min (x : Z) (l : list Z) : Z := foldl Z.min x l.
Definition list_max (x : Z) (l : list Z) : Z := foldl Z.max x l.

(** The comprehension [[int(year) for year in years if 1900 < int(year) <= 2024]]. *)
Definition years_int (found : list string) : result (list Z) :=
  ys ← mapM py_int found;
  mret (filter (fun y => bool_decide (1900 < y ∧ y ≤ 2024)) ys).

(** The last tier: inference from seniority words. *)
Definition years_from_level (text_lower : string) : Z :=
  if Py.any_in senior_keywords text_lower then 5
  else if Py.any_in junior_keywords text_lower then 1
  else 3.

(** The loop over [experience_keywords], then the last tier. *)
Fixpoint years_from_keywords (keywords : list string) (text : string) : result Z :=
  match keywords with
  | [] => mret (years_from_level (Py.lower text))
  | keyword :: keywords' =>
      match search (number_before keyword) (Py.lower text) with
      | Some m => py_int_group (m_group m)
      | None => years_from_keywords keywords' text
      end
  end.

Definition _estimate_experience_years (text : string) : result Z :=
  let found := findall date_pattern text in
  if (2 <=? length found)%nat then
    ys ← years_int found;
    match ys with
    | y :: ys' => mret (Z.max 0 (list_max y ys' - list_min y ys'))
    | [] => years_from_keywords experience_keywords text
    end
  else years_from_keywords experience_keywords text.

(** ** [_extract_experience] *)

Definition section_keywords : list string :=
  ["experience"; "work"; "employment"; "career"; "professional"].
Definition role_keywords : list string :=
  ["engineer"; "developer"; "manager"; "analyst"; "director"; "specialist";
   "consultant"].
Definition company_keywords : list string :=
  ["inc"; "ltd"; "corp"; "company"; "technologies"; "group"].

(** The inner loop over the lines after a section header: the roles and the
    companies found among them, in order. *)
Fixpoint classify (following : list string) : list string * list string :=
  match following with
  | [] => ([], [])
  | l :: following' =>
      let next_line := Py.strip l in
      let rc := classify following' in
      if negb (bool_decide (next_line = EmptyString)) && (2 <? Py.len next_line)%nat
      then if Py.any_in role_keywords (Py.lower next_line)
           then (next_line :: rc.1, rc.2)
           else if Py.any_in company_keywords (Py.lower next_line)
                then (rc.1, next_line :: rc.2)
                else rc
      else rc
  end.

(** The outer loop: [lines[i+1 : min(i+10, len(lines))]] are the nine lines
    after line [i], fewer at the end of the text. *)
Fixpoint scan_sections (lines : list string) : list string * list string :=
  match lines with
  | [] => ([], [])
  | line :: rest =>
      let here :=
        if Py.any_in section_keywords (Py.lower line)
        then classify (take 9 rest) else ([], []) in
      let later := scan_sections rest in
      (here.1 ++ later.1, here.2 ++ later.2)
  end.

Definition _extract_experience (text : string) : result experience :=
  y ← _estimate_experience_years text;
  let rc := scan_sections (Py.split_lines text) in
  mret {| years := Some y;
          companies := take 5 (Py.list_set rc.2);
          roles := take 5 (Py.list_set rc.1) |}.

(** ** [_extract_education] *)

Definition education_keywords : list string :=
  ["university"; "college"; "institute"; "school"; "bachelor"; "master"; "phd";
   "doctor"].
Definition degree_keywords : list string :=
  ["bachelor"; "master"; "phd"; "doctor"; "b.sc"; "m.sc"; "b.tech"; "m.tech";
   "bs"; "ms"].

Definition _extract_education (text : string) : education :=
  match find (fun line => Py.any_in education_keywords (Py.lower line))
             (Py.split_lines text) with
  | None => {| degree := EmptyString; university := EmptyString;
               graduation_year := EmptyString |}
  | Some line =>
      {| degree :=
           match find (fun d => Py.contains d (Py.lower line)) degree_keywords with
           | Some d => Py.upper d
           | None => EmptyString
           end;
         university := Py.strip line;
         graduation_year :=
           match search date_pattern line with
           | Some year_match => m_text year_match
           | None => EmptyString
           end |}
  end.

(** ** [_generate_summary] *)

Definition _generate_summary (text : string) : string :=
  let summary := Py.strip (Py.take 300 text) in
  if (300 <? Py.len text)%nat then summary +:+ "..." else summary.

(** ** [extract_info] *)

Definition extract_info (text : string) : result profile :=
  let basic := _extract_basic_info text in
  let skills := _extract_skills text in
  exp ← _extract_experience text;
  mret {| p_basic_info := basic;
          p_skills := skills;
          p_experience := exp;
          p_education := _extract_education text;
          p_summary := _generate_summary text |}.

End AIExtractor.

(* ===================================================================== *)
(** * [matcher.py]: class [ResumeMatcher] *)
(* ===================================================================== *)

Local Open Scope Q_scope.

(** The whole number nearest to [x], ties to the even one. *)
Definition round_half_even (x : Q) : Z :=
  let f := Qfloor x in
  match Qcompare (x - inject_Z f) (1 # 2) with
  | Lt => f
  | Gt => (f + 1)%Z
  | Eq => if Z.even f then f else (f + 1)%Z
  end.

(** Python's [float] arithmetic. *)
Module Float.

Definition pow2 (e : Z) : Q := 2 ^ e.

(** [binade x] is the [e] with [2^e <= x < 2^(e+1)], for [0 < x]. *)
Definition binade (x : Q) : Z :=
  let e := (Z.log2 (Qnum x) - Z.log2 (Zpos (Qden x)))%Z in
  if Qle_bool (pow2 e) x then e else (e - 1)%Z.

(** The exponent of the unit in the last place of the float of [x]: 53 bits
    of precision, and the spacing [2^-1074] of the subnormal numbers. *)
Definition ulp_exponent (x : Q) : Z := Z.max (binade x - 52) (-1074).

(** The float nearest to [x], ties to the even significand. No operation of
    the source comes near the overflow threshold [2^1024] (its floats are at
    most 100), so overflow is left out. *)
Definition rnd (x : Q) : Q :=
  match Qcompare x 0 with
  | Eq => 0
  | Gt => let u := pow2 (ulp_exponent x) in
          Qred (inject_Z (round_half_even (x / u)) * u)
  | Lt => let u := pow2 (ulp_exponent (- x)) in
          Qred (- (inject_Z (round_half_even (- x / u)) * u))
  end.

(** [x + y] and [x * y] on floats (an [int] operand is converted first, and
    the ones of the source, 10 and 100, are floats as they are); [a / b] on
    two [int]s, which Python rounds correctly; a decimal literal. *)
Definition add (x y : Q) : Q := rnd (x + y).
Definition mul (x y : Q) : Q := rnd (x * y).
Definition div_int (a b : Z) : Q := rnd (inject_Z a / inject_Z b).
Definition lit (q : Q) : Q := rnd q.

End Float.

(** [round(x, 1)] for a float (and for the [int]s 0 and 10, which it leaves
    as they are): the float nearest to the multiple of one tenth nearest to
    [x], ties to the even multiple. *)
Definition py_round1 (x : Q) : Q :=
  Float.rnd (inject_Z (round_half_even (x * 10)) / 10).

Definition Qgeb (x y : Q) : bool := Qle_bool y x.

(** The dictionary [_calculate_skill_match] returns. *)
Record skill_match : Type := SkillMatch {
  matched_skills : list string;
  missing_skills : list string;
  percentage : Q;
  sm_score : Q
}.

(** The dictionary [_calculate_experience_match] returns. *)
Record experience_match : Type := ExperienceMatch {
  years_required : Z;
  years_actual : Z;
  em_score : Q;
  match_level : string
}.

(** The lines [_generate_feedback] produces, each with the values its format
    string prints. *)
Inductive feedback_line : Type :=
| OverallExcellent
| OverallGood
| OverallMedium
| OverallLow
| SkillsExcellent (pct : Q)
| SkillsAverage (pct : Q)
| SkillsInsufficient (pct : Q)
| SkillsMissing (up_to_three : list string)
| ExperienceMet (actual : Z)
| ExperienceShort (required actual : Z)
| ExperienceOnly (actual : Z)
| Advice (up_to_three : list string).

(** The dictionary [match] returns. *)
Record match_result : Type := MatchResult {
  overall_score : Q;
  mr_skill_match : skill_match;
  mr_experience_match : experience_match;
  text_similarity : Q;
  job_keywords : list string;
  feedback : list feedback_line;
  recommendation : string
}.

Module ResumeMatcher.

(** [self.common_skills]. *)
Definition common_skills : list string :=
  ["python"; "java"; "javascript"; "typescript"; "c++"; "c#"; "go"; "rust";
   "react"; "vue"; "angular"; "node.js"; "django"; "flask"; "spring";
   "aws"; "azure"; "gcp"; "docker"; "kubernetes"; "jenkins";
   "mysql"; "postgresql"; "mongodb"; "redis"; "oracle";
   "machine learning"; "ai"; "deep learning"; "nlp"; "tensorflow"; "pytorch";
   "agile"; "scrum"; "devops"; "ci/cd"; "git"; "rest api"; "microservices"].

(** [self.level_keywords]. *)
Definition level_senior : list string :=
  ["senior"; "lead"; "principal"; "architect"; "expert"].
Definition level_mid : list string := ["mid-level"; "intermediate"; "experienced"].
Definition level_junior : list string :=
  ["junior"; "entry-level"; "associate"; "graduate"].

(** ** [_extract_job_keywords] *)

(** [\b[A-Z][a-z]+[A-Z][a-z]+\b] and [\b[A-Z]{2,}\b] *)
Definition camel_case : regex :=
  seq [Bnd; Cls Py.is_upper; plus Py.is_lower; Cls Py.is_upper; plus Py.is_lower; Bnd].
Definition all_caps : regex := seq [Bnd; Rep Py.is_upper 2 None; Bnd].

(** [years_patterns], in order. *)
Definition years_patterns : list regex :=
  [ (* (\d+)\+?\s*years?\s+experience *)
    seq [Grp (plus digit); Opt (Lit "+"); star space; Lit "year"; Opt (Lit "s");
         plus space; Lit "experience"];
    (* experience\s+of\s+(\d+)\+?\s*years? *)
    seq [Lit "experience"; plus space; Lit "of"; plus space; Grp (plus digit);
         Opt (Lit "+"); star space; Lit "year"; Opt (Lit "s")];
    (* (\d+)\s*-\s*\d+\s*years *)
    seq [Grp (plus digit); star space; Lit "-"; star space; plus digit;
         star space; Lit "years"] ].

(** [f"experience_{match.group(1)}_years"] *)
Definition experience_token (g : option string) : string :=
  "experience_" +:+ default "None" g +:+ "_years".

(** The loop over the technical words: a word is added unless it is there. *)
Definition add_tech_words (found : list string) (words : list string) : list string :=
  foldl (fun acc word =>
           let word_lower := Py.lower word in
           if bool_decide (word_lower ∈ acc) then acc else acc ++ [word_lower])
        found words.

(** The loop over [years_patterns]: every pattern that matches adds the token
    of its first match. *)
Definition tenure_tokens (text : string) : list string :=
  omap (fun pattern => (fun m => experience_token (m_group m)) <$> search pattern text)
       years_patterns.

Definition _extract_job_keywords (job_description : string) : list string :=
  let text := Py.lower job_description in
  let found_keywords := filter (fun skill => Py.contains skill text) common_skills in
  let tech_words :=
    findall camel_case job_description ++ findall all_caps job_description in
  let found_keywords := add_tech_words found_keywords (take 10 tech_words) in
  let found_keywords := found_keywords ++ tenure_tokens text in
  Py.list_set found_keywords.

(** ** [_calculate_skill_match] *)

(** [keyword_lower in skill or skill in keyword_lower] for some skill. *)
Definition keyword_matches (all_resume_skills : list string) (keyword : string) : bool :=
  existsb (fun skill =>
             Py.contains (Py.lower keyword) skill || Py.contains skill (Py.lower keyword))
          all_resume_skills.

Definition _calculate_skill_match
    (resume_skills : gmap string (list string)) (job_keywords : list string)
  : skill_match :=
  let all_resume_skills :=
    Py.list_set (flat_map (fun cs => map Py.lower cs.2) (map_to_list resume_skills)) in
  let matched := filter (fun k => keyword_matches all_resume_skills k) job_keywords in
  let match_percentage :=
    match job_keywords with
    | [] => 0
    | _ => Float.div_int (Z.of_nat (length matched)) (Z.of_nat (length job_keywords))
    end in
  {| matched_skills := matched;
     missing_skills := filter (fun k => bool_decide (k ∉ matched)) job_keywords;
     percentage := py_round1 (Float.mul match_percentage 100);
     sm_score := py_round1 (Float.mul match_percentage 10) |}.

(** ** [_extract_years_required] *)

(** [patterns], in order. *)
Definition required_patterns : list regex :=
  [ (* (\d+)\+?\s*years *)
    seq [Grp (plus digit); Opt (Lit "+"); star space; Lit "years"];
    (* (\d+)\+?\s*years? experience *)
    seq [Grp (plus digit); Opt (Lit "+"); star space; Lit "year"; Opt (Lit "s");
         Lit " experience"];
    (* experience of (\d+)\+?\s*years *)
    seq [Lit "experience of "; Grp (plus digit); Opt (Lit "+"); star space;
         Lit "years"];
    (* (\d+)\s*-\s*\d+\s*years *)
    seq [Grp (plus digit); star space; Lit "-"; star space; plus digit;
         star space; Lit "years"] ].

(** The loop over [patterns]: the group of the first pattern that matches. *)
Fixpoint explicit_years (patterns : list regex) (text : string) : option (option string) :=
  match patterns with
  | [] => None
  | pattern :: patterns' =>
      match search pattern text with
      | Some m => Some (m_group m)
      | None => explicit_years patterns' text
      end
  end.

(** The inference from the level of the position. *)
Definition years_from_level (text_lower : string) : Z :=
  if Py.any_in level_senior text_lower then 5%Z
  else if Py.any_in level_mid text_lower then 3%Z
  else if Py.any_in level_junior text_lower then 1%Z
  else 0%Z.

Definition _extract_years_required (job_description : string) : result Z :=
  match explicit_years required_patterns (Py.lower job_description) with
  | Some g => py_int_group g
  | None => mret (years_from_level (Py.lower job_description))
  end.

(** ** [_get_experience_level] *)

Definition _get_experience_level (years : Z) : string :=
  if (8 <=? years)%Z then "Senior/Expert"
  else if (5 <=? years)%Z then "Senior"
  else if (3 <=? years)%Z then "Mid-level"
  else if (1 <=? years)%Z then "Junior"
  else "Entry-level".

(** ** [_calculate_experience_match] *)

(** The score before rounding. *)
Definition raw_experience_score (years_required resume_years : Z) : Q :=
  if (0 <? years_required)%Z then
    if (years_required <=? resume_years)%Z then 10
    else if (0 <? resume_years)%Z
         then Qmin 10 (Float.mul (Float.div_int resume_years years_required) 10)
         else 0
  else
    if (8 <=? resume_years)%Z then 9
    else if (5 <=? resume_years)%Z then 75 # 10
    else if (3 <=? resume_years)%Z then 6
    else if (1 <=? resume_years)%Z then 4
    else 2.

Definition _calculate_experience_match (exp : experience) (job_description : string)
  : result experience_match :=
  required ← _extract_years_required job_description;
  let resume_years := default 0%Z (years exp) in
  (* the line printed with the two numbers of years *)
  _ ← format_int required;
  _ ← format_int resume_years;
  mret {| years_required := required;
          years_actual := resume_years;
          em_score := py_round1 (raw_experience_score required resume_years);
          match_level := _get_experience_level resume_years |}.

(** ** [_calculate_text_similarity] *)

Definition word_set (text : string) : gset string :=
  list_to_set (Py.split_ws (Py.lower text)).

Definition _calculate_text_similarity (resume_text job_text : string) : Q :=
  let resume_words := word_set resume_text in
  let job_words := word_set job_text in
  if bool_decide (resume_words = ∅) || bool_decide (job_words = ∅) then 0
  else
    let intersection := size (resume_words ∩ job_words) in
    let union := size (resume_words ∪ job_words) in
    if bool_decide (union = 0%nat) then 0
    else Float.mul (Float.div_int (Z.of_nat intersection) (Z.of_nat union)) 10.

(** ** [_calculate_overall_score] *)

(** [weights]: the floats [0.5], [0.3] and [0.2]. *)
Definition weight_skill : Q := Float.lit (5 # 10).
Definition weight_experience : Q := Float.lit (3 # 10).
Definition weight_similarity : Q := Float.lit (2 # 10).

(** The term of the weighted sum that comes from the text similarity. *)
Definition similarity_term (text_similarity : Q) : Q :=
  Float.mul text_similarity weight_similarity.

Definition _calculate_overall_score
    (sm : skill_match) (em : experience_match) (text_similarity : Q) : Q :=
  py_round1 (Float.add (Float.add (Float.mul (sm_score sm) weight_skill)
                                  (Float.mul (em_score em) weight_experience))
                       (similarity_term text_similarity)).

(** ** [_generate_feedback] *)

Definition _generate_feedback
    (overall : Q) (sm : skill_match) (em : experience_match)
    (skills : gmap string (list string)) : list feedback_line :=
  [ if Qgeb overall (85 # 10) then OverallExcellent
    else if Qgeb overall 7 then OverallGood
    else if Qgeb overall 5 then OverallMedium
    else OverallLow ]
  ++ (if Qgeb (percentage sm) 80 then [SkillsExcellent (percentage sm)]
      else if Qgeb (percentage sm) 60 then [SkillsAverage (percentage sm)]
      else SkillsInsufficient (percentage sm)
           :: match missing_skills sm with
              | [] => []
              | _ => [SkillsMissing (take 3 (missing_skills sm))]
              end)
  ++ [ if (0 <? years_required em)%Z then
         if (years_required em <=? years_actual em)%Z
         then ExperienceMet (years_actual em)
         else ExperienceShort (years_required em) (years_actual em)
       else ExperienceOnly (years_actual em) ]
  ++ (if Qgeb overall 7 then []
      else match missing_skills sm with
           | [] => []
           | _ => [Advice (take 3 (missing_skills sm))]
           end).

(** ** [_get_recommendation] *)

Definition strongly_recommend : string := "强烈推荐".
Definition recommend : string := "推荐".
Definition consider : string := "可考虑".
Definition not_recommended : string := "不推荐".

Definition _get_recommendation (score : Q) : string :=
  if Qgeb score (85 # 10) then strongly_recommend
  else if Qgeb score 7 then recommend
  else if Qgeb score 5 then consider
  else not_recommended.

(** ** [match] *)

(** The value of [text_similarity] when [use_ai] is false: the float [0.7]. *)
Definition default_similarity : Q := Float.lit (7 # 10).

Definition match_ (resume_info : profile) (job_description : string) (use_ai : bool)
  : result match_result :=
  let keywords := _extract_job_keywords job_description in
  let sm := _calculate_skill_match (p_skills resume_info) keywords in
  em ← _calculate_experience_match (p_experience resume_info) job_description;
  let similarity :=
    if use_ai
    then _calculate_text_similarity (p_summary resume_info) (Py.take 500 job_description)
    else default_similarity in
  let overall := _calculate_overall_score sm em similarity in
  mret {| overall_score := py_round1 overall;
          mr_skill_match := sm;
          mr_experience_match := em;
          text_similarity := py_round1 similarity;
          job_keywords := take 20 keywords;
          feedback := _generate_feedback overall sm em (p_skills resume_info);
          recommendation := _get_recommendation overall |}.

End ResumeMatcher.

Local Close Scope Q_scope.

(* ===================================================================== *)
(** * [cache.py]: class [CacheManager], with [redis_client] set to [None] *)
(* ===================================================================== *)

Module CacheManager.

Section Cache.

(** The type of the cached values. *)
Context {V : Type}.

(** [self.memory_cache] and [self.cache_expiry]. *)
Record cache : Type := Cache {
  memory_cache : gmap string V;
  cache_expiry : gmap string Q
}.

(** [CacheManager()] *)
Definition init : cache := {| memory_cache := ∅; cache_expiry := ∅ |}.

(** [get(key)] when [time.time()] returns [now]: the value returned ([None]
    is a miss) and the cache afterwards. *)
Definition get (c : cache) (key : string) (now : Q) : option V * cache :=
  match memory_cache c !! key with
  | Some value =>
      let expiry := default 0%Q (cache_expiry c !! key) in
      if Qlt_le_dec now expiry then (Some value, c)
      else (None, {| memory_cache := delete key (memory_cache c);
                     cache_expiry := delete key (cache_expiry c) |})
  | None => (None, c)
  end.

(** [set(key, value, ttl)] when [time.time()] returns [now]. *)
Definition set (c : cache) (key : string) (value : V) (ttl : Z) (now : Q)
  : bool * cache :=
  (true, {| memory_cache := <[key := value]> (memory_cache c);
            cache_expiry := <[key := (now + inject_Z ttl)%Q]> (cache_expiry c) |}).

(** [delete(key)] *)
Definition delete_ (c : cache) (key : string) : bool * cache :=
  match memory_cache c !! key with
  | Some _ => (true, {| memory_cache := delete key (memory_cache c);
                        cache_expiry := delete key (cache_expiry c) |})
  | None => (false, c)
  end.

(** [clear()] *)
Definition clear (c : cache) : bool * cache := (true, init).

(** A call on the cache, with the reading of the clock where it has one. *)
Inductive call : Type :=
| CallGet (key : string) (now : Q)
| CallSet (key : string) (value : V) (ttl : Z) (now : Q)
| CallDelete (key : string)
| CallClear.

Definition step (c : cache) (op : call) : cache :=
  match op with
  | CallGet key now => (get c key now).2
  | CallSet key value ttl now => (set c key value ttl now).2
  | CallDelete key => (delete_ c key).2
  | CallClear => (clear c).2
  end.

Definition steps (c : cache) (ops : list call) : cache := foldl step c ops.


End Cache.

Arguments cache V : clear implicits.
Arguments call V : clear implicits.

End CacheManager.

(* ===================================================================== *)
(** * [parser.py]: class [PDFParser] *)
(* ===================================================================== *)

Module PDFParser.

(** [re.sub(pattern, repl, text)] for a replacement without group references:
    the matches are the ones [findall] goes through, from left to right, and
    each is replaced with [repl]; [skip] counts the characters of the current
    match that are still to be dropped. The two patterns of [_clean_text] take
    at least one character. *)
Fixpoint sub_from (r : regex) (repl : string) (prev : option ascii) (skip : nat)
    (s : string) : string :=
  match skip with
  | S k =>
      match s with
      | EmptyString => EmptyString
      | String c s' => sub_from r repl (Some c) k s'
      end
  | O =>
      match run r prev s with
      | m :: _ =>
          repl +:+
          match s with
          | EmptyString => EmptyString
          | String c s' =>
              (if Py.len (m_text m) is O then String c EmptyString else EmptyString)
              +:+ sub_from r repl (Some c) (pred (Py.len (m_text m))) s'
          end
      | [] =>
          match s with
          | EmptyString => EmptyString
          | String c s' => String c (sub_from r repl (Some c) 0 s')
          end
      end
  end.

Definition sub (r : regex) (repl : string) (s : string) : string :=
  sub_from r repl None 0 s.

(** [sep.join(l)]. *)
Fixpoint join (sep : string) (l : list string) : string :=
  match l with
  | [] => EmptyString
  | [x] => x
  | x :: l' => x +:+ sep +:+ join sep l'
  end.

(** ** [_clean_text] *)

(** [\s+] *)
Definition white_space : regex := plus space.

(** [[^\w\s.,;:!?@()\-/\n]] *)
Definition kept (c : ascii) : bool :=
  Py.is_word c || space c || one_of ".,;:!?@()-/" c
  || bool_decide (c = "010"%char).
Definition special_character : regex := Cls (fun c => negb (kept c)).

Definition _clean_text (text : string) : string :=
  let text := sub white_space " " text in
  let text := sub special_character EmptyString text in
  let paragraphs := Py.split_lines text in
  let cleaned_paragraphs :=
    filter (fun para =>
              negb (bool_decide (para = EmptyString)) && (5 <? Py.len para)%nat)
           (map Py.strip paragraphs) in
  join (String "010"%char EmptyString) cleaned_paragraphs.

(** ** [parse] *)

(** What [pdfplumber] makes of the file at [pdf_path]: an exception, given by
    its message, or the pages, each given by what [extract_text()] returns for
    it, [None] for a page without text. *)
Definition pdf : Type := string + list (option string).

(** [Exception(f"PDF parsing failed: {str(e)}")] *)
Inductive parse_error : Type :=
| ParsingFailed (e : string).

Definition error_message (e : parse_error) : string :=
  match e with
  | ParsingFailed e => "PDF parsing failed: " +:+ e
  end.

(** The loop over the pages. *)
Fixpoint text_content (pages : list (option string)) : list string :=
  match pages with
  | [] => []
  | page_text :: pages' =>
      match page_text with
      | Some t =>
          if bool_decide (t = EmptyString) then text_content pages'
          else _clean_text t :: text_content pages'
      | None => text_content pages'
      end
  end.

Definition parse (file : pdf) : parse_error + string :=
  match file with
  | inl e => inl (ParsingFailed e)
  | inr pages =>
      inr (join (String "010"%char (String "010"%char EmptyString))
                (text_content pages))
  end.

End PDFParser.

(* ===================================================================== *)
(** * [app.py]: the request handlers *)
(* ===================================================================== *)

(** The handlers work on two module-level objects, [resume_storage] and
    [cache_manager], and on the dictionaries these refer to. A dictionary
    built by a handler is an object on a heap; [resume_storage] and the
    cache hold references to it, so an assignment through one reference is
    seen through the others. What a request gets from outside is an argument
    of its handler: the identifier [uuid.uuid4()] returns and the readings of
    the clock in [cache_manager.get] and [cache_manager.set]. The temporary
    file is written and removed without error, and the uploaded file has a
    name. *)
Module App.

(** [s[n:]] and [s.endswith(suffix)]. *)
Fixpoint str_from (n : nat) (s : string) : string :=
  match n, s with
  | S n', String _ s' => str_from n' s'
  | _, _ => s
  end.

Definition endswith (suffix s : string) : bool :=
  (Py.len suffix <=? Py.len s)%nat
  && bool_decide (str_from (Py.len s - Py.len suffix) s = suffix).

(** [str(n)] for an [int]. *)
Definition str_int (n : Z) : string := NilZero.string_of_int (Z.to_int n).

(** [str(b)] for a [bool]. *)
Definition str_bool (b : bool) : string := if b then "True" else "False".

(** The dictionary [upload_resume] builds. *)
Record upload_result : Type := UploadResult {
  resume_id : string;
  filename : string;
  file_size : Z;
  status : string;
  extracted_info : profile;
  text_preview : string;
  from_cache : bool
}.

(** The dictionary [analyze_resume] builds. *)
Record analysis_result : Type := AnalysisResult {
  a_resume_id : string;
  job_description_preview : string;
  a_match_result : match_result;
  a_from_cache : bool
}.

(** A dictionary on the heap. *)
Inductive obj : Type :=
| Upload (r : upload_result)
| Analysis (r : analysis_result).

(** [d['resume_id'] = resume_id] *)
Definition set_resume_id (id : string) (d : obj) : obj :=
  match d with
  | Upload r =>
      Upload {| resume_id := id; filename := filename r; file_size := file_size r;
                status := status r; extracted_info := extracted_info r;
                text_preview := text_preview r; from_cache := from_cache r |}
  | Analysis r =>
      Analysis {| a_resume_id := id;
                  job_description_preview := job_description_preview r;
                  a_match_result := a_match_result r;
                  a_from_cache := a_from_cache r |}
  end.

(** [d['from_cache'] = b] *)
Definition set_from_cache (b : bool) (d : obj) : obj :=
  match d with
  | Upload r =>
      Upload {| resume_id := resume_id r; filename := filename r;
                file_size := file_size r; status := status r;
                extracted_info := extracted_info r;
                text_preview := text_preview r; from_cache := b |}
  | Analysis r =>
      Analysis {| a_resume_id := a_resume_id r;
                  job_description_preview := job_description_preview r;
                  a_match_result := a_match_result r;
                  a_from_cache := b |}
  end.

(** The state of the application: the dictionaries, by reference,
    [resume_storage] and [cache_manager]. *)
Record app : Type := AppState {
  heap : list obj;
  resume_storage : gmap string nat;
  cache_manager : CacheManager.cache nat
}.

(** The state when the module is loaded. *)
Definition initial : app :=
  {| heap := []; resume_storage := ∅; cache_manager := CacheManager.init |}.

(** The exception a handler turns into a response with status 500. *)
Inductive failure : Type :=
| ParseFailure (e : PDFParser.parse_error)
| Raised (e : exn)
| KeyError (key : string).

(** The [detail] of an [HTTPException]: a fixed text,
    [f"Upload failed: {str(e)}"] or [f"Analysis failed: {str(e)}"]. *)
Inductive detail : Type :=
| Detail (text : string)
| UploadFailed (e : failure)
| AnalysisFailed (e : failure).

(** The content of a [JSONResponse]: a dictionary as it is when the response
    is built, or the dictionary [get_resume] wraps it in, with the status
    "success". *)
Inductive content : Type :=
| Result (d : obj)
| Resume (resume_id : string) (data : obj).

(** What a handler answers. [Dangling] stands for a reference to no object,
    which Python does not have; no request gets this answer (see the
    properties). *)
Inductive response : Type :=
| JSONResponse (c : content)
| HTTPException (status_code : Z) (d : detail)
| Dangling.

Section Handlers.

(** [hash] on [bytes] and on [str], and what [pdfplumber] makes of a file with
    the given content. *)
Variable hash_bytes : string → Z.
Variable hash_str : string → Z.
Variable pdfplumber : string → PDFParser.pdf.

(** [text[:n] + "..." if len(text) > n else text] *)
Definition preview (n : nat) (text : string) : string :=
  if (n <? Py.len text)%nat then Py.take n text +:+ "..." else text.

(** [upload_resume(file)] for a file with the name [file_name] and the bytes
    [content]. *)
Definition upload_resume (st : app) (file_name content : string)
    (uuid4 : string) (now_get now_set : Q) : response * app :=
  if negb (endswith ".pdf" (Py.lower file_name))
  then (HTTPException 400 (Detail "Only PDF files are supported"), st)
  else
    let size := Z.of_nat (Py.len content) in
    if (10 * 1024 * 1024 <? size)%Z
    then (HTTPException 400 (Detail "File size exceeds 10MB limit"), st)
    else
      let id := uuid4 in
      let cache_key := "upload_" +:+ str_int (hash_bytes content) in
      let looked_up := CacheManager.get (cache_manager st) cache_key now_get in
      match looked_up.1 with
      | Some cached_result =>
          let h :=
            alter (fun d => set_from_cache true (set_resume_id id d))
                  cached_result (heap st) in
          let st' := {| heap := h;
                        resume_storage := <[id := cached_result]> (resume_storage st);
                        cache_manager := looked_up.2 |} in
          match h !! cached_result with
          | Some d => (JSONResponse (Result d), st')
          | None => (Dangling, st')
          end
      | None =>
          let st' := {| heap := heap st;
                        resume_storage := resume_storage st;
                        cache_manager := looked_up.2 |} in
          match PDFParser.parse (pdfplumber content) with
          | inl e => (HTTPException 500 (UploadFailed (ParseFailure e)), st')
          | inr text_content =>
              match AIExtractor.extract_info text_content with
              | Raise e => (HTTPException 500 (UploadFailed (Raised e)), st')
              | Ok info =>
                  let result :=
                    Upload {| resume_id := id;
                              filename := file_name;
                              file_size := size;
                              status := "success";
                              extracted_info := info;
                              text_preview := preview 500 text_content;
                              from_cache := false |} in
                  let l := length (heap st) in
                  (JSONResponse (Result result),
                   {| heap := heap st ++ [result];
                      resume_storage := <[id := l]> (resume_storage st);
                      cache_manager :=
                        (CacheManager.set looked_up.2 cache_key l 3600 now_set).2 |})
              end
          end
      end.

(** [analyze_resume(resume_id, job_description, use_ai_matching)] *)
Definition analyze_resume (st : app) (id job_description : string)
    (use_ai_matching : bool) (now_get now_set : Q) : response * app :=
  match resume_storage st !! id with
  | None => (HTTPException 404 (Detail "Resume not found"), st)
  | Some resume_data =>
      let cache_key :=
        "analyze_" +:+ id +:+ "_" +:+ str_int (hash_str job_description)
        +:+ "_" +:+ str_bool use_ai_matching in
      let looked_up := CacheManager.get (cache_manager st) cache_key now_get in
      match looked_up.1 with
      | Some cached_result =>
          let h := alter (set_from_cache true) cached_result (heap st) in
          let st' := {| heap := h;
                        resume_storage := resume_storage st;
                        cache_manager := looked_up.2 |} in
          match h !! cached_result with
          | Some d => (JSONResponse (Result d), st')
          | None => (Dangling, st')
          end
      | None =>
          let st' := {| heap := heap st;
                        resume_storage := resume_storage st;
                        cache_manager := looked_up.2 |} in
          match heap st !! resume_data with
          | None => (Dangling, st')
          | Some (Analysis _) =>
              (HTTPException 500 (AnalysisFailed (KeyError "extracted_info")), st')
          | Some (Upload r) =>
              match ResumeMatcher.match_ (extracted_info r) job_description
                                         use_ai_matching with
              | Raise e => (HTTPException 500 (AnalysisFailed (Raised e)), st')
              | Ok m =>
                  let result :=
                    Analysis {| a_resume_id := id;
                                job_description_preview := preview 200 job_description;
                                a_match_result := m;
                                a_from_cache := false |} in
                  let l := length (heap st) in
                  (JSONResponse (Result result),
                   {| heap := heap st ++ [result];
                      resume_storage := resume_storage st;
                      cache_manager :=
                        (CacheManager.set looked_up.2 cache_key l 1800 now_set).2 |})
              end
          end
      end
  end.

(** [get_resume(resume_id)] *)
Definition get_resume (st : app) (id : string) : response * app :=
  match resume_storage st !! id with
  | Some l =>
      match heap st !! l with
      | Some d => (JSONResponse (Resume id d), st)
      | None => (Dangling, st)
      end
  | None => (HTTPException 404 (Detail "Resume not found"), st)
  end.

(** The requests, each with what it gets from outside. *)
Inductive request : Type :=
| PostUpload (file_name content uuid4 : string) (now_get now_set : Q)
| PostAnalyze (id job_description : string) (use_ai_matching : bool)
              (now_get now_set : Q)
| GetResume (id : string).

Definition handle (st : app) (req : request) : response * app :=
  match req with
  | PostUpload file_name content uuid4 now_get now_set =>
      upload_resume st file_name content uuid4 now_get now_set
  | PostAnalyze id job_description use_ai_matching now_get now_set =>
      analyze_resume st id job_description use_ai_matching now_get now_set
  | GetResume id => get_resume st id
  end.

(** The state after a sequence of requests. *)
Definition serve (st : app) (reqs : list request) : app :=
  foldl (fun st req => (handle st req).2) st reqs.

End Handlers.

End App.

(* ===================================================================== *)
(** * Notions the statements use *)
(* ===================================================================== *)

Import AIExtractor ResumeMatcher PDFParser.

(** ** On matches *)

(** [text_in P r]: whatever [r] matches satisfies [P]. *)
Definition text_in (P : string → Prop) (r : regex) : Prop :=
  ∀ prev s m, m ∈ run r prev s → P (m_text m).

(** [sets_group G r]: every match of [r] sets group 1, to a text in [G]. *)
Fixpoint sets_group (G : string → Prop) (r : regex) : Prop :=
  match r with
  | Grp r' => text_in G r'
  | Seq r1 r2 => (sets_group G r1 ∧ has_group r2 = false) ∨ sets_group G r2
  | Alt r1 r2 => sets_group G r1 ∧ sets_group G r2
  | _ => False
  end.

(** [mentions w r]: the literal text of [r] has [w] in it on every path. *)
Fixpoint mentions (w : string) (r : regex) : bool :=
  match r with
  | Lit l => Py.contains w l
  | Seq r1 r2 => mentions w r1 || mentions w r2
  | Alt r1 r2 => mentions w r1 && mentions w r2
  | Grp r => mentions w r
  | _ => false
  end.

(** [chars_in q r]: [r] takes characters of the class [q] only. *)
Fixpoint chars_in (q : ascii → bool) (r : regex) : Prop :=
  match r with
  | Lit l => Py.sforall q l = true
  | Cls p | Rep p _ _ => ∀ c, p c = true → q c = true
  | Opt r | Grp r => chars_in q r
  | Seq r1 r2 | Alt r1 r2 => chars_in q r1 ∧ chars_in q r2
  | Bnd => True
  end.

(** A non-empty string of decimal digits, which [int] reads as a number
    that is not negative. *)
Definition number (g : string) : Prop :=
  g ≠ EmptyString ∧ Py.sforall Py.is_digit g = true.

(** What [findall] returns for [(19|20)\d{2}]: the group, a century. *)
Definition century (g : string) : Prop := g = "19" ∨ g = "20".

(** ** On the job keywords *)

(** [(\d+)\s*-\s*\d+\s*years], the last pattern of [years_patterns] and of
    [required_patterns]. *)
Definition range_pattern : regex :=
  seq [Grp (plus digit); star space; Lit "-"; star space; plus digit;
       star space; Lit "years"].

(** The tokens of the form [experience_<N>_years], [N] a decimal number. *)
Fixpoint skip_digits (s : string) : string :=
  match s with
  | String c s' => if Py.is_digit c then skip_digits s' else s
  | EmptyString => EmptyString
  end.

Definition is_tenure_token (token : string) : bool :=
  match Py.strip_prefix "experience_" token with
  | Some rest =>
      match rest with
      | String c _ => Py.is_digit c
      | EmptyString => false
      end && bool_decide (skip_digits rest = "_years")
  | None => false
  end.

(** ** On the numbers of a text *)

(** The number of digits a text begins with, and the length of its longest
    run of digits. *)
Fixpoint digit_prefix_len (s : string) : nat :=
  match s with
  | String c s' => if Py.is_digit c then S (digit_prefix_len s') else O
  | EmptyString => O
  end.

Fixpoint longest_digit_run (s : string) : nat :=
  match s with
  | String _ s' => Nat.max (digit_prefix_len s) (longest_digit_run s')
  | EmptyString => O
  end.

(** The digit 1, [n] times. *)
Definition ones (n : N) : string := N.iter n (String "1"%char) EmptyString.

(** ** On floats *)

(** Below 128 a float is within [eps] of the number it stands for. *)
Definition eps : Q := Float.pow2 (-47).

(** The share of the keywords that are matched, as a float. *)
Definition float_ratio (matched total : nat) : Q :=
  match total with
  | O => 0%Q
  | _ => Float.div_int (Z.of_nat matched) (Z.of_nat total)
  end.

(** ** On the skill match *)

(** The share of the keywords that are matched. *)
Definition matched_ratio (matched total : nat) : Q :=
  match total with
  | O => 0%Q
  | _ => (inject_Z (Z.of_nat matched) / inject_Z (Z.of_nat total))%Q
  end.

(** ** On the cache *)

(** The key a call on the cache is about; [clear] is about every key. *)
Definition call_key {V : Type} (op : CacheManager.call V) : option string :=
  match op with
  | CacheManager.CallGet key _ => Some key
  | CacheManager.CallSet key _ _ _ => Some key
  | CacheManager.CallDelete key => Some key
  | CacheManager.CallClear => None
  end.

(** The calls that leave the entry of [key] alone. *)
Definition leaves_alone {V : Type} (key : string) (op : CacheManager.call V) : Prop :=
  ∃ key', call_key op = Some key' ∧ key' ≠ key.

(** ** On the size and the content of matches *)

(** The least and the greatest number of characters a match of [r] takes
    ([None]: no bound). *)
Fixpoint min_len (r : regex) : nat :=
  match r with
  | Lit l => Py.len l
  | Cls _ => 1
  | Rep _ lo _ => lo
  | Opt _ | Bnd => 0
  | Seq r1 r2 => min_len r1 + min_len r2
  | Alt r1 r2 => Nat.min (min_len r1) (min_len r2)
  | Grp r => min_len r
  end.

Fixpoint max_len (r : regex) : option nat :=
  match r with
  | Lit l => Some (Py.len l)
  | Cls _ => Some 1%nat
  | Rep _ _ hi => hi
  | Opt r | Grp r => max_len r
  | Bnd => Some 0%nat
  | Seq r1 r2 =>
      match max_len r1, max_len r2 with
      | Some h1, Some h2 => Some (h1 + h2)%nat
      | _, _ => None
      end
  | Alt r1 r2 =>
      match max_len r1, max_len r2 with
      | Some h1, Some h2 => Some (Nat.max h1 h2)
      | _, _ => None
      end
  end.

(** [takes q r]: every match of [r] takes a character of the class [q]. *)
Fixpoint takes (q : ascii → bool) (r : regex) : Prop :=
  match r with
  | Lit l => Py.sexists q l = true
  | Cls p => ∀ c, p c = true → q c = true
  | Rep p lo _ => (0 < lo)%nat ∧ ∀ c, p c = true → q c = true
  | Seq r1 r2 => takes q r1 ∨ takes q r2
  | Alt r1 r2 => takes q r1 ∧ takes q r2
  | Grp r => takes q r
  | Opt _ | Bnd => False
  end.

(** ** On the contact details *)

(** The characters of a phone number and of an e-mail address. *)
Definition phone_char (c : ascii) : bool :=
  Py.is_digit c || Py.is_space c || one_of "+()-." c.
Definition email_char (c : ascii) : bool :=
  Py.is_alpha c || Py.is_digit c || one_of "._%+-@" c.

(** ** On the parsed text *)

(** The characters [_clean_text] leaves: word characters, the space and the
    punctuation marks [.,;:!?@()-/]. *)
Definition clean_char (c : ascii) : bool :=
  Py.is_word c || bool_decide (c = " "%char) || one_of ".,;:!?@()-/" c.

(** The pages [parse] takes text from. *)
Definition has_text (page_text : option string) : bool :=
  match page_text with
  | Some t => negb (bool_decide (t = EmptyString))
  | None => false
  end.

(** ** On the application *)

(** [d['resume_id']] and [d['from_cache']]. *)
Definition obj_resume_id (d : App.obj) : string :=
  match d with
  | App.Upload r => App.resume_id r
  | App.Analysis r => App.a_resume_id r
  end.

Definition obj_from_cache (d : App.obj) : bool :=
  match d with
  | App.Upload r => App.from_cache r
  | App.Analysis r => App.a_from_cache r
  end.

(** The years of every stored profile are a number [match] can print: not
    negative and of at most 4300 digits. *)
Definition years_fit (st : App.app) : Prop :=
  ∀ l r, App.heap st !! l = Some (App.Upload r) →
         0 ≤ default 0 (years (p_experience (App.extracted_info r)))
           < 10 ^ int_max_str_digits.

(** Every reference is to an object: [resume_storage] refers to upload
    results, the cache to dictionaries, and under the keys of uploads to
    upload results. *)
Definition well_formed (st : App.app) : Prop :=
  (∀ id l, App.resume_storage st !! id = Some l →
           ∃ r, App.heap st !! l = Some (App.Upload r))
  ∧ (∀ key l, CacheManager.memory_cache (App.cache_manager st) !! key = Some l →
              is_Some (App.heap st !! l)
              ∧ (Py.startswith "upload_" key = true →
                 ∃ r, App.heap st !! l = Some (App.Upload r))).

(* ===================================================================== *)
(** * Properties *)
(* ===================================================================== *)

(** ** Strings *)

Section StringFacts.

Implicit Types (p q s t : string) (c : ascii).




End StringFacts.

(** ** Skills (claim C10) *)





(** ** Recommendation tiers (claim C6) *)

Local Open Scope Q_scope.

Lemma Qgeb_true (x y : Q) : Qgeb x y = true ↔ y <= x.
Proof. apply Qle_bool_iff. Qed.

Lemma Qgeb_false (x y : Q) : Qgeb x y = false ↔ x < y.
Proof.
  rewrite <- not_true_iff_false, Qgeb_true. split.
  - apply Qnot_le_lt.
  - apply Qlt_not_le.
Qed.

(** C6. The recommendation is "strongly recommend" exactly from 8.5 up,
    "recommend" exactly on [7.0, 8.5), "consider" exactly on [5.0, 7.0) and
    "not recommended" exactly below 5.0; so 8.5, 7.0, 5.0 and 4.9 fall in the
    four tiers in this order. *)
Theorem C6_recommendation_tiers (s : Q) :
  (_get_recommendation s = strongly_recommend ↔ 85 # 10 <= s)
  ∧ (_get_recommendation s = recommend ↔ 7 <= s ∧ s < 85 # 10)
  ∧ (_get_recommendation s = consider ↔ 5 <= s ∧ s < 7)
  ∧ (_get_recommendation s = not_recommended ↔ s < 5)
  ∧ _get_recommendation (85 # 10) = strongly_recommend
  ∧ _get_recommendation 7 = recommend
  ∧ _get_recommendation 5 = consider
  ∧ _get_recommendation (49 # 10) = not_recommended.
Proof.
  unfold _get_recommendation.
  destruct (Qgeb s (85 # 10)) eqn:E1;
    [apply Qgeb_true in E1 | apply Qgeb_false in E1];
  (destruct (Qgeb s 7) eqn:E2;
    [apply Qgeb_true in E2 | apply Qgeb_false in E2]);
  (destruct (Qgeb s 5) eqn:E3;
    [apply Qgeb_true in E3 | apply Qgeb_false in E3]);
  repeat split; intros; try discriminate; try reflexivity; lra.
Qed.

Local Close Scope Q_scope.

(** ** The in-memory cache (claim C7) *)

Section CacheFacts.

Import CacheManager.

Context {V : Type}.
Implicit Types (c : cache V) (k : string) (v : V) (op : call V).





End CacheFacts.


(** ** The matcher of regular expressions *)

Section EngineFacts.

Implicit Types (r : regex) (prev : option ascii) (s t : string) (m : mres).

(** What [class{lo,hi}] matches is made of characters of the class, at least
    [lo] of them. *)
Lemma rep_run_spec (p : ascii → bool) lo hi s t rest :
  (t, rest) ∈ rep_run p lo hi s →
  Py.sforall p t = true ∧ (lo ≤ Py.len t)%nat.
Proof.
  revert lo hi t rest. induction s as [|c s IH]; intros lo hi t rest; simpl.
  - case_bool_decide; [|by intros ?%elem_of_nil].
    intros [= -> ->]%list_elem_of_singleton. subst lo. split; [done|simpl; lia].
  - intros [H|H]%elem_of_app.
    + destruct (p c) eqn:Hc; simpl in H; [|by apply elem_of_nil in H].
      destruct (negb _); [|by apply elem_of_nil in H].
      apply list_elem_of_fmap in H as ([t' rest'] & [= -> ->] & H).
      apply IH in H as [H1 H2]. simpl. rewrite Hc, H1.
      split; [done|lia].
    + case_bool_decide; [|by apply elem_of_nil in H].
      apply list_elem_of_singleton in H as [= -> ->]. subst lo.
      split; [done|simpl; lia].
Qed.

(** A pattern without a group leaves the group unset. *)
Lemma has_group_false r prev s m :
  has_group r = false → m ∈ run r prev s → m_group m = None.
Proof.
  revert prev s m. induction r as [l|p|p lo hi|r IH|r1 IH1 r2 IH2|r1 IH1 r2 IH2|r IH|];
    intros prev s m Hg; simpl in *.
  - destruct (Py.strip_prefix l s); [|by intros ?%elem_of_nil].
    by intros ->%list_elem_of_singleton.
  - destruct s as [|c s]; [by intros ?%elem_of_nil|].
    destruct (p c); [|by intros ?%elem_of_nil].
    by intros ->%list_elem_of_singleton.
  - by intros (? & -> & _)%list_elem_of_fmap.
  - intros [H|H]%elem_of_app; [by eapply IH|].
    by apply list_elem_of_singleton in H as ->.
  - apply orb_false_iff in Hg as [Hg1 Hg2].
    intros (m1 & H & H1)%list_elem_of_bind.
    apply list_elem_of_fmap in H as (m2 & -> & H2). simpl.
    rewrite (IH2 _ _ _ Hg2 H2). by eapply IH1.
  - apply orb_false_iff in Hg as [Hg1 Hg2].
    intros [H|H]%elem_of_app; [by eapply IH1|by eapply IH2].
  - done.
  - destruct (xorb _ _); [|by intros ?%elem_of_nil].
    by intros ->%list_elem_of_singleton.
Qed.

Lemma sets_group_run G r prev s m :
  sets_group G r → m ∈ run r prev s → ∃ g, m_group m = Some g ∧ G g.
Proof.
  revert prev s m. induction r as [l|p|p lo hi|r IH|r1 IH1 r2 IH2|r1 IH1 r2 IH2|r IH|];
    intros prev s m Hg; simpl in *; try done.
  - intros (m1 & H & H1)%list_elem_of_bind.
    apply list_elem_of_fmap in H as (m2 & -> & H2). simpl.
    destruct Hg as [[Hg1 Hg2]|Hg2].
    + rewrite (has_group_false _ _ _ _ Hg2 H2). by eapply IH1.
    + destruct (IH2 _ _ _ Hg2 H2) as (g & -> & HG). eauto.
  - destruct Hg as [Hg1 Hg2].
    intros [H|H]%elem_of_app; [by eapply IH1|by eapply IH2].
  - intros (m' & -> & H)%list_elem_of_fmap. simpl. eauto.
Qed.

(** Every match [search] and [findall] report is a way of matching at some
    position. *)
Lemma search_from_run r prev s m :
  search_from r prev s = Some m → ∃ prev' s', m ∈ run r prev' s'.
Proof.
  revert prev. induction s as [|c s IH]; intros prev; simpl.
  - destruct (run r prev "") as [|m' l] eqn:E; [done|].
    intros [= ->]. exists prev, "". rewrite E. left.
  - destruct (run r prev (String c s)) as [|m' l] eqn:E; [apply IH|].
    intros [= ->]. exists prev, (String c s). rewrite E. left.
Qed.

Lemma matches_from_run r prev skip s m :
  m ∈ matches_from r prev skip s → ∃ prev' s', m ∈ run r prev' s'.
Proof.
  revert prev skip. induction s as [|c s IH]; intros prev skip; simpl.
  - destruct skip; [|by intros ?%elem_of_nil].
    destruct (run r prev "") as [|m' l] eqn:E; [by intros ?%elem_of_nil|].
    intros ->%list_elem_of_singleton. exists prev, "". rewrite E. left.
  - destruct skip; [|apply IH].
    destruct (run r prev (String c s)) as [|m' l] eqn:E; [apply IH|].
    intros [->|H]%elem_of_cons; [|by eapply IH].
    exists prev, (String c s). rewrite E. left.
Qed.

(** [search] finds nothing exactly when [findall] finds nothing. *)
Lemma matches_from_nil r prev s :
  matches_from r prev 0 s = [] ↔ search_from r prev s = None.
Proof.
  revert prev. induction s as [|c s IH]; intros prev; simpl.
  - by destruct (run r prev "").
  - destruct (run r prev (String c s)); [apply IH|done].
Qed.

Lemma findall_nil r s : findall r s = [] ↔ search r s = None.
Proof.
  unfold findall, search. rewrite <- matches_from_nil.
  by destruct (matches_from r None 0 s).
Qed.

Lemma digits_value_nonneg acc s : 0 ≤ acc → 0 ≤ digits_value acc s.
Proof.
  revert acc. induction s as [|c s IH]; intros acc Hacc; simpl; [done|].
  apply IH. lia.
Qed.

Lemma digits_value_bound acc s :
  Py.sforall Py.is_digit s = true → 0 ≤ acc →
  digits_value acc s < (acc + 1) * 10 ^ Z.of_nat (Py.len s).
Proof.
  unfold Py.len. revert acc. induction s as [|c s IH]; intros acc Hd Hacc.
  - simpl. lia.
  - cbn [Py.sforall] in Hd. apply andb_true_iff in Hd as [Hc Hd].
    cbn [digits_value String.length]. rewrite Nat2Z.inj_succ, Z.pow_succ_r by lia.
    assert (Z.of_N (Py.code c - 48) ≤ 9) as H9.
    { unfold Py.is_digit, Py.in_range in Hc.
      apply andb_true_iff in Hc as [_ Hc%N.leb_le]. lia. }
    specialize (IH (10 * acc + Z.of_N (Py.code c - 48)) Hd ltac:(lia)).
    assert (0 < 10 ^ Z.of_nat (String.length s)) by (apply Z.pow_pos_nonneg; lia).
    nia.
Qed.

(** What [int] returns is the number of a string of at most 4300 digits. *)
Lemma py_int_ok g n :
  py_int g = Ok n →
  number g ∧ Z.of_nat (Py.len g) ≤ int_max_str_digits
  ∧ 0 ≤ n < 10 ^ int_max_str_digits.
Proof.
  unfold py_int. destruct g as [|c g]; [done|].
  destruct (Py.sforall _ _) eqn:Hd; [|done].
  destruct (Z.ltb_spec int_max_str_digits (Z.of_nat (Py.len (String c g))))
    as [|Hlen]; [done|].
  intros [= <-]. split; [done|]. split; [done|]. split.
  - apply digits_value_nonneg. lia.
  - pose proof (digits_value_bound 0 _ Hd ltac:(lia)) as Hb.
    assert (10 ^ Z.of_nat (Py.len (String c g)) ≤ 10 ^ int_max_str_digits)
      by (apply Z.pow_le_mono_r; lia).
    cbn [digits_value] in Hb. lia.
Qed.

Lemma py_int_number g :
  number g → Z.of_nat (Py.len g) ≤ int_max_str_digits → ∃ n, py_int g = Ok n.
Proof.
  intros [Hne Hd] Hlen. unfold py_int. destruct g as [|c g]; [done|].
  rewrite Hd. destruct (Z.ltb_spec int_max_str_digits (Z.of_nat (Py.len (String c g))));
    [lia|by eexists].
Qed.

(** [int] refuses more than 4300 digits. *)
Lemma py_int_long g :
  number g → int_max_str_digits < Z.of_nat (Py.len g) → py_int g = Raise ValueError.
Proof.
  intros [Hne Hd] Hlen. unfold py_int. destruct g as [|c g]; [done|].
  rewrite Hd. by destruct (Z.ltb_spec int_max_str_digits (Z.of_nat (Py.len (String c g))));
    [|lia].
Qed.

Lemma text_in_plus_digit : text_in number (plus digit).
Proof.
  intros prev s m ([t rest] & -> & H)%list_elem_of_fmap.
  apply rep_run_spec in H as [H1 H2]. simpl. split; [|done].
  intros ->. simpl in H2. lia.
Qed.

(** When [int] reads the group of a match of a pattern whose group is
    [(\d+)], the number is not negative and has at most 4300 digits. *)
Lemma int_group_ok r prev s m n :
  sets_group number r → m ∈ run r prev s →
  py_int_group (m_group m) = Ok n → 0 ≤ n < 10 ^ int_max_str_digits.
Proof.
  intros Hr Hm. destruct (sets_group_run _ _ _ _ _ Hr Hm) as (g & -> & Hg).
  by intros (_ & _ & H)%py_int_ok.
Qed.

End EngineFacts.

(** Proves [sets_group number r] for a pattern whose group is [(\d+)]. *)
Ltac digit_group :=
  cbn [sets_group seq number_before];
  repeat first
    [ exact text_in_plus_digit
    | left; split; [exact text_in_plus_digit | reflexivity]
    | right ].

(** ** More on strings: pieces of a text *)

Section Pieces.

Implicit Types (k p s a b : string) (c : ascii).

Lemma append_cons c a b : String c a +:+ b = String c (a +:+ b).
Proof. reflexivity. Qed.

Lemma append_nil_l b : EmptyString +:+ b = b.
Proof. reflexivity. Qed.

Lemma strip_prefix_spec p s r : Py.strip_prefix p s = Some r ↔ s = p +:+ r.
Proof.
  revert s. induction p as [|a p IH]; intros s; simpl.
  - rewrite append_nil_l. split; congruence.
  - rewrite append_cons. destruct s as [|b s]; [split; discriminate|].
    case_bool_decide as Hab.
    + subst b. rewrite IH. split; congruence.
    + split; [discriminate|]. intros [= ? ?]. done.
Qed.

Lemma sforall_app (q : ascii → bool) a b :
  Py.sforall q (a +:+ b) = Py.sforall q a && Py.sforall q b.
Proof.
  induction a as [|c a IH]; [done|].
  rewrite append_cons. simpl. rewrite IH. apply andb_assoc.
Qed.

Lemma smap_app (f : ascii → ascii) a b :
  Py.smap f (a +:+ b) = Py.smap f a +:+ Py.smap f b.
Proof.
  induction a as [|c a IH]; [done|].
  rewrite append_cons. simpl. by rewrite IH, append_cons.
Qed.

Lemma startswith_app_l k a b :
  Py.startswith k a = true → Py.startswith k (a +:+ b) = true.
Proof.
  unfold Py.startswith.
  destruct (Py.strip_prefix k a) as [r|] eqn:E; [|done]. intros _.
  apply strip_prefix_spec in E as ->.
  assert (Py.strip_prefix k ((k +:+ r) +:+ b) = Some (r +:+ b)) as ->; [|done].
  apply strip_prefix_spec. clear. induction k as [|c k IH]; [done|].
  by rewrite !append_cons, IH.
Qed.

Lemma contains_cons k c s :
  Py.contains k s = true → Py.contains k (String c s) = true.
Proof. intros H. simpl. rewrite H. apply orb_true_r. Qed.

(** What a part of a text contains, the text contains. *)
Lemma contains_app_l k a b :
  Py.contains k a = true → Py.contains k (a +:+ b) = true.
Proof.
  induction a as [|c a IH].
  - simpl. rewrite orb_false_r. intros H.
    apply (startswith_app_l _ _ b) in H. rewrite append_nil_l in H.
    destruct b; simpl; by rewrite H.
  - rewrite append_cons. simpl. intros [H|H]%orb_true_iff.
    + apply (startswith_app_l _ _ b) in H. rewrite append_cons in H.
      by rewrite H.
    + rewrite (IH H). apply orb_true_r.
Qed.

Lemma contains_app_r k a b :
  Py.contains k b = true → Py.contains k (a +:+ b) = true.
Proof.
  intros H. induction a as [|c a IH]; [done|].
  rewrite append_cons. by apply contains_cons.
Qed.

(** The first piece [split_on] cuts is the start of the text. *)
Lemma split_on_head (q : ascii → bool) s :
  ∃ h (pieces : list string) rest, Py.split_on q s = h :: pieces ∧ s = h +:+ rest.
Proof.
  induction s as [|c s (h & t & rest & IH & Hs)]; simpl.
  - by exists "", [], "".
  - destruct (q c).
    + by exists "", (Py.split_on q s), (String c s).
    + rewrite IH. exists (String c h), t, rest. by rewrite append_cons, <- Hs.
Qed.

(** What a piece cut by [split_on] contains, after a change of case, the text
    contains. *)
Lemma split_on_contains (q : ascii → bool) (f : ascii → ascii) k s piece :
  piece ∈ Py.split_on q s →
  Py.contains k (Py.smap f piece) = true →
  Py.contains k (Py.smap f s) = true.
Proof.
  revert piece. induction s as [|c s IH]; intros piece; cbn [Py.split_on].
  - by intros ->%list_elem_of_singleton.
  - change (Py.smap f (String c s)) with (String (f c) (Py.smap f s)).
    destruct (q c).
    + intros [->|H]%elem_of_cons Hk.
      * simpl in Hk. rewrite orb_false_r in Hk.
        apply (startswith_app_l _ _ (String (f c) (Py.smap f s))) in Hk.
        rewrite append_nil_l in Hk. simpl. by rewrite Hk.
      * apply contains_cons. by eapply IH.
    + destruct (split_on_head q s) as (h & t & rest & Hsplit & Hs).
      rewrite Hsplit in IH |- *.
      intros [->|H]%elem_of_cons Hk.
      * rewrite Hs. change (Py.smap f (String c h))
          with (String (f c) (Py.smap f h)) in Hk.
        rewrite smap_app, <- append_cons. by apply contains_app_l.
      * apply contains_cons. eapply IH; [|done]. by right.
Qed.

Lemma any_in_false ks s k :
  Py.any_in ks s = false → k ∈ ks → Py.contains k s = false.
Proof.
  unfold Py.any_in. intros H Hk.
  apply not_true_iff_false. intros Hc.
  apply not_true_iff_false in H. apply H, existsb_exists.
  exists k. split; [by apply list_elem_of_In|done].
Qed.

(** No keyword in the text, no keyword in a piece of it. *)
Lemma any_in_piece (q : ascii → bool) ks s piece :
  Py.any_in ks (Py.lower s) = false →
  piece ∈ Py.split_on q s →
  Py.any_in ks (Py.lower piece) = false.
Proof.
  intros H Hp. apply not_true_iff_false.
  intros (k & Hk & Hc)%existsb_exists.
  apply list_elem_of_In in Hk.
  apply (split_on_contains _ _ _ _ _ Hp) in Hc.
  unfold Py.lower in H. by rewrite (any_in_false _ _ _ H Hk) in Hc.
Qed.

Lemma find_all_false {A} (f : A → bool) (l : list A) :
  Forall (λ x, f x = false) l → find f l = None.
Proof. induction 1 as [|x l Hx _ IH]; simpl; [done|]. by rewrite Hx. Qed.

End Pieces.

(** ** More on the matcher: what a match is made of *)

Section MatchTexts.

Implicit Types (r : regex) (prev : option ascii) (s w : string) (m : mres).

Lemma append_assoc (a b c : string) : (a +:+ b) +:+ c = a +:+ (b +:+ c).
Proof. induction a as [|x a IH]; [done|]. by rewrite !append_cons, IH. Qed.

Lemma append_nil_r (a : string) : a +:+ EmptyString = a.
Proof. induction a as [|x a IH]; [done|]. by rewrite append_cons, IH. Qed.

Lemma rep_run_prefix (p : ascii → bool) lo hi s t rest :
  (t, rest) ∈ rep_run p lo hi s → s = t +:+ rest.
Proof.
  revert lo hi t rest. induction s as [|c s IH]; intros lo hi t rest; simpl.
  - case_bool_decide; [|by intros ?%elem_of_nil].
    by intros [= -> ->]%list_elem_of_singleton.
  - intros [H|H]%elem_of_app.
    + destruct (p c && _); [|by apply elem_of_nil in H].
      apply list_elem_of_fmap in H as ([t' rest'] & [= -> ->] & H).
      apply IH in H. simpl in *. by rewrite append_cons, <- H.
    + case_bool_decide; [|by apply elem_of_nil in H].
      by apply list_elem_of_singleton in H as [= -> ->].
Qed.

(** A match takes a prefix of the input and leaves the rest. *)
Lemma run_prefix r prev s m : m ∈ run r prev s → s = m_text m +:+ m_rest m.
Proof.
  revert prev s m. induction r as [l|p|p lo hi|r IH|r1 IH1 r2 IH2|r1 IH1 r2 IH2|r IH|];
    intros prev s m; cbn [run].
  - destruct (Py.strip_prefix l s) as [s'|] eqn:E; [|by intros ?%elem_of_nil].
    intros ->%list_elem_of_singleton. by apply strip_prefix_spec.
  - destruct s as [|c s]; [by intros ?%elem_of_nil|].
    destruct (p c); [|by intros ?%elem_of_nil].
    by intros ->%list_elem_of_singleton.
  - intros ([t rest] & -> & H)%list_elem_of_fmap. by apply rep_run_prefix in H.
  - intros [H|H]%elem_of_app; [by eapply IH|].
    by apply list_elem_of_singleton in H as ->.
  - intros (m1 & H & H1)%list_elem_of_bind.
    apply list_elem_of_fmap in H as (m2 & -> & H2). cbn [m_text m_rest].
    apply IH1 in H1. apply IH2 in H2. by rewrite append_assoc, <- H2.
  - intros [H|H]%elem_of_app; [by eapply IH1|by eapply IH2].
  - intros (m' & -> & H)%list_elem_of_fmap. cbn [m_text m_rest]. by eapply IH.
  - destruct (xorb _ _); [|by intros ?%elem_of_nil].
    by intros ->%list_elem_of_singleton.
Qed.

(** What the text of a match contains, the searched text contains. *)
Lemma search_from_contains r prev s m w :
  search_from r prev s = Some m →
  Py.contains w (m_text m) = true → Py.contains w s = true.
Proof.
  revert prev. induction s as [|c s IH]; intros prev; cbn [search_from].
  - destruct (run r prev "") as [|m' l] eqn:E; [done|].
    intros [= ->] Hw. rewrite (run_prefix r prev "" m); [|rewrite E; left].
    by apply contains_app_l.
  - destruct (run r prev (String c s)) as [|m' l] eqn:E.
    + intros H Hw. apply contains_cons. by eapply IH.
    + intros [= ->] Hw. rewrite (run_prefix r prev (String c s) m); [|rewrite E; left].
      by apply contains_app_l.
Qed.

Lemma mentions_run w r prev s m :
  mentions w r = true → m ∈ run r prev s → Py.contains w (m_text m) = true.
Proof.
  revert prev s m. induction r as [l|p|p lo hi|r IH|r1 IH1 r2 IH2|r1 IH1 r2 IH2|r IH|];
    intros prev s m Hw; cbn [run mentions] in *; try done.
  - destruct (Py.strip_prefix l s); [|by intros ?%elem_of_nil].
    by intros ->%list_elem_of_singleton.
  - intros (m1 & H & H1)%list_elem_of_bind.
    apply list_elem_of_fmap in H as (m2 & -> & H2). cbn [m_text].
    apply orb_true_iff in Hw as [Hw|Hw].
    + apply contains_app_l. by eapply IH1.
    + apply contains_app_r. by eapply IH2.
  - apply andb_true_iff in Hw as [Hw1 Hw2].
    intros [H|H]%elem_of_app; [by eapply IH1|by eapply IH2].
  - intros (m' & -> & H)%list_elem_of_fmap. cbn [m_text m_rest]. by eapply IH.
Qed.

(** A pattern that mentions a word finds nothing in a text without it. *)
Lemma search_none_of_mentions w r s :
  mentions w r = true → Py.contains w s = false → search r s = None.
Proof.
  intros Hr Hs. destruct (search r s) as [m|] eqn:E; [|done].
  pose proof E as (prev & s' & Hm)%search_from_run.
  apply (search_from_contains _ _ _ _ w) in E; [congruence|].
  by eapply mentions_run.
Qed.

Lemma sforall_impl (p q : ascii → bool) s :
  (∀ c, p c = true → q c = true) → Py.sforall p s = true → Py.sforall q s = true.
Proof.
  intros Hpq. induction s as [|c s IH]; simpl; [done|].
  intros [Hc Hs]%andb_true_iff. by rewrite (Hpq _ Hc), IH.
Qed.

Lemma chars_in_run q r prev s m :
  chars_in q r → m ∈ run r prev s → Py.sforall q (m_text m) = true.
Proof.
  revert prev s m. induction r as [l|p|p lo hi|r IH|r1 IH1 r2 IH2|r1 IH1 r2 IH2|r IH|];
    intros prev s m Hq; cbn [run chars_in] in *.
  - destruct (Py.strip_prefix l s); [|by intros ?%elem_of_nil].
    by intros ->%list_elem_of_singleton.
  - destruct s as [|c s]; [by intros ?%elem_of_nil|].
    destruct (p c) eqn:Hc; [|by intros ?%elem_of_nil].
    intros ->%list_elem_of_singleton. simpl. by rewrite (Hq _ Hc).
  - intros ([t rest] & -> & H)%list_elem_of_fmap.
    apply rep_run_spec in H as [H _]. by eapply sforall_impl.
  - intros [H|H]%elem_of_app; [by eapply IH|].
    by apply list_elem_of_singleton in H as ->.
  - destruct Hq as [Hq1 Hq2]. intros (m1 & H & H1)%list_elem_of_bind.
    apply list_elem_of_fmap in H as (m2 & -> & H2). cbn [m_text].
    by rewrite sforall_app, (IH1 _ _ _ Hq1 H1), (IH2 _ _ _ Hq2 H2).
  - destruct Hq as [Hq1 Hq2].
    intros [H|H]%elem_of_app; [by eapply IH1|by eapply IH2].
  - intros (m' & -> & H)%list_elem_of_fmap. cbn [m_text m_rest]. by eapply IH.
  - destruct (xorb _ _); [|by intros ?%elem_of_nil].
    by intros ->%list_elem_of_singleton.
Qed.

(** What [findall] returns for a pattern without a group is made of the
    characters the pattern takes. *)
Lemma findall_chars q r s w :
  has_group r = false → chars_in q r → w ∈ findall r s → Py.sforall q w = true.
Proof.
  unfold findall. intros -> Hq (m & -> & Hm)%list_elem_of_fmap.
  apply matches_from_run in Hm as (prev & s' & Hm). by eapply chars_in_run.
Qed.

End MatchTexts.

(** ** The numbers of a text *)

Section Numbers.

Implicit Types (r : regex) (prev : option ascii) (s g : string) (m : mres).

(** What [search] finds is a part of the text. *)
Lemma search_from_part r prev s m :
  search_from r prev s = Some m → ∃ a b, s = a +:+ m_text m +:+ b.
Proof.
  revert prev. induction s as [|c s IH]; intros prev; cbn [search_from].
  - destruct (run r prev "") as [|m' l] eqn:E; [done|].
    intros [= ->]. exists "", (m_rest m). apply (run_prefix r prev).
    rewrite E. left.
  - destruct (run r prev (String c s)) as [|m' l] eqn:E.
    + intros (a & b & ->)%IH. by exists (String c a), b.
    + intros [= ->]. exists "", (m_rest m). apply (run_prefix r prev).
      rewrite E. left.
Qed.

(** The group of a match is a part of its text. *)
Lemma group_part r prev s m g :
  m ∈ run r prev s → m_group m = Some g → ∃ a b, m_text m = a +:+ g +:+ b.
Proof.
  revert prev s m g.
  induction r as [l|p|p lo hi|r IH|r1 IH1 r2 IH2|r1 IH1 r2 IH2|r IH|];
    intros prev s m g; cbn [run].
  - destruct (Py.strip_prefix l s); [|by intros ?%elem_of_nil].
    by intros ->%list_elem_of_singleton.
  - destruct s as [|c s]; [by intros ?%elem_of_nil|].
    destruct (p c); [|by intros ?%elem_of_nil].
    by intros ->%list_elem_of_singleton.
  - by intros ([t rest] & -> & H)%list_elem_of_fmap.
  - intros [H|H]%elem_of_app; [by eapply IH|].
    by apply list_elem_of_singleton in H as ->.
  - intros (m1 & H & H1)%list_elem_of_bind.
    apply list_elem_of_fmap in H as (m2 & -> & H2). cbn [m_text m_group].
    destruct (m_group m2) as [g2|] eqn:E2.
    + intros [= <-]. destruct (IH2 _ _ _ _ H2 E2) as (a & b & ->).
      exists (m_text m1 +:+ a), b. by rewrite append_assoc.
    + intros E1. destruct (IH1 _ _ _ _ H1 E1) as (a & b & ->).
      exists a, (b +:+ m_text m2). by rewrite !append_assoc.
  - intros [H|H]%elem_of_app; [by eapply IH1|by eapply IH2].
  - intros (m' & -> & H)%list_elem_of_fmap. cbn [m_text m_group].
    intros [= <-]. exists "", "". by rewrite append_nil_l, append_nil_r.
  - destruct (xorb _ _); [|by intros ?%elem_of_nil].
    by intros ->%list_elem_of_singleton.
Qed.

Lemma lower_char_is_digit (c : ascii) :
  Py.is_digit (Py.lower_char c) = Py.is_digit c.
Proof. destruct c as [[] [] [] [] [] [] [] []]; by vm_compute. Qed.

Lemma digit_prefix_len_app g (b : string) :
  Py.sforall Py.is_digit g = true → (Py.len g ≤ digit_prefix_len (g +:+ b))%nat.
Proof.
  unfold Py.len. induction g as [|c g IH]; [simpl; lia|].
  cbn [Py.sforall]. intros [Hc Hg]%andb_true_iff.
  rewrite append_cons. cbn [digit_prefix_len String.length]. rewrite Hc.
  specialize (IH Hg). lia.
Qed.

Lemma digit_prefix_run s : (digit_prefix_len s ≤ longest_digit_run s)%nat.
Proof. destruct s; [simpl; lia|cbn [longest_digit_run]; lia]. Qed.

Lemma longest_digit_run_app (a t : string) :
  (longest_digit_run t ≤ longest_digit_run (a +:+ t))%nat.
Proof.
  induction a as [|c a IH]; [by rewrite append_nil_l|].
  rewrite append_cons. cbn [longest_digit_run]. lia.
Qed.

(** A run of digits in a text is at most as long as its longest one. *)
Lemma digit_run_part (a g b : string) :
  Py.sforall Py.is_digit g = true →
  (Py.len g ≤ longest_digit_run (a +:+ g +:+ b))%nat.
Proof.
  intros Hg. pose proof (digit_prefix_len_app g b Hg).
  pose proof (digit_prefix_run (g +:+ b)).
  pose proof (longest_digit_run_app a (g +:+ b)). lia.
Qed.

Lemma longest_digit_run_lower s :
  longest_digit_run (Py.lower s) = longest_digit_run s.
Proof.
  assert (∀ t, digit_prefix_len (Py.lower t) = digit_prefix_len t) as Hp.
  { unfold Py.lower. induction t as [|c t IH]; [done|].
    cbn [Py.smap digit_prefix_len]. by rewrite lower_char_is_digit, IH. }
  induction s as [|c s IH]; [done|].
  change (Py.lower (String c s)) with (String (Py.lower_char c) (Py.lower s)).
  cbn [longest_digit_run]. fold (Py.lower (String c s)).
  change (String (Py.lower_char c) (Py.lower s)) with (Py.lower (String c s)).
  by rewrite Hp, IH.
Qed.

(** [int] reads the group of what a pattern with the group [(\d+)] finds in a
    text without a run of more than 4300 digits. *)
Lemma int_group_search r s m :
  sets_group number r → search r s = Some m →
  Z.of_nat (longest_digit_run s) ≤ int_max_str_digits →
  ∃ n, py_int_group (m_group m) = Ok n.
Proof.
  intros Hr Hs Hlen.
  pose proof Hs as (prev & s' & Hm)%search_from_run.
  destruct (sets_group_run _ _ _ _ _ Hr Hm) as (g & Hg & Hnum).
  destruct (group_part _ _ _ _ _ Hm Hg) as (a & b & Ht).
  apply search_from_part in Hs as (a' & b' & ->).
  rewrite Hg. apply py_int_number; [done|].
  pose proof (digit_run_part (a' +:+ a) g (b +:+ b') (proj2 Hnum)) as H.
  rewrite Ht in Hlen.
  replace (a' +:+ (a +:+ g +:+ b) +:+ b') with ((a' +:+ a) +:+ g +:+ b +:+ b') in Hlen
    by (by rewrite !append_assoc).
  lia.
Qed.

End Numbers.

(** ** Where the calls of [int] and the formatting of numbers raise *)

Section IntCalls.

Lemma years_patterns_groups : Forall (sets_group number) years_patterns.
Proof. repeat (apply List.Forall_cons; [digit_group|]). apply List.Forall_nil. Qed.

Lemma required_patterns_groups : Forall (sets_group number) required_patterns.
Proof. repeat (apply List.Forall_cons; [digit_group|]). apply List.Forall_nil. Qed.

Lemma explicit_years_ok (patterns : list regex) (text : string) g n :
  Forall (sets_group number) patterns →
  explicit_years patterns text = Some g →
  py_int_group g = Ok n → 0 ≤ n < 10 ^ int_max_str_digits.
Proof.
  induction 1 as [|pattern patterns Hp _ IH]; simpl; [done|].
  destruct (search pattern text) as [m|] eqn:E; [|done].
  intros [= <-]. apply search_from_run in E as (prev & s & Hm).
  by eapply int_group_ok.
Qed.

Lemma explicit_years_total (patterns : list regex) (text : string) g :
  Forall (sets_group number) patterns →
  explicit_years patterns text = Some g →
  Z.of_nat (longest_digit_run text) ≤ int_max_str_digits →
  ∃ n, py_int_group g = Ok n.
Proof.
  induction 1 as [|pattern patterns Hp _ IH]; simpl; [done|].
  destruct (search pattern text) as [m|] eqn:E; [|done].
  intros [= <-] Hlen. by eapply int_group_search.
Qed.

Lemma matcher_years_from_level_small (t : string) :
  0 ≤ ResumeMatcher.years_from_level t ≤ 5.
Proof. unfold ResumeMatcher.years_from_level. repeat case_match; lia. Qed.

Lemma small_fits (n : Z) : 0 ≤ n ≤ 5 → 0 ≤ n < 10 ^ int_max_str_digits.
Proof.
  intros H. assert (10 ^ 1 ≤ 10 ^ int_max_str_digits)
    by (apply Z.pow_le_mono_r; unfold int_max_str_digits; lia).
  lia.
Qed.

(** What [_extract_years_required] returns is not negative and has at most
    4300 digits. *)
Lemma extract_years_required_ok (job_description : string) (r : Z) :
  _extract_years_required job_description = Ok r →
  0 ≤ r < 10 ^ int_max_str_digits.
Proof.
  unfold _extract_years_required.
  destruct (explicit_years _ _) as [g|] eqn:E.
  - by eapply explicit_years_ok; [apply required_patterns_groups|].
  - intros [= <-]. apply small_fits, matcher_years_from_level_small.
Qed.

(** [_extract_years_required] returns for a job description without a run of
    more than 4300 digits. *)
Lemma extract_years_required_total (job_description : string) :
  Z.of_nat (longest_digit_run job_description) ≤ int_max_str_digits →
  ∃ r, _extract_years_required job_description = Ok r.
Proof.
  intros Hlen. unfold _extract_years_required.
  destruct (explicit_years _ _) as [g|] eqn:E.
  - eapply explicit_years_total; [apply required_patterns_groups|done|].
    by rewrite longest_digit_run_lower.
  - by eexists.
Qed.

Lemma format_int_Ok (n : Z) :
  format_int n = Ok tt ↔ Z.abs n < 10 ^ int_max_str_digits.
Proof.
  unfold format_int.
  destruct (Z.ltb_spec (Z.abs n) (10 ^ int_max_str_digits)); split; (done || lia).
Qed.

(** What [_calculate_experience_match] returns. *)
Lemma calculate_experience_match_ok (e : experience) (job_description : string)
    (em : experience_match) :
  _calculate_experience_match e job_description = Ok em →
  ∃ r, _extract_years_required job_description = Ok r
    ∧ 0 ≤ r < 10 ^ int_max_str_digits
    ∧ Z.abs (default 0 (years e)) < 10 ^ int_max_str_digits
    ∧ em = {| years_required := r;
              years_actual := default 0 (years e);
              em_score := py_round1 (raw_experience_score r (default 0 (years e)));
              match_level := _get_experience_level (default 0 (years e)) |}.
Proof.
  unfold _calculate_experience_match.
  destruct (_extract_years_required job_description) as [r|] eqn:Hr; [|done].
  pose proof (extract_years_required_ok _ _ Hr) as Hpos.
  cbn [mbind result_bind].
  destruct (format_int r) as [[]|] eqn:Hf1; [|done]. cbn [mbind result_bind].
  destruct (format_int (default 0 (years e))) as [[]|] eqn:Hf2; [|done].
  apply format_int_Ok in Hf2.
  intros [= <-]. by exists r.
Qed.

(** [_calculate_experience_match] returns for a job description without a run
    of more than 4300 digits and a number of years of at most 4300 digits. *)
Lemma calculate_experience_match_total (e : experience) (job_description : string) :
  Z.of_nat (longest_digit_run job_description) ≤ int_max_str_digits →
  Z.abs (default 0 (years e)) < 10 ^ int_max_str_digits →
  ∃ em, _calculate_experience_match e job_description = Ok em.
Proof.
  intros Hlen Hyears.
  destruct (extract_years_required_total _ Hlen) as [r Hr].
  pose proof (extract_years_required_ok _ _ Hr) as Hpos.
  unfold _calculate_experience_match. rewrite Hr. cbn [mbind result_bind].
  rewrite (proj2 (format_int_Ok r)) by lia. cbn [mbind result_bind].
  rewrite (proj2 (format_int_Ok _) Hyears). by eexists.
Qed.

Lemma match_ok (resume_info : profile) (job_description : string) (use_ai : bool)
    (r : match_result) :
  match_ resume_info job_description use_ai = Ok r →
  ∃ em, _calculate_experience_match (p_experience resume_info) job_description = Ok em
    ∧ let keywords := _extract_job_keywords job_description in
      let sm := _calculate_skill_match (p_skills resume_info) keywords in
      let similarity :=
        if use_ai
        then _calculate_text_similarity (p_summary resume_info)
                                        (Py.take 500 job_description)
        else default_similarity in
      let overall := _calculate_overall_score sm em similarity in
      r = {| overall_score := py_round1 overall;
             mr_skill_match := sm;
             mr_experience_match := em;
             text_similarity := py_round1 similarity;
             job_keywords := take 20 keywords;
             feedback := _generate_feedback overall sm em (p_skills resume_info);
             recommendation := _get_recommendation overall |}.
Proof.
  unfold match_.
  destruct (_calculate_experience_match _ _) as [em|]; [|done].
  intros [= <-]. by exists em.
Qed.

(** [match] returns for a job description without a run of more than 4300
    digits and a number of years of at most 4300 digits. *)
Lemma match_total (resume_info : profile) (job_description : string) (use_ai : bool) :
  Z.of_nat (longest_digit_run job_description) ≤ int_max_str_digits →
  Z.abs (default 0 (years (p_experience resume_info))) < 10 ^ int_max_str_digits →
  ∃ r, match_ resume_info job_description use_ai = Ok r.
Proof.
  intros Hlen Hyears.
  destruct (calculate_experience_match_total _ _ Hlen Hyears) as [em Hem].
  unfold match_. rewrite Hem. by eexists.
Qed.

(** The only exception [int] raises on a group of digits, and the only one
    the formatting of a number raises, is [ValueError]. *)
Lemma int_group_raises r prev s m (e : exn) :
  sets_group number r → m ∈ run r prev s →
  py_int_group (m_group m) = Raise e → e = ValueError.
Proof.
  intros Hr Hm. destruct (sets_group_run _ _ _ _ _ Hr Hm) as (g & -> & Hg).
  cbn [py_int_group]. unfold py_int. destruct g; [by intros [= <-]|].
  repeat case_match; by intros [= <-].
Qed.

Lemma format_int_raises (n : Z) (e : exn) : format_int n = Raise e → e = ValueError.
Proof. unfold format_int. case_match; by intros [= <-]. Qed.

Lemma extract_years_required_raises (job_description : string) (e : exn) :
  _extract_years_required job_description = Raise e → e = ValueError.
Proof.
  unfold _extract_years_required.
  destruct (explicit_years _ _) as [g|] eqn:E; [|done].
  revert E. generalize (Py.lower job_description). intros text.
  pose proof required_patterns_groups as Hp. revert Hp.
  generalize required_patterns. intros patterns.
  induction 1 as [|pattern patterns Hp _ IH]; simpl; [done|].
  destruct (search pattern text) as [m|] eqn:Em; [|done].
  intros [= <-]. apply search_from_run in Em as (prev & s & Hm).
  by eapply int_group_raises.
Qed.

Lemma calculate_experience_match_raises (e : experience) (job_description : string)
    (x : exn) :
  _calculate_experience_match e job_description = Raise x → x = ValueError.
Proof.
  unfold _calculate_experience_match.
  destruct (_extract_years_required job_description) as [r|x'] eqn:Hr.
  - cbn [mbind result_bind].
    destruct (format_int r) as [[]|x'] eqn:Hf1.
    + cbn [mbind result_bind].
      destruct (format_int (default 0 (years e))) as [[]|x''] eqn:Hf2; [done|].
      intros [= <-]. by eapply format_int_raises.
    + intros [= <-]. by eapply format_int_raises.
  - intros [= <-]. by eapply extract_years_required_raises.
Qed.

(** The only exception [match] raises is [ValueError]. *)
Lemma match_raises (resume_info : profile) (job_description : string) (use_ai : bool)
    (x : exn) :
  match_ resume_info job_description use_ai = Raise x → x = ValueError.
Proof.
  unfold match_.
  destruct (_calculate_experience_match _ _) as [em|x'] eqn:E; [done|].
  intros [= <-]. by eapply calculate_experience_match_raises.
Qed.

Lemma run_Lit_text (l : string) prev s m : m ∈ run (Lit l) prev s → m_text m = l.
Proof.
  cbn [run]. destruct (Py.strip_prefix l s); [|by intros ?%elem_of_nil].
  by intros ->%list_elem_of_singleton.
Qed.

Lemma run_Alt r1 r2 prev s m :
  m ∈ run (Alt r1 r2) prev s ↔ m ∈ run r1 prev s ∨ m ∈ run r2 prev s.
Proof. apply elem_of_app. Qed.

Lemma date_pattern_group : sets_group century date_pattern.
Proof.
  left. split; [|done]. intros prev s m [H|H]%run_Alt;
    apply run_Lit_text in H; [by left|by right].
Qed.

Lemma findall_date_pattern (text : string) :
  Forall century (findall date_pattern text).
Proof.
  apply Forall_forall. intros g (m & -> & Hm)%list_elem_of_fmap.
  apply matches_from_run in Hm as (prev & s & Hm).
  destruct (sets_group_run _ _ _ _ _ date_pattern_group Hm) as (g & -> & Hg).
  done.
Qed.

(** No century is a year between 1901 and 2024: the comprehension is empty. *)
Lemma years_int_century (found : list string) :
  Forall century found → years_int found = Ok [].
Proof.
  unfold years_int. intros H.
  assert (∃ ys, mapM py_int found = Ok ys ∧ Forall (λ y, y = 19 ∨ y = 20) ys)
    as (ys & -> & Hys).
  { induction H as [|g found Hg _ (ys & IH & Hys)].
    - exists []. split; [reflexivity|constructor].
    - destruct Hg as [-> | ->]; cbn [mapM]; rewrite IH; eexists;
        (split; [reflexivity|]); constructor; auto. }
  simpl. f_equal. unfold mret, result_ret. f_equal.
  induction Hys as [|y ys Hy _ IH]; [done|].
  rewrite filter_cons. destruct Hy as [-> | ->]; (case_decide as Hd; [apply bool_decide_unpack in Hd; lia|done]).
Qed.

(** The year span is never used: [_estimate_experience_years] always goes on
    to the scan for a number before a keyword. *)
Lemma estimate_skips_year_span (text : string) :
  _estimate_experience_years text = years_from_keywords experience_keywords text.
Proof.
  unfold _estimate_experience_years.
  rewrite (years_int_century _ (findall_date_pattern text)).
  by destruct (2 <=? _)%nat.
Qed.

Lemma extractor_years_from_level_small (t : string) :
  0 ≤ AIExtractor.years_from_level t ≤ 5.
Proof. unfold AIExtractor.years_from_level. repeat case_match; lia. Qed.

Lemma number_before_group (keyword : string) :
  sets_group number (number_before keyword).
Proof. digit_group. Qed.

Lemma years_from_keywords_ok (keywords : list string) (text : string) (y : Z) :
  years_from_keywords keywords text = Ok y → 0 ≤ y < 10 ^ int_max_str_digits.
Proof.
  induction keywords as [|keyword keywords IH]; cbn [years_from_keywords].
  - intros [= <-]. apply small_fits, extractor_years_from_level_small.
  - destruct (search _ _) as [m|] eqn:E; [|done].
    apply search_from_run in E as (prev & s & Hm).
    eapply int_group_ok; [apply (number_before_group keyword)|done].
Qed.

Lemma years_from_keywords_total (keywords : list string) (text : string) :
  Z.of_nat (longest_digit_run text) ≤ int_max_str_digits →
  ∃ y, years_from_keywords keywords text = Ok y.
Proof.
  intros Hlen. induction keywords as [|keyword keywords IH];
    cbn [years_from_keywords]; [by eexists|].
  destruct (search _ _) as [m|] eqn:E; [|done].
  eapply int_group_search; [apply (number_before_group keyword)|done|].
  by rewrite longest_digit_run_lower.
Qed.

(** What [_estimate_experience_years] returns is not negative and has at most
    4300 digits. *)
Lemma estimate_experience_years_ok (text : string) (y : Z) :
  _estimate_experience_years text = Ok y → 0 ≤ y < 10 ^ int_max_str_digits.
Proof. rewrite estimate_skips_year_span. apply years_from_keywords_ok. Qed.

(** [_estimate_experience_years] returns for a text without a run of more
    than 4300 digits. *)
Lemma estimate_experience_years_total (text : string) :
  Z.of_nat (longest_digit_run text) ≤ int_max_str_digits →
  ∃ y, _estimate_experience_years text = Ok y.
Proof. rewrite estimate_skips_year_span. apply years_from_keywords_total. Qed.

(** What [extract_info] returns. *)
Lemma extract_info_ok (text : string) (p : profile) :
  extract_info text = Ok p →
  ∃ y, _estimate_experience_years text = Ok y
    ∧ 0 ≤ y < 10 ^ int_max_str_digits
    ∧ p = {| p_basic_info := _extract_basic_info text;
             p_skills := _extract_skills text;
             p_experience :=
               {| years := Some y;
                  companies :=
                    take 5 (Py.list_set (scan_sections (Py.split_lines text)).2);
                  roles :=
                    take 5 (Py.list_set (scan_sections (Py.split_lines text)).1) |};
             p_education := _extract_education text;
             p_summary := _generate_summary text |}.
Proof.
  unfold extract_info, _extract_experience.
  destruct (_estimate_experience_years text) as [y|] eqn:Hy; [|done].
  intros [= <-]. exists y. split; [done|].
  split; [by apply (estimate_experience_years_ok text)|done].
Qed.

(** [extract_info] returns for a text without a run of more than 4300 digits,
    with a number of years that is not negative. *)
Lemma extract_info_total (text : string) :
  Z.of_nat (longest_digit_run text) ≤ int_max_str_digits →
  ∃ y, _estimate_experience_years text = Ok y ∧ 0 ≤ y
       ∧ extract_info text
         = Ok {| p_basic_info := _extract_basic_info text;
                 p_skills := _extract_skills text;
                 p_experience :=
                   {| years := Some y;
                      companies :=
                        take 5 (Py.list_set (scan_sections (Py.split_lines text)).2);
                      roles :=
                        take 5 (Py.list_set (scan_sections (Py.split_lines text)).1) |};
                 p_education := _extract_education text;
                 p_summary := _generate_summary text |}.
Proof.
  intros Hlen.
  destruct (estimate_experience_years_total text Hlen) as (y & Hy).
  pose proof (estimate_experience_years_ok _ _ Hy) as Hpos.
  exists y. split; [done|]. split; [lia|].
  unfold extract_info, _extract_experience. by rewrite Hy.
Qed.

End IntCalls.

(** ** Rounding to one decimal, and floats *)

Section Rounding.

Local Open Scope Q_scope.


Lemma round_half_even_near (x : Q) :
  x - (1 # 2) <= inject_Z (round_half_even x)
  ∧ inject_Z (round_half_even x) <= x + (1 # 2).
Proof.
  unfold round_half_even.
  pose proof (Qfloor_le x) as Hlo. pose proof (Qlt_floor x) as Hhi.
  rewrite inject_Z_plus in Hhi. change (inject_Z 1) with 1 in Hhi.
  destruct (Qcompare (x - inject_Z (Qfloor x)) (1 # 2)) eqn:E.
  - apply Qeq_alt in E. destruct (Z.even (Qfloor x));
      rewrite ?inject_Z_plus; change (inject_Z 1) with 1; split; lra.
  - apply Qlt_alt in E. split; lra.
  - apply Qgt_alt in E. rewrite inject_Z_plus. change (inject_Z 1) with 1.
    split; lra.
Qed.

Lemma round_half_even_ge (x : Q) (k : Z) :
  inject_Z k <= x → (k ≤ round_half_even x)%Z.
Proof.
  intros H. apply Qfloor_resp_le in H. rewrite Qfloor_Z in H.
  unfold round_half_even. repeat case_match; lia.
Qed.

Lemma round_half_even_le (x : Q) (k : Z) :
  x <= inject_Z k → (round_half_even x ≤ k)%Z.
Proof.
  intros H. destruct (round_half_even_near x) as [_ Hr].
  destruct (Z.le_gt_cases (round_half_even x) k) as [|Hgt]; [done|].
  assert (k + 1 ≤ round_half_even x)%Z as Hk by lia.
  rewrite Zle_Qle in Hk. rewrite inject_Z_plus in Hk.
  change (inject_Z 1) with 1 in Hk. lra.
Qed.

Lemma round_half_even_comp (x y : Q) :
  x == y → round_half_even x = round_half_even y.
Proof.
  intros H. unfold round_half_even.
  rewrite (Qfloor_comp _ _ H).
  assert (x - inject_Z (Qfloor y) == y - inject_Z (Qfloor y)) as H' by (by rewrite H).
  by rewrite (Qcompare_comp _ _ H' _ _ (Qeq_refl (1 # 2))).
Qed.

Lemma round_half_even_Z (k : Z) : round_half_even (inject_Z k) = k.
Proof.
  unfold round_half_even. rewrite Qfloor_Z.
  assert (Qcompare (inject_Z k - inject_Z k) (1 # 2) = Lt) as ->; [|done].
  apply (proj1 (Qlt_alt _ _)). lra.
Qed.

Lemma round_half_even_mono (x y : Q) :
  x <= y → (round_half_even x ≤ round_half_even y)%Z.
Proof.
  intros H. pose proof (Qfloor_resp_le _ _ H) as Hf.
  destruct (Z.eq_dec (Qfloor x) (Qfloor y)) as [Heq|Hne].
  - unfold round_half_even. rewrite Heq.
    destruct (Qcompare (x - inject_Z (Qfloor y)) (1 # 2)) eqn:Ex;
      destruct (Qcompare (y - inject_Z (Qfloor y)) (1 # 2)) eqn:Ey;
      try (destruct (Z.even (Qfloor y)); lia); try lia; exfalso.
    + apply Qeq_alt in Ex. apply Qlt_alt in Ey. lra.
    + apply Qgt_alt in Ex. apply Qeq_alt in Ey. lra.
    + apply Qgt_alt in Ex. apply Qlt_alt in Ey. lra.
  - assert (Qfloor x + 1 ≤ Qfloor y)%Z as Hlt by lia.
    transitivity (Qfloor x + 1)%Z; [|transitivity (Qfloor y); [done|]].
    + unfold round_half_even. repeat case_match; lia.
    + unfold round_half_even. repeat case_match; lia.
Qed.

(** *** Powers of two and binades *)

Import Float.

Lemma pow2_pos (e : Z) : 0 < pow2 e.
Proof. apply Qpower_0_lt. reflexivity. Qed.

Lemma pow2_le (a b : Z) : (a ≤ b)%Z → pow2 a <= pow2 b.
Proof. intros H. apply Qpower_le_compat_l; [done|]. discriminate. Qed.

Lemma pow2_lt (a b : Z) : (a < b)%Z → pow2 a < pow2 b.
Proof. intros H. apply Qpower_lt_compat_l; [done|]. reflexivity. Qed.

Lemma pow2_lt_inv (a b : Z) : pow2 a < pow2 b → (a < b)%Z.
Proof. intros H. eapply Qpower_lt_compat_l_inv; [exact H|]. reflexivity. Qed.

Lemma pow2_plus (a b : Z) : pow2 (a + b) == pow2 a * pow2 b.
Proof. apply Qpower_plus. discriminate. Qed.

Lemma pow2_succ (a : Z) : pow2 (a + 1) == 2 * pow2 a.
Proof. rewrite pow2_plus. change (pow2 1) with 2. ring. Qed.

Lemma pow2_Z (e : Z) : (0 ≤ e)%Z → pow2 e == inject_Z (2 ^ e).
Proof. intros H. unfold pow2. by rewrite (Zpower_Qpower 2 e H). Qed.

Lemma binade_spec (x : Q) :
  0 < x → pow2 (binade x) <= x ∧ x < pow2 (binade x + 1).
Proof.
  intros Hx. destruct x as [n d].
  assert (0 < n)%Z as Hn by (unfold Qlt in Hx; simpl in Hx; lia).
  set (ln := Z.log2 n). set (ld := Z.log2 (Z.pos d)).
  destruct (Z.log2_spec n Hn) as [Hn1 Hn2]. fold ln in Hn1, Hn2.
  destruct (Z.log2_spec (Z.pos d) eq_refl) as [Hd1 Hd2]. fold ld in Hd1, Hd2.
  assert (0 ≤ ln)%Z as Hln by apply Z.log2_nonneg.
  assert (0 ≤ ld)%Z as Hld by apply Z.log2_nonneg.
  set (A := pow2 ln). set (B := pow2 ld).
  set (N := inject_Z n). set (D := inject_Z (Z.pos d)).
  assert (A <= N ∧ N < 2 * A) as [HA1 HA2].
  { subst A N. split.
    - rewrite pow2_Z by done. by rewrite <- Zle_Qle.
    - rewrite <- pow2_succ, pow2_Z by lia. by rewrite <- Zlt_Qlt. }
  assert (B <= D ∧ D < 2 * B) as [HB1 HB2].
  { subst B D. split.
    - rewrite pow2_Z by done. by rewrite <- Zle_Qle.
    - rewrite <- pow2_succ, pow2_Z by lia. by rewrite <- Zlt_Qlt. }
  assert (0 < A) as HA by apply pow2_pos.
  assert (0 < B) as HB by apply pow2_pos.
  set (P := pow2 (ln - ld)).
  assert (P * B == A) as HP.
  { subst P A B. rewrite <- pow2_plus. by replace (ln - ld + ld)%Z with ln by lia. }
  assert (0 < P) as HP0 by apply pow2_pos.
  assert ((n # d) * D == N) as Hxd.
  { subst D N. rewrite (Qmake_Qdiv n d). field. discriminate. }
  unfold binade. cbn [Qnum Qden]. fold ln ld P.
  generalize dependent (n # d). intros x Hx Hxd.
  destruct (Qle_bool P x) eqn:E.
  - apply Qle_bool_iff in E. split; [exact E|].
    rewrite pow2_succ. fold P.
    destruct (Qlt_le_dec x (2 * P)) as [Hlt2|Hge]; [exact Hlt2|exfalso].
    assert (2 * P * B <= x * D) as H.
    { apply Qmult_le_compat_nonneg; split; lra. }
    lra.
  - assert (x < P) as Hlt.
    { apply Qnot_le_lt. intros H%Qle_bool_iff. congruence. }
    replace (ln - ld - 1 + 1)%Z with (ln - ld)%Z by lia. fold P.
    split; [|exact Hlt].
    assert (pow2 (ln - ld - 1) * 2 == P) as Hhalf.
    { subst P. replace (ln - ld)%Z with (ln - ld - 1 + 1)%Z at 2 by lia.
      rewrite pow2_succ. ring. }
    destruct (Qlt_le_dec x (pow2 (ln - ld - 1))) as [Hlt'|Hge']; [exfalso|exact Hge'].
    assert (x * D <= pow2 (ln - ld - 1) * (2 * B)) as H.
    { apply Qmult_le_compat_nonneg; split; lra. }
    assert (pow2 (ln - ld - 1) * (2 * B) == A) as H' by (rewrite <- HP, <- Hhalf; ring).
    assert (x * D < pow2 (ln - ld - 1) * (2 * B)) as H''.
    { apply Qle_lt_trans with (x * (2 * B)).
      - apply Qmult_le_compat_nonneg; split; lra.
      - apply Qmult_lt_compat_r; lra. }
    lra.
Qed.

Lemma binade_unique (x : Q) (e : Z) :
  0 < x → pow2 e <= x → x < pow2 (e + 1) → binade x = e.
Proof.
  intros Hx H1 H2. destruct (binade_spec x Hx) as [H3 H4].
  assert (e < binade x + 1)%Z by (apply pow2_lt_inv; lra).
  assert (binade x < e + 1)%Z by (apply pow2_lt_inv; lra).
  lia.
Qed.

Lemma binade_comp (x y : Q) : 0 < x → x == y → binade x = binade y.
Proof.
  intros Hx Hxy. assert (0 < y) as Hy by (by rewrite <- Hxy).
  destruct (binade_spec y Hy) as [H1 H2].
  apply binade_unique; [done|by rewrite Hxy..].
Qed.

Lemma binade_mono (x y : Q) : 0 < x → x <= y → (binade x ≤ binade y)%Z.
Proof.
  intros Hx Hxy. assert (0 < y) as Hy by lra.
  destruct (binade_spec x Hx) as [H1 _]. destruct (binade_spec y Hy) as [_ H2].
  assert (binade x < binade y + 1)%Z by (apply pow2_lt_inv; lra). lia.
Qed.

(** *** The nearest float *)

Lemma rnd_zero (x : Q) : x == 0 → rnd x = 0.
Proof. intros H. unfold rnd. apply Qeq_alt in H. by rewrite H. Qed.

Lemma rnd_pos (x : Q) :
  0 < x →
  rnd x == inject_Z (round_half_even (x / pow2 (ulp_exponent x)))
           * pow2 (ulp_exponent x).
Proof.
  intros H. unfold rnd. apply Qgt_alt in H. rewrite H. apply Qred_correct.
Qed.

(** The float nearest to a number depends on its value only. *)
Lemma rnd_comp (x y : Q) : x == y → rnd x = rnd y.
Proof.
  intros H. unfold rnd.
  rewrite (Qcompare_comp _ _ H _ _ (Qeq_refl 0)).
  destruct (Qcompare y 0) eqn:E; [done| |].
  - apply Qlt_alt in E. apply Qred_complete.
    assert (0 < - x) as Hx by (rewrite H; lra).
    assert (- x == - y) as Hxy by (by rewrite H).
    unfold ulp_exponent. rewrite (binade_comp _ _ Hx Hxy).
    rewrite (round_half_even_comp (- x / _) (- y / pow2 (Z.max (binade (- y) - 52) (-1074))));
      [done|]. by rewrite H.
  - apply Qgt_alt in E. apply Qred_complete.
    assert (0 < x) as Hx by (rewrite H; lra).
    unfold ulp_exponent. rewrite (binade_comp _ _ Hx H).
    rewrite (round_half_even_comp (x / _) (y / pow2 (Z.max (binade y - 52) (-1074))));
      [done|]. by rewrite H.
Qed.

Lemma rnd_nonneg (x : Q) : 0 <= x → 0 <= rnd x.
Proof.
  intros H. destruct (Qlt_le_dec 0 x) as [Hx|Hx].
  - rewrite (rnd_pos x Hx).
    pose proof (pow2_pos (ulp_exponent x)) as Hu.
    assert (0 ≤ round_half_even (x / pow2 (ulp_exponent x)))%Z as Hr.
    { apply round_half_even_ge. change (inject_Z 0) with 0.
      apply Qle_shift_div_l; [done|]. lra. }
    rewrite Zle_Qle in Hr. change (inject_Z 0) with 0 in Hr.
    apply Qmult_le_0_compat; lra.
  - rewrite rnd_zero; [lra|]. lra.
Qed.

(** Rounding to the nearest float keeps the order. *)
Lemma rnd_mono (x y : Q) : 0 <= x → x <= y → rnd x <= rnd y.
Proof.
  intros Hx0 Hxy. destruct (Qlt_le_dec 0 x) as [Hx|Hx].
  2:{ rewrite (rnd_zero x) by lra. apply rnd_nonneg. lra. }
  assert (0 < y) as Hy by lra.
  rewrite (rnd_pos x Hx), (rnd_pos y Hy).
  pose proof (binade_mono x y Hx Hxy) as Hb.
  set (ux := ulp_exponent x). set (uy := ulp_exponent y).
  pose proof (pow2_pos ux) as Hux. pose proof (pow2_pos uy) as Huy.
  destruct (Z.eq_dec ux uy) as [Heq|Hne].
  - rewrite Heq.
    assert (round_half_even (x / pow2 uy) ≤ round_half_even (y / pow2 uy))%Z as Hr.
    { apply round_half_even_mono. apply Qmult_le_compat_r; [done|].
      apply Qinv_le_0_compat. lra. }
    rewrite Zle_Qle in Hr. apply Qmult_le_compat_r; lra.
  - assert (ux < uy)%Z as Hlt by (subst ux uy; unfold ulp_exponent in *; lia).
    assert (uy = binade y - 52)%Z as Huy' by (subst ux uy; unfold ulp_exponent in *; lia).
    assert (binade x - 52 ≤ ux)%Z as Hux' by (subst ux; unfold ulp_exponent; lia).
    destruct (binade_spec x Hx) as [_ Hx2]. destruct (binade_spec y Hy) as [Hy1 _].
    (* the float of [y] is at least [2^binade y] *)
    assert (pow2 (binade y) <= inject_Z (round_half_even (y / pow2 uy)) * pow2 uy) as Hlow.
    { assert (2 ^ 52 ≤ round_half_even (y / pow2 uy))%Z as Hr.
      { apply round_half_even_ge. rewrite <- pow2_Z by done.
        apply Qle_shift_div_l; [done|]. rewrite <- pow2_plus, Huy'.
        by replace (52 + (binade y - 52))%Z with (binade y) by lia. }
      rewrite Zle_Qle, <- pow2_Z in Hr by done.
      apply Qle_trans with (pow2 52 * pow2 uy).
      - rewrite <- pow2_plus, Huy'.
        replace (52 + (binade y - 52))%Z with (binade y) by lia. apply Qle_refl.
      - apply Qmult_le_compat_r; lra. }
    (* the float of [x] is at most [2^(binade x + 1)] or one unit *)
    set (k := Z.max (binade x + 1 - ux) 0).
    assert (inject_Z (round_half_even (x / pow2 ux)) * pow2 ux <= pow2 (k + ux)) as Hhigh.
    { assert (round_half_even (x / pow2 ux) ≤ 2 ^ k)%Z as Hr.
      { apply round_half_even_le. rewrite <- pow2_Z by (subst k; lia).
        apply Qle_shift_div_r; [done|]. rewrite <- pow2_plus.
        apply Qle_trans with (pow2 (binade x + 1)); [lra|].
        apply pow2_le. subst k. lia. }
      rewrite Zle_Qle, <- pow2_Z in Hr by (subst k; lia).
      rewrite pow2_plus. apply Qmult_le_compat_r; lra. }
    assert (pow2 (k + ux) <= pow2 (binade y)) as Hmid.
    { apply pow2_le. subst k. lia. }
    eapply Qle_trans; [exact Hhigh|]. eapply Qle_trans; [exact Hmid|exact Hlow].
Qed.

(** A float is within half a unit in the last place of what it rounds. *)
Lemma rnd_near (x : Q) :
  0 < x →
  x - pow2 (ulp_exponent x) * (1 # 2) <= rnd x
  ∧ rnd x <= x + pow2 (ulp_exponent x) * (1 # 2).
Proof.
  intros Hx. rewrite (rnd_pos x Hx).
  pose proof (pow2_pos (ulp_exponent x)) as Hu.
  destruct (round_half_even_near (x / pow2 (ulp_exponent x))) as [H1 H2].
  set (u := pow2 (ulp_exponent x)) in *.
  assert (x / u * u == x) as Hxu by (field; lra).
  set (q := x / u) in *. set (r := inject_Z _) in *.
  split.
  - assert ((q - (1 # 2)) * u <= r * u) as H
      by (apply Qmult_le_compat_r; lra).
    assert ((q - (1 # 2)) * u == x - u * (1 # 2)) as Hl by (rewrite <- Hxu; ring).
    by rewrite <- Hl.
  - assert (r * u <= (q + (1 # 2)) * u) as H
      by (apply Qmult_le_compat_r; lra).
    assert ((q + (1 # 2)) * u == x + u * (1 # 2)) as Hl by (rewrite <- Hxu; ring).
    by rewrite <- Hl.
Qed.


Lemma rnd_near_small (x : Q) :
  0 <= x → x <= 128 → x - eps <= rnd x ∧ rnd x <= x + eps.
Proof.
  intros Hx0 Hx. assert (0 < eps) as Heps by apply pow2_pos.
  destruct (Qlt_le_dec 0 x) as [Hpos|Hzero].
  2:{ rewrite (rnd_zero x) by lra. split; lra. }
  destruct (Qlt_le_dec x 128) as [Hlt|Hge].
  2:{ rewrite (rnd_comp x 128) by lra.
      assert (rnd 128 = 128) as -> by (by vm_compute). split; lra. }
  destruct (rnd_near x Hpos) as [H1 H2].
  assert (pow2 (ulp_exponent x) * (1 # 2) <= eps) as Hu.
  { assert (pow2 (ulp_exponent x) <= pow2 (-46)) as H.
    { apply pow2_le. destruct (binade_spec x Hpos) as [Hb _].
      assert (binade x < 7)%Z.
      { apply pow2_lt_inv. change (pow2 7) with 128. lra. }
      unfold ulp_exponent. lia. }
    assert (pow2 (-46) == 2 * eps) as H' by (by vm_compute).
    revert H H'. generalize (pow2 (ulp_exponent x)) (pow2 (-46)) eps.
    intros a b c Hab Hbc. lra. }
  revert Heps H1 H2 Hu. generalize (pow2 (ulp_exponent x)) (rnd x) eps.
  intros a b c Hc H1 H2 Hu. split; lra.
Qed.

Lemma eps_small : 0 < eps ∧ eps <= 1 # 100000000000000.
Proof. split; by vm_compute. Qed.

(** *** The operations *)

Lemma float_mul_nonneg (x y : Q) : 0 <= x → 0 <= y → 0 <= mul x y.
Proof. intros Hx Hy. apply rnd_nonneg. by apply Qmult_le_0_compat. Qed.

Lemma float_mul_mono (x x' y y' : Q) :
  0 <= x → x <= x' → 0 <= y → y <= y' → mul x y <= mul x' y'.
Proof.
  intros Hx Hxx Hy Hyy. apply rnd_mono; [by apply Qmult_le_0_compat|].
  apply Qle_trans with (x' * y).
  - apply Qmult_le_compat_r; lra.
  - rewrite (Qmult_comm x' y), (Qmult_comm x' y'). apply Qmult_le_compat_r; lra.
Qed.

Lemma float_add_nonneg (x y : Q) : 0 <= x → 0 <= y → 0 <= add x y.
Proof. intros Hx Hy. apply rnd_nonneg. lra. Qed.

Lemma float_add_mono (x x' y y' : Q) :
  0 <= x → x <= x' → 0 <= y → y <= y' → add x y <= add x' y'.
Proof. intros Hx Hxx Hy Hyy. apply rnd_mono; lra. Qed.

Lemma float_mul_comp (x x' y : Q) : x == x' → mul x y = mul x' y.
Proof. intros H. apply rnd_comp. by rewrite H. Qed.

(** A ratio of two whole numbers, the first at most the second. *)
Lemma ratio_between (a b : Z) :
  (0 ≤ a ≤ b)%Z → (0 < b)%Z →
  0 <= inject_Z a / inject_Z b ∧ inject_Z a / inject_Z b <= 1.
Proof.
  intros Hab Hb.
  assert (0 < inject_Z b) as Hpos.
  { change 0 with (inject_Z 0). rewrite <- Zlt_Qlt. lia. }
  assert (0 <= inject_Z a) as Ha.
  { change 0 with (inject_Z 0). rewrite <- Zle_Qle. lia. }
  assert (inject_Z a <= inject_Z b) as Hle.
  { rewrite <- Zle_Qle. lia. }
  split.
  - apply Qle_shift_div_l; [done|]. lra.
  - apply Qle_shift_div_r; [done|]. lra.
Qed.

Lemma div_int_between (a b : Z) :
  (0 ≤ a ≤ b)%Z → (0 < b)%Z → 0 <= div_int a b ∧ div_int a b <= 1.
Proof.
  intros Hab Hb. destruct (ratio_between a b Hab Hb) as [H0 H1]. split.
  - by apply rnd_nonneg.
  - assert (rnd 1 = 1) as <- by (by vm_compute). by apply rnd_mono.
Qed.

Lemma div_int_near (a b : Z) :
  (0 ≤ a ≤ b)%Z → (0 < b)%Z →
  inject_Z a / inject_Z b - eps <= div_int a b
  ∧ div_int a b <= inject_Z a / inject_Z b + eps.
Proof.
  intros Hab Hb. destruct (ratio_between a b Hab Hb) as [H0 H1].
  apply rnd_near_small; lra.
Qed.

Lemma div_int_mono (a a' b : Z) :
  (0 ≤ a ≤ a')%Z → (0 < b)%Z → div_int a b <= div_int a' b.
Proof.
  intros Ha Hb.
  assert (0 < inject_Z b) as Hpos.
  { change 0 with (inject_Z 0). rewrite <- Zlt_Qlt. lia. }
  assert (0 <= inject_Z a) as Ha0.
  { change 0 with (inject_Z 0). rewrite <- Zle_Qle. lia. }
  assert (inject_Z a <= inject_Z a') as Hle by (rewrite <- Zle_Qle; lia).
  apply rnd_mono.
  - apply Qle_shift_div_l; [done|]. lra.
  - apply Qmult_le_compat_r; [done|]. apply Qinv_le_0_compat. lra.
Qed.

(** *** [round(x, 1)] *)

Lemma py_round1_comp (x y : Q) : x == y → py_round1 x = py_round1 y.
Proof.
  intros H. unfold py_round1.
  rewrite (round_half_even_comp (x * 10) (y * 10)); [done|]. by rewrite H.
Qed.

Lemma tenths_nonneg (x : Q) :
  0 <= x → 0 <= inject_Z (round_half_even (x * 10)) * (1 # 10).
Proof.
  intros H. assert (0 ≤ round_half_even (x * 10))%Z as Hr.
  { apply round_half_even_ge. change (inject_Z 0) with 0. lra. }
  rewrite Zle_Qle in Hr. change (inject_Z 0) with 0 in Hr. lra.
Qed.

Lemma py_round1_unfold (x : Q) :
  py_round1 x = rnd (inject_Z (round_half_even (x * 10)) * (1 # 10)).
Proof. reflexivity. Qed.

Lemma py_round1_nonneg (x : Q) : 0 <= x → 0 <= py_round1 x.
Proof. intros H. rewrite py_round1_unfold. by apply rnd_nonneg, tenths_nonneg. Qed.

(** Rounding keeps the order. *)
Lemma py_round1_mono (x y : Q) : 0 <= x → x <= y → py_round1 x <= py_round1 y.
Proof.
  intros Hx H. rewrite !py_round1_unfold.
  apply rnd_mono; [by apply tenths_nonneg|].
  assert (round_half_even (x * 10) ≤ round_half_even (y * 10))%Z as Hr.
  { apply round_half_even_mono. lra. }
  rewrite Zle_Qle in Hr. lra.
Qed.

(** [round(x, 1)] stays below a bound it leaves as it is. *)
Lemma py_round1_upto (x c : Q) :
  0 <= x → x <= c → py_round1 c = c → 0 <= py_round1 x ∧ py_round1 x <= c.
Proof.
  intros Hx Hc Hfix. split; [by apply py_round1_nonneg|].
  rewrite <- Hfix. by apply py_round1_mono.
Qed.

(** [round(x, 1)] is within one twentieth of [x], up to the rounding of the
    result to a float. *)
Lemma py_round1_near (x : Q) :
  0 <= x → x <= 100 →
  x - (1 # 20) - eps <= py_round1 x ∧ py_round1 x <= x + (1 # 20) + eps.
Proof.
  intros H0 H1. rewrite py_round1_unfold.
  destruct (round_half_even_near (x * 10)) as [Hlo Hhi].
  pose proof (tenths_nonneg x H0) as Ht.
  destruct (rnd_near_small (inject_Z (round_half_even (x * 10)) * (1 # 10)))
    as [H2 H3]; [done|lra|].
  split; lra.
Qed.

(** The multiples of one tenth up to 10, as floats, are left as they are. *)
Lemma tenths_fixed :
  forallb (λ k, Z.eqb (round_half_even (rnd (inject_Z k * (1 # 10)) * 10)) k)
          (map Z.of_nat (List.seq 0 101)) = true.
Proof. by vm_compute. Qed.

(** Rounding what is rounded changes nothing. *)
Lemma py_round1_idem (x : Q) :
  0 <= x → x <= 10 → py_round1 (py_round1 x) = py_round1 x.
Proof.
  intros H0 H1. rewrite (py_round1_unfold (py_round1 x)).
  rewrite (py_round1_unfold x) at 2. f_equal. f_equal. f_equal.
  rewrite py_round1_unfold.
  set (k := round_half_even (x * 10)).
  assert (0 ≤ k ≤ 100)%Z as Hk.
  { subst k. split.
    - apply round_half_even_ge. change (inject_Z 0) with 0. lra.
    - apply round_half_even_le. change (inject_Z 100) with 100. lra. }
  pose proof tenths_fixed as Hall. rewrite forallb_forall in Hall.
  apply Z.eqb_eq, Hall, in_map_iff. exists (Z.to_nat k). split; [lia|].
  apply in_seq. lia.
Qed.

(** *** A share, scaled and rounded *)

(** [round(a / b * c, 1)] for [0 <= a <= b] and a float [c] up to 100 that
    rounding leaves as it is: between 0 and [c], and within one twentieth of
    the exact value, up to the rounding of the three floats. *)
Lemma scaled_share_near (a b : Z) (c : Q) :
  (0 ≤ a ≤ b)%Z → (0 < b)%Z → 0 <= c → c <= 100 → rnd c = c → py_round1 c = c →
  let v := py_round1 (mul (div_int a b) c) in
  (0 <= v ∧ v <= c)
  ∧ (inject_Z a / inject_Z b * c - (1 # 20) - 102 * eps <= v
     ∧ v <= inject_Z a / inject_Z b * c + (1 # 20) + 102 * eps).
Proof.
  intros Hab Hb Hc0 Hc Hrnd Hround v.
  destruct (div_int_between a b Hab Hb) as [Hp0 Hp1].
  destruct (div_int_near a b Hab Hb) as [Hp2 Hp3].
  destruct (ratio_between a b Hab Hb) as [Hq0 Hq1].
  set (p := div_int a b) in *. set (q := inject_Z a / inject_Z b) in *.
  assert (0 <= p * c ∧ p * c <= c) as [Hpc0 Hpc1].
  { split; [by apply Qmult_le_0_compat|].
    rewrite <- (Qmult_1_l c) at 2. apply Qmult_le_compat_r; lra. }
  assert (0 <= mul p c ∧ mul p c <= c) as [Hm0 Hm1].
  { split; [by apply float_mul_nonneg|]. rewrite <- Hrnd at 2.
    unfold mul. apply rnd_mono; [done|]. lra. }
  destruct (rnd_near_small (p * c)) as [Hm2 Hm3]; [done|lra|].
  fold (mul p c) in Hm2, Hm3.
  destruct (py_round1_near (mul p c)) as [Hv2 Hv3]; [done|lra|]. fold v in Hv2, Hv3.
  split; [subst v; by apply py_round1_upto; try lra|].
  destruct eps_small as [He0 He1].
  assert (q * c - eps * c <= p * c ∧ p * c <= q * c + eps * c) as [Hpq1 Hpq2].
  { assert ((q - eps) * c <= p * c) as H1 by (apply Qmult_le_compat_r; lra).
    assert (p * c <= (q + eps) * c) as H2 by (apply Qmult_le_compat_r; lra).
    assert ((q - eps) * c == q * c - eps * c) as E1 by ring.
    assert ((q + eps) * c == q * c + eps * c) as E2 by ring.
    rewrite E1 in H1. rewrite E2 in H2. by split. }
  assert (eps * c <= eps * 100) as Hec.
  { rewrite !(Qmult_comm eps). apply Qmult_le_compat_r; lra. }
  split; lra.
Qed.

(** The same, within 0.051. *)
Lemma scaled_share (a b : Z) (c : Q) :
  (0 ≤ a ≤ b)%Z → (0 < b)%Z → 0 <= c → c <= 100 → rnd c = c → py_round1 c = c →
  let v := py_round1 (mul (div_int a b) c) in
  (0 <= v ∧ v <= c)
  ∧ (inject_Z a / inject_Z b * c - (51 # 1000) <= v
     ∧ v <= inject_Z a / inject_Z b * c + (51 # 1000)).
Proof.
  intros Hab Hb Hc0 Hc Hrnd Hround v.
  destruct (scaled_share_near a b c Hab Hb Hc0 Hc Hrnd Hround) as [H1 [H2 H3]].
  fold v in H1, H2, H3. destruct eps_small as [He0 He1].
  split; [done|]. split; lra.
Qed.

(** Three values the source computes, as Python prints them: 28.7 for 23
    keywords of 80, 0.1 for one year of 200, and 4.9 for the scores 7.1, 4.2
    and 0.7. *)
Lemma float_examples :
  py_round1 (mul (div_int 23 80) 100) = lit (287 # 10)
  ∧ py_round1 (Qmin 10 (mul (div_int 1 200) 10)) = lit (1 # 10)
  ∧ py_round1 (add (add (mul (lit (71 # 10)) (lit (5 # 10)))
                        (mul (lit (42 # 10)) (lit (3 # 10))))
                   (mul (lit (7 # 10)) (lit (2 # 10)))) = lit (49 # 10).
Proof. repeat split; by vm_compute. Qed.

Lemma Qgeb_comp (x y z : Q) : x == y → Qgeb x z = Qgeb y z.
Proof. intros H. unfold Qgeb. by rewrite H. Qed.

End Rounding.

(** ** Experience years in the extractor (claim C1) *)

(** C1. The year span is not what the code returns: [re.findall] with the
    pattern [(19|20)\d{2}] returns the group, "19" or "20", not the year, so no
    value passes the test [1900 < y <= 2024]. A text with the years 2015 and
    2020 gets 3 years (the default), not 5; a text with 2019 and 2020 and the
    word "senior" gets 5 years, more than the span of 1. *)
Theorem C1_year_span_not_computed :
  findall date_pattern "Software engineer, 2015 - 2020" = ["20"; "20"]
  ∧ (∃ p, extract_info "Software engineer, 2015 - 2020" = Ok p
          ∧ years (p_experience p) = Some 3)
  ∧ (∃ p, extract_info "Senior engineer, 2019 - 2020" = Ok p
          ∧ years (p_experience p) = Some 5).
Proof.
  split; [by vm_compute|].
  split.
  - destruct (extract_info_total "Software engineer, 2015 - 2020")
      as (y & Hy & _ & ->); [by vm_compute|].
    eexists. split; [done|]. simpl. f_equal.
    vm_compute in Hy. by injection Hy.
  - destruct (extract_info_total "Senior engineer, 2019 - 2020")
      as (y & Hy & _ & ->); [by vm_compute|].
    eexists. split; [done|]. simpl. f_equal.
    vm_compute in Hy. by injection Hy.
Qed.

(** ** Text similarity when it is switched off (claim C2) *)

Section SimilarityDefault.

Local Open Scope Q_scope.

(** C2. With [use_ai] false the text similarity [match] reports is the float
    0.7, not 7.0, and the term it adds to the weighted sum is 0.7 × 0.2, about
    0.14, not 7.0 × 0.2: the default constant is on the scale from 0 to 1 and
    is never scaled to the scale from 0 to 10 of the other branch. [match]
    returns when the job description has no run of more than 4300 digits and
    the number of years has at most 4300 digits, and this holds of every
    result it returns. *)
Theorem C2_similarity_default_not_scaled (resume_info : profile) (job_description : string) :
  ((Z.of_nat (longest_digit_run job_description) ≤ int_max_str_digits)%Z →
   (Z.abs (default 0 (years (p_experience resume_info))) < 10 ^ int_max_str_digits)%Z →
   ∃ r, match_ resume_info job_description false = Ok r)
  ∧ ∀ r, match_ resume_info job_description false = Ok r →
      text_similarity r = Float.lit (7 # 10)
      ∧ ((7 # 10) - eps <= text_similarity r ∧ text_similarity r <= (7 # 10) + eps)
      ∧ ¬ text_similarity r == 7
      ∧ overall_score r
        = py_round1
            (py_round1
               (Float.add
                  (Float.add
                     (Float.mul (sm_score (mr_skill_match r)) weight_skill)
                     (Float.mul (em_score (mr_experience_match r)) weight_experience))
                  (similarity_term default_similarity)))
      ∧ similarity_term default_similarity
        = Float.mul (Float.lit (7 # 10)) (Float.lit (2 # 10))
      ∧ ((14 # 100) - eps <= similarity_term default_similarity
         ∧ similarity_term default_similarity <= (14 # 100) + eps)
      ∧ ¬ similarity_term default_similarity == 7 * (2 # 10)
      ∧ ¬ similarity_term default_similarity == Float.mul 7 (Float.lit (2 # 10)).
Proof.
  split; [apply match_total|].
  intros r (em & _ & ->)%match_ok.
  cbn [text_similarity overall_score mr_skill_match mr_experience_match].
  split; [by vm_compute|]. split; [split; by vm_compute|].
  split; [by vm_compute|]. split; [reflexivity|]. split; [reflexivity|].
  split; [split; by vm_compute|]. split; by vm_compute.
Qed.

Lemma C2_similarity_default_not_scaled_witness :
  ∃ r, match_ {| p_basic_info := BasicInfo "" "" "" "";
                 p_skills := {["programming" := ["Python"]]};
                 p_experience := Experience (Some 2%Z) [] [];
                 p_education := Education "" "" "";
                 p_summary := "" |}
              "Python developer, 3 years" false = Ok r
    ∧ text_similarity r = Float.lit (7 # 10)
    ∧ ¬ text_similarity r == 7.
Proof.
  destruct (C2_similarity_default_not_scaled
              {| p_basic_info := BasicInfo "" "" "" "";
                 p_skills := {["programming" := ["Python"]]};
                 p_experience := Experience (Some 2%Z) [] [];
                 p_education := Education "" "" "";
                 p_summary := "" |}
              "Python developer, 3 years") as [Hex Hall].
  destruct Hex as [r Hr]; [by vm_compute|by vm_compute|].
  exists r. split; [exact Hr|].
  destruct (Hall r Hr) as (H1 & _ & H2 & _). by split.
Defined.

End SimilarityDefault.

(** ** The experience score (claim C5) *)

Section ExperienceScore.

Local Open Scope Q_scope.

Ltac z_cases :=
  repeat match goal with
         | |- context [Z.ltb ?a ?b] => destruct (Z.ltb_spec a b); try lia
         | |- context [Z.leb ?a ?b] => destruct (Z.leb_spec a b); try lia
         end.

(** The score of fewer years than required: [min] changes nothing, and the
    rounded value is between 0 and 10 and within 0.051 of [a/r*10]. *)
Lemma partial_experience_score (a r : Z) :
  (0 < a < r)%Z →
  let v := py_round1 (Qmin 10 (Float.mul (Float.div_int a r) 10)) in
  v = py_round1 (Float.mul (Float.div_int a r) 10)
  ∧ (0 <= v ∧ v <= 10)
  ∧ (inject_Z a / inject_Z r * 10 - (51 # 1000) <= v
     ∧ v <= inject_Z a / inject_Z r * 10 + (51 # 1000)).
Proof.
  intros Har v.
  destruct (div_int_between a r ltac:(lia) ltac:(lia)) as [Hp0 Hp1].
  assert (Float.mul (Float.div_int a r) 10 <= 10) as Hle.
  { apply Qle_trans with (Float.mul 1 10); [|by vm_compute].
    apply float_mul_mono; lra. }
  assert (v = py_round1 (Float.mul (Float.div_int a r) 10)) as Hv.
  { subst v. apply py_round1_comp. by apply Q.min_r. }
  split; [done|]. rewrite Hv.
  apply (scaled_share a r 10); try lia; try lra; by vm_compute.
Qed.

(** The claim as it is written fails: one year against "3 years" scores 3.3,
    the rounded value, and not [min(10, 1/3*10)]. *)
Lemma C5_counterexample :
  ∃ em, _calculate_experience_match
          {| years := Some 1%Z; companies := []; roles := [] |} "3 years" = Ok em
    ∧ years_required em = 3%Z
    ∧ years_actual em = 1%Z
    ∧ em_score em = Float.lit (33 # 10)
    ∧ ¬ em_score em == Qmin 10 (inject_Z 1 / inject_Z 3 * 10)
    ∧ ¬ em_score em == Qmin 10 (Float.mul (Float.div_int 1 3) 10).
Proof.
  eexists. split; [by vm_compute|]. repeat split; by vm_compute.
Qed.

(** C5, amended. For actual years [a ≥ 0] and the required years [r] the job
    description gives: when [r > 0] the score is 10 for [a ≥ r], the value
    [min(10, a/r*10)] rounded to one decimal for [0 < a < r] (computed in
    floats: between 0 and 10 and within 0.051 of [a/r*10]), and 0 for
    [a = 0]; when [r = 0] it is 9.0, 7.5, 6.0, 4.0 or 2.0 for [a ≥ 8],
    [5 ≤ a < 8], [3 ≤ a < 5], [1 ≤ a < 3] and [a < 1]. The matcher returns a
    result when the job description has no run of more than 4300 digits and
    [a] has at most 4300 digits. *)
Theorem C5_experience_score (e : experience) (job_description : string) :
  (0 ≤ default 0 (years e))%Z →
  ((Z.of_nat (longest_digit_run job_description) ≤ int_max_str_digits)%Z →
   (default 0 (years e) < 10 ^ int_max_str_digits)%Z →
   ∃ em, _calculate_experience_match e job_description = Ok em)
  ∧ ∀ em, _calculate_experience_match e job_description = Ok em →
      _extract_years_required job_description = Ok (years_required em)
      ∧ years_actual em = default 0%Z (years e)
      ∧ let a := years_actual em in
        let r := years_required em in
        (0 ≤ r)%Z
        ∧ ((0 < r)%Z → (r ≤ a)%Z → em_score em == 10)
        ∧ ((0 < r)%Z → (0 < a < r)%Z →
             em_score em
             = py_round1 (Qmin 10 (Float.mul (Float.div_int a r) 10))
             ∧ (0 <= em_score em ∧ em_score em <= 10)
             ∧ (inject_Z a / inject_Z r * 10 - (51 # 1000) <= em_score em
                ∧ em_score em <= inject_Z a / inject_Z r * 10 + (51 # 1000)))
        ∧ ((0 < r)%Z → a = 0%Z → em_score em == 0)
        ∧ (r = 0%Z → (8 ≤ a)%Z → em_score em == 9)
        ∧ (r = 0%Z → (5 ≤ a < 8)%Z → em_score em == 75 # 10)
        ∧ (r = 0%Z → (3 ≤ a < 5)%Z → em_score em == 6)
        ∧ (r = 0%Z → (1 ≤ a < 3)%Z → em_score em == 4)
        ∧ (r = 0%Z → (a < 1)%Z → em_score em == 2).
Proof.
  intros Ha. split.
  { intros Hlen Hyears. apply calculate_experience_match_total; [done|lia]. }
  intros em (r & Hr & Hpos & _ & ->)%calculate_experience_match_ok.
  cbn [years_required years_actual em_score].
  split; [done|]. split; [done|]. split; [lia|].
  split; [|split].
  - intros H0 Hle. unfold raw_experience_score. z_cases. by vm_compute.
  - intros H0 Hlt. unfold raw_experience_score. z_cases.
    destruct (partial_experience_score _ _ Hlt) as (_ & Hb & Hn).
    split; [reflexivity|]. by split.
  - unfold raw_experience_score.
    repeat split; intros; subst; z_cases; by vm_compute.
Qed.

Lemma C5_experience_score_witness :
  (0 ≤ default 0 (years {| years := Some 2%Z; companies := []; roles := [] |}))%Z
  ∧ ∃ em, _calculate_experience_match
            {| years := Some 2%Z; companies := []; roles := [] |}
            "We ask for 5+ years" = Ok em
      ∧ years_required em = 5%Z
      ∧ em_score em == 4.
Proof.
  split; [by vm_compute|].
  destruct (C5_experience_score
              {| years := Some 2%Z; companies := []; roles := [] |}
              "We ask for 5+ years") as [Hex Hall]; [by vm_compute|].
  destruct Hex as [em Hem]; [by vm_compute|by vm_compute|].
  exists em. split; [exact Hem|].
  destruct (Hall em Hem) as (Hr & Ha & H).
  assert (_extract_years_required "We ask for 5+ years" = Ok 5%Z) as Hreq
    by (by vm_compute).
  rewrite Hreq in Hr. injection Hr as Hr. split; [done|].
  cbv zeta in H. destruct H as (_ & _ & H & _).
  simpl in Ha. rewrite <- Hr, Ha in H.
  destruct H as (H & _); [lia|lia|]. rewrite H. by vm_compute.
Defined.

End ExperienceScore.

(** ** The skill match (claim C4) *)

Section SkillMatch.

Local Open Scope Q_scope.

(** The claim as it is written fails: one keyword matched out of three gives
    the percentage 33.3 and the score 3.3, which are neither [1/3*100] nor a
    tenth of each other. *)
Lemma C4_counterexample :
  let r := _calculate_skill_match {["programming" := ["Python"]]}
                                  ["python"; "aws"; "docker"] in
  matched_skills r = ["python"]
  ∧ percentage r = Float.lit (333 # 10)
  ∧ sm_score r = Float.lit (33 # 10)
  ∧ ¬ percentage r == inject_Z 1 / inject_Z 3 * 100
  ∧ ¬ percentage r == Float.mul (Float.div_int 1 3) 100
  ∧ ¬ sm_score r == percentage r / 10
  ∧ ¬ sm_score r == Float.rnd (percentage r / 10).
Proof. repeat split; by vm_compute. Qed.

Lemma matched_ratio_between (matched total : nat) :
  (matched ≤ total)%nat →
  0 <= matched_ratio matched total ∧ matched_ratio matched total <= 1.
Proof.
  intros H. destruct total as [|total]; simpl; [split; lra|].
  apply ratio_between; lia.
Qed.

(** A share of keywords, scaled to 100 or to 10 and rounded. *)
Lemma scaled_ratio (matched total : nat) (c : Q) :
  (matched ≤ total)%nat → 0 <= c → c <= 100 → Float.rnd c = c → py_round1 c = c →
  let v := py_round1 (Float.mul (float_ratio matched total) c) in
  (0 <= v ∧ v <= c)
  ∧ (matched_ratio matched total * c - (1 # 20) - 102 * eps <= v
     ∧ v <= matched_ratio matched total * c + (1 # 20) + 102 * eps).
Proof.
  intros Hle Hc0 Hc Hrnd Hround. cbv zeta.
  destruct total as [|total]; cbn [float_ratio matched_ratio].
  - assert (py_round1 (Float.mul 0 c) = 0) as ->.
    { rewrite (py_round1_comp _ 0); [by vm_compute|].
      unfold Float.mul. rewrite (rnd_zero (0 * c)); [done|ring]. }
    destruct eps_small. split; split; lra.
  - apply (scaled_share_near (Z.of_nat matched) (Z.of_nat (S total)) c);
      try done; lia.
Qed.

(** C4, amended. The percentage is the share of matched keywords times 100
    rounded to one decimal, in [0,100], and 0 for an empty keyword list; the
    score is the share times 10 rounded to one decimal, in [0,10]; both are
    computed in floats and are within 0.051 of the exact values; the score is
    within 0.056 of a tenth of the percentage. *)
Theorem C4_skill_match (resume_skills : gmap string (list string))
    (job_keywords : list string) :
  let r := _calculate_skill_match resume_skills job_keywords in
  let matched := length (matched_skills r) in
  let total := length job_keywords in
  (matched ≤ total)%nat
  ∧ percentage r = py_round1 (Float.mul (float_ratio matched total) 100)
  ∧ sm_score r = py_round1 (Float.mul (float_ratio matched total) 10)
  ∧ (0 <= percentage r ∧ percentage r <= 100)
  ∧ (0 <= sm_score r ∧ sm_score r <= 10)
  ∧ (matched_ratio matched total * 100 - (51 # 1000) <= percentage r
     ∧ percentage r <= matched_ratio matched total * 100 + (51 # 1000))
  ∧ (matched_ratio matched total * 10 - (51 # 1000) <= sm_score r
     ∧ sm_score r <= matched_ratio matched total * 10 + (51 # 1000))
  ∧ (- (56 # 1000) <= sm_score r - percentage r / 10
     ∧ sm_score r - percentage r / 10 <= 56 # 1000)
  ∧ percentage (_calculate_skill_match resume_skills []) == 0.
Proof.
  intros r matched total.
  assert (Hlen : (matched ≤ total)%nat) by apply length_filter.
  assert (Hp : percentage r = py_round1 (Float.mul (float_ratio matched total) 100)).
  { subst r matched total. by destruct job_keywords. }
  assert (Hs : sm_score r = py_round1 (Float.mul (float_ratio matched total) 10)).
  { subst r matched total. by destruct job_keywords. }
  destruct (scaled_ratio matched total 100 Hlen) as [Hp1 Hp2];
    [lra|lra|by vm_compute|by vm_compute|].
  destruct (scaled_ratio matched total 10 Hlen) as [Hs1 Hs2];
    [lra|lra|by vm_compute|by vm_compute|].
  cbv zeta in Hp1, Hp2, Hs1, Hs2. rewrite <- Hp in Hp1, Hp2. rewrite <- Hs in Hs1, Hs2.
  destruct eps_small as [He0 He1].
  split; [done|]. split; [done|]. split; [done|]. split; [done|]. split; [done|].
  split; [split; lra|]. split; [split; lra|].
  split; [|by vm_compute].
  unfold Qdiv. change (/ 10) with (1 # 10). split; lra.
Qed.

End SkillMatch.

(** ** When [extract_info] returns, and its empty defaults (claim C9) *)

Section Defaults.

Lemma extract_phone_none (patterns : list regex) (text : string) :
  (∀ pattern, pattern ∈ patterns → search pattern text = None) →
  extract_phone patterns text = EmptyString.
Proof.
  induction patterns as [|pattern patterns IH]; intros H; simpl; [done|].
  assert (findall pattern text = []) as ->.
  { apply findall_nil, H. by left. }
  apply IH. intros p Hp. apply H. by right.
Qed.

Lemma extract_location_none (text : string) :
  Py.any_in location_keywords (Py.lower text) = false →
  extract_location text = EmptyString.
Proof.
  intros H. unfold extract_location. rewrite find_all_false; [done|].
  apply Forall_forall. intros sentence Hs. unfold is_address.
  by rewrite (any_in_piece _ _ _ _ H Hs).
Qed.

Lemma found_skills_none (keywords : list string) (text_lower : string) :
  (∀ k, k ∈ keywords → Py.contains k text_lower = false) →
  found_skills keywords text_lower = [].
Proof.
  unfold found_skills. induction keywords as [|k keywords IH]; intros H; [done|].
  rewrite filter_cons. case_decide as Hd.
  - rewrite H in Hd; [done|by left].
  - apply IH. intros k' Hk'. apply H. by right.
Qed.

Lemma extract_skills_lookup (text category : string) (keywords : list string) :
  (category, keywords) ∈ skill_keywords →
  _extract_skills text !! category
  = Some (Py.list_set (found_skills keywords (Py.lower text))).
Proof.
  unfold _extract_skills, skill_keywords. cbn [foldl fst snd]. intros H.
  repeat (apply elem_of_cons in H as [[= -> ->]|H];
          [repeat (rewrite lookup_insert_ne; [|done]); by rewrite lookup_insert_eq|]).
  by apply elem_of_nil in H.
Qed.

Lemma extract_skills_other (text : string) : _extract_skills text !! "other" = Some [].
Proof.
  unfold _extract_skills, skill_keywords. cbn [foldl fst snd].
  by repeat (rewrite lookup_insert_ne; [|done]).
Qed.

Lemma scan_sections_none (lines : list string) :
  Forall (λ line, Py.any_in section_keywords (Py.lower line) = false) lines →
  scan_sections lines = ([], []).
Proof.
  induction 1 as [|line lines Hl _ IH]; cbn [scan_sections]; [done|].
  by rewrite Hl, IH.
Qed.

Lemma scan_sections_no_keyword (text : string) :
  Py.any_in section_keywords (Py.lower text) = false →
  scan_sections (Py.split_lines text) = ([], []).
Proof.
  intros H. apply scan_sections_none, Forall_forall. intros line Hl.
  by apply (any_in_piece _ _ _ _ H Hl).
Qed.

Lemma extract_education_none (text : string) :
  Py.any_in education_keywords (Py.lower text) = false →
  _extract_education text
  = {| degree := EmptyString; university := EmptyString;
       graduation_year := EmptyString |}.
Proof.
  intros H. unfold _extract_education. rewrite find_all_false; [done|].
  apply Forall_forall. intros line Hl. by apply (any_in_piece _ _ _ _ H Hl).
Qed.

(** The claim as it is written fails: for a text of 4301 digits and the word
    "years", [int] refuses the digits and [extract_info] raises
    [ValueError]. *)
Lemma C9_counterexample :
  extract_info (ones 4301 +:+ " years") = Raise ValueError.
Proof.
  assert (_estimate_experience_years (ones 4301 +:+ " years") = Raise ValueError)
    as H by (by vm_compute).
  unfold extract_info, _extract_experience. by rewrite H.
Qed.

(** C9, amended. For every text without a run of more than 4300 digits
    [extract_info] returns a profile, not an exception; and in every profile
    it returns, a field the text gives nothing for has its empty default: the
    name when no line among the first ten looks like one, the phone and the
    email when no pattern matches, the location, the companies and roles and
    the education when no keyword of theirs occurs in the text, a skill
    category when none of its keywords occurs; the category "other" is always
    empty; the years are a number that is not negative. For the empty text
    every field is the default, the years being 3. *)
Theorem C9_extract_info_total (text : string) :
  (Z.of_nat (longest_digit_run text) ≤ int_max_str_digits →
   ∃ p, extract_info text = Ok p)
  ∧ (∀ p, extract_info text = Ok p →
       (∃ y, years (p_experience p) = Some y ∧ 0 ≤ y)
       ∧ (Forall (λ line, looks_like_name (Py.strip line) = false)
                 (take 10 (Py.split_lines text)) →
          name (p_basic_info p) = EmptyString)
       ∧ ((∀ pattern, pattern ∈ phone_patterns → search pattern text = None) →
          phone (p_basic_info p) = EmptyString)
       ∧ (search email_pattern text = None → email (p_basic_info p) = EmptyString)
       ∧ (Py.any_in location_keywords (Py.lower text) = false →
          location (p_basic_info p) = EmptyString)
       ∧ (∀ category keywords,
            (category, keywords) ∈ skill_keywords →
            (∀ k, k ∈ keywords → Py.contains k (Py.lower text) = false) →
            p_skills p !! category = Some [])
       ∧ p_skills p !! "other" = Some []
       ∧ (Py.any_in section_keywords (Py.lower text) = false →
          companies (p_experience p) = [] ∧ roles (p_experience p) = [])
       ∧ (Py.any_in education_keywords (Py.lower text) = false →
          p_education p = {| degree := EmptyString; university := EmptyString;
                             graduation_year := EmptyString |}))
  ∧ extract_info EmptyString
    = Ok {| p_basic_info := {| name := EmptyString; phone := EmptyString;
                               email := EmptyString; location := EmptyString |};
            p_skills := empty_skills;
            p_experience := {| years := Some 3; companies := []; roles := [] |};
            p_education := {| degree := EmptyString; university := EmptyString;
                              graduation_year := EmptyString |};
            p_summary := EmptyString |}.
Proof.
  split.
  { intros Hlen. destruct (extract_info_total text Hlen) as (y & _ & _ & ->).
    by eexists. }
  split; [|by vm_compute].
  intros p (y & _ & Hy & ->)%extract_info_ok.
  cbn [p_basic_info p_skills p_experience
    p_education years companies roles _extract_basic_info name phone email location].
  split; [exists y; split; [done|lia]|].
  split.
  { intros H. unfold extract_name. rewrite find_all_false; [done|].
    by apply Forall_fmap. }
  split; [apply extract_phone_none|].
  split.
  { intros H. unfold extract_email. by apply findall_nil in H as ->. }
  split; [apply extract_location_none|].
  split.
  { intros category keywords Hc Hk.
    by rewrite (extract_skills_lookup _ _ _ Hc), found_skills_none. }
  split; [apply extract_skills_other|].
  split; [|apply extract_education_none].
  intros H. by rewrite scan_sections_no_keyword.
Qed.

(** A text with nothing to find: every field is empty, the years are 3. *)
Lemma C9_extract_info_total_witness :
  ∃ p, extract_info "hello" = Ok p
    ∧ p_basic_info p = {| name := EmptyString; phone := EmptyString;
                          email := EmptyString; location := EmptyString |}
    ∧ p_skills p !! "programming" = Some []
    ∧ p_experience p = {| years := Some 3; companies := []; roles := [] |}
    ∧ p_education p = {| degree := EmptyString; university := EmptyString;
                         graduation_year := EmptyString |}.
Proof.
  destruct (C9_extract_info_total "hello") as (Hex & Hall & _).
  destruct Hex as [p Hp]; [by vm_compute|].
  destruct (Hall p Hp)
    as (Hy & Hname & Hphone & Hemail & Hloc & Hsk & _ & Hexp & Hedu).
  exists p. split; [exact Hp|].
  assert (years (p_experience p) = Some 3) as Hyears.
  { destruct (extract_info_total "hello") as (y & Hest & _ & Hinfo); [by vm_compute|].
    rewrite Hinfo in Hp. injection Hp as <-. simpl. f_equal.
    vm_compute in Hest. by injection Hest. }
  split.
  { destruct p as [[n ph em lo] ? ? ? ?]. simpl in *. f_equal.
    - apply Hname. repeat constructor.
    - apply Hphone. intros pattern Hin. unfold phone_patterns in Hin.
      repeat (apply elem_of_cons in Hin as [->|Hin]; [reflexivity|]).
      by apply elem_of_nil in Hin.
    - by apply Hemail.
    - by apply Hloc. }
  split.
  { apply (Hsk "programming" ["python"; "java"; "javascript"; "c++"; "c#"; "go";
                              "rust"; "php"; "ruby"; "swift"; "kotlin"]).
    - unfold skill_keywords. left.
    - intros k Hin.
      repeat (apply elem_of_cons in Hin as [->|Hin]; [reflexivity|]).
      by apply elem_of_nil in Hin. }
  split.
  { destruct (Hexp eq_refl) as [Hc Hr].
    destruct (p_experience p) as [ys cs rs]. simpl in *. by subst. }
  by apply Hedu.
Defined.

End Defaults.

(** ** The two scans for a required number of years (claim C3) *)

Section TwoScans.

Lemma explicit_years_found (patterns : list regex) (text : string) pattern m :
  pattern ∈ patterns → search pattern text = Some m →
  is_Some (explicit_years patterns text).
Proof.
  induction patterns as [|p patterns IH]; [by intros ?%elem_of_nil|].
  intros [->|Hp]%elem_of_cons Hm; simpl.
  - by rewrite Hm.
  - destruct (search p text); [done|by apply IH].
Qed.

Lemma explicit_years_none (patterns : list regex) (text : string) :
  (∀ pattern, pattern ∈ patterns → search pattern text = None) →
  explicit_years patterns text = None.
Proof.
  induction patterns as [|p patterns IH]; intros H; simpl; [done|].
  rewrite (H p); [|by left]. apply IH. intros p' Hp'. apply H. by right.
Qed.

Lemma tenure_tokens_none (text : string) :
  (∀ pattern, pattern ∈ years_patterns → search pattern text = None) →
  tenure_tokens text = [].
Proof.
  intros H. unfold tenure_tokens, years_patterns in *. cbn [omap list_omap].
  rewrite !H; [done|set_solver..].
Qed.

(** The claim as it is written fails. In "... 5+ years required" the matcher's
    scan reads 5 and the extractor's scan finds no figure; in "3-5 years" the
    matcher's scan reads 5 and the extractor's scan reads 3. *)
Lemma C3_counterexample :
  let jd := "Looking for a Senior Python Developer with AWS and Docker experience, 5+ years required" in
  explicit_years required_patterns (Py.lower jd) = Some (Some "5")
  ∧ _extract_years_required jd = Ok 5
  ∧ tenure_tokens (Py.lower jd) = []
  ∧ filter (λ token, is_tenure_token token = true) (_extract_job_keywords jd) = []
  ∧ explicit_years required_patterns (Py.lower "3-5 years") = Some (Some "5")
  ∧ _extract_years_required "3-5 years" = Ok 5
  ∧ tenure_tokens (Py.lower "3-5 years") = ["experience_3_years"]
  ∧ "experience_3_years" ∈ _extract_job_keywords "3-5 years".
Proof.
  repeat split; try by vm_compute.
  apply list_elem_of_In. vm_compute. auto.
Qed.

(** C3, amended. The two scans use different lists of patterns and agree only
    in part. The last pattern of both lists is the same range pattern "N-M
    years": when it matches, the extractor adds its token and the matcher's
    scan finds an explicit figure too. When the lowercased job description
    does not contain "year", neither scan finds a figure and the required
    years come from the level of the position. *)
Theorem C3_scans_agree_in_part (job_description : string) :
  let text := Py.lower job_description in
  last years_patterns = Some range_pattern
  ∧ last required_patterns = Some range_pattern
  ∧ (∀ m, search range_pattern text = Some m →
          experience_token (m_group m) ∈ tenure_tokens text
          ∧ experience_token (m_group m) ∈ _extract_job_keywords job_description
          ∧ is_Some (explicit_years required_patterns text))
  ∧ (Py.contains "year" text = false →
       tenure_tokens text = []
       ∧ explicit_years required_patterns text = None
       ∧ _extract_years_required job_description
         = Ok (ResumeMatcher.years_from_level text)).
Proof.
  intros text. split; [done|]. split; [done|]. split.
  - intros m Hm.
    assert (experience_token (m_group m) ∈ tenure_tokens text) as Htok.
    { apply list_elem_of_omap. exists range_pattern.
      split; [set_solver|]. by rewrite Hm. }
    split; [done|]. split.
    + unfold _extract_job_keywords, Py.list_set. fold text.
      apply elem_of_remove_dups, elem_of_app. by right.
    + apply (explicit_years_found _ _ range_pattern m); [set_solver|done].
  - intros Hno.
    assert (∀ pattern, pattern ∈ years_patterns ++ required_patterns →
                       search pattern text = None) as Hnone.
    { intros pattern Hp. apply (search_none_of_mentions "year"); [|done].
      revert pattern Hp. apply Forall_forall.
      repeat (apply List.Forall_cons; [reflexivity|]). apply List.Forall_nil. }
    assert (explicit_years required_patterns text = None) as Hreq.
    { apply explicit_years_none. intros p Hp. apply Hnone, elem_of_app. by right. }
    split; [|split; [done|]].
    + apply tenure_tokens_none. intros p Hp. apply Hnone, elem_of_app. by left.
    + unfold _extract_years_required. fold text. by rewrite Hreq.
Qed.

Lemma C3_scans_agree_in_part_witness :
  Py.contains "year" (Py.lower "Senior backend engineer") = false
  ∧ tenure_tokens (Py.lower "Senior backend engineer") = []
  ∧ _extract_years_required "Senior backend engineer" = Ok 5.
Proof.
  split; [reflexivity|].
  destruct (C3_scans_agree_in_part "Senior backend engineer")
    as (_ & _ & _ & H).
  destruct H as (H1 & _ & H3); [reflexivity|]. split; [exact H1|exact H3].
Defined.

End TwoScans.

(** ** The synthetic tokens of the job keywords (claim C8) *)

Section TenureTokens.

Lemma skip_digits_number (n : string) :
  Py.sforall Py.is_digit n = true → skip_digits (n +:+ "_years") = "_years".
Proof.
  induction n as [|c n IH]; [done|]. rewrite append_cons. simpl.
  intros [-> Hn]%andb_true_iff. by apply IH.
Qed.

Lemma is_tenure_token_number (n : string) :
  number n → is_tenure_token (experience_token (Some n)) = true.
Proof.
  intros [Hne Hn]. unfold is_tenure_token.
  change (experience_token (Some n)) with ("experience_" +:+ n +:+ "_years").
  assert (Py.strip_prefix "experience_" ("experience_" +:+ n +:+ "_years")
          = Some (n +:+ "_years")) as -> by by apply strip_prefix_spec.
  rewrite skip_digits_number by done.
  destruct n as [|c n]; [done|]. rewrite append_cons.
  simpl in Hn. apply andb_true_iff in Hn as [-> _]. done.
Qed.

(** A word made of letters is not such a token. *)
Lemma is_tenure_token_alpha (word : string) :
  Py.sforall Py.is_alpha word = true → is_tenure_token word = false.
Proof.
  intros H. unfold is_tenure_token.
  destruct (Py.strip_prefix "experience_" word) as [rest|] eqn:E; [|done].
  apply strip_prefix_spec in E as ->. by rewrite sforall_app in H.
Qed.

Lemma lower_char_alpha (c : ascii) :
  Py.is_alpha c = true → Py.is_alpha (Py.lower_char c) = true.
Proof. destruct c as [[] [] [] [] [] [] [] []]; by vm_compute. Qed.

Lemma lower_alpha (word : string) :
  Py.sforall Py.is_alpha word = true →
  Py.sforall Py.is_alpha (Py.lower word) = true.
Proof.
  induction word as [|c word IH]; [done|].
  cbn [Py.sforall Py.lower Py.smap]. intros [Hc Hw]%andb_true_iff.
  rewrite lower_char_alpha by done. by apply IH.
Qed.

Lemma camel_case_chars : chars_in Py.is_alpha camel_case.
Proof.
  cbn. unfold Py.is_alpha.
  repeat split; intros c Hc; rewrite Hc; by rewrite ?orb_true_r.
Qed.

Lemma all_caps_chars : chars_in Py.is_alpha all_caps.
Proof. cbn. unfold Py.is_alpha. repeat split; intros c Hc; by rewrite Hc. Qed.

(** The technical words of a job description are made of letters. *)
Lemma tech_words_alpha (job_description word : string) :
  word ∈ findall camel_case job_description ++ findall all_caps job_description →
  Py.sforall Py.is_alpha word = true.
Proof.
  intros [H|H]%elem_of_app.
  - by apply (findall_chars _ camel_case job_description); [|apply camel_case_chars|].
  - by apply (findall_chars _ all_caps job_description); [|apply all_caps_chars|].
Qed.

Lemma add_tech_words_elem (found words : list string) (x : string) :
  x ∈ add_tech_words found words →
  x ∈ found ∨ ∃ word, word ∈ words ∧ x = Py.lower word.
Proof.
  unfold add_tech_words. revert found.
  induction words as [|word words IH]; intros found; simpl; [by left|].
  intros [H|(w & Hw & ->)]%IH.
  - case_bool_decide; [by left|].
    apply elem_of_app in H as [H|H]; [by left|].
    apply list_elem_of_singleton in H as ->. right. exists word. split; [by left|done].
  - right. exists w. split; [by right|done].
Qed.

Lemma common_skills_not_tokens :
  Forall (λ skill, is_tenure_token skill = false) common_skills.
Proof. repeat (apply List.Forall_cons; [reflexivity|]). apply List.Forall_nil. Qed.

(** The tokens the scan adds are of the form [experience_<N>_years]. *)
Lemma tenure_tokens_form (text token : string) :
  token ∈ tenure_tokens text → is_tenure_token token = true.
Proof.
  intros (pattern & Hp & H)%list_elem_of_omap.
  destruct (search pattern text) as [m|] eqn:E; [|done].
  injection H as <-. apply search_from_run in E as (prev & s & Hm).
  pose proof years_patterns_groups as Hg.
  rewrite Forall_forall in Hg.
  destruct (sets_group_run _ _ _ _ _ (Hg _ Hp) Hm) as (g & -> & Hnum).
  by apply is_tenure_token_number.
Qed.

(** Such a token is among the job keywords only when the scan added it. *)
Lemma job_keywords_tokens (job_description token : string) :
  is_tenure_token token = true →
  token ∈ _extract_job_keywords job_description ↔
  token ∈ tenure_tokens (Py.lower job_description).
Proof.
  intros Htok. unfold _extract_job_keywords, Py.list_set.
  rewrite elem_of_remove_dups, elem_of_app. split; [|by right].
  intros [H|H]; [exfalso|done].
  apply add_tech_words_elem in H as [H|(word & Hw & ->)].
  - apply list_elem_of_filter in H as [_ H].
    pose proof common_skills_not_tokens as Hc. rewrite Forall_forall in Hc.
    rewrite (Hc _ H) in Htok. done.
  - apply subseteq_take, tech_words_alpha, lower_alpha, is_tenure_token_alpha in Hw.
    congruence.
Qed.

(** The claim as it is written fails: the loop over the patterns has no
    [break], so each pattern that matches adds its token; here the first and
    the third one do, with different numbers. *)
Lemma C8_counterexample :
  let keywords := _extract_job_keywords "5 years experience or 3-5 years in Go" in
  "experience_5_years" ∈ keywords
  ∧ "experience_3_years" ∈ keywords
  ∧ length (filter (λ token, is_tenure_token token = true) keywords) = 2%nat
  ∧ ¬ (length (filter (λ token, is_tenure_token token = true) keywords) ≤ 1)%nat.
Proof.
  assert (length (filter (λ token, is_tenure_token token = true)
                    (_extract_job_keywords "5 years experience or 3-5 years in Go"))
          = 2%nat) as Hlen by (by vm_compute).
  cbv zeta. rewrite Hlen.
  repeat split; [apply list_elem_of_In; vm_compute; auto..|lia].
Qed.

(** C8, amended. For every job description the job keywords contain at most
    three tokens of the form [experience_<N>_years]: exactly those of the
    patterns of the tenure scan that match, the token of a pattern being the
    number its first match captures (equal tokens are merged). *)
Theorem C8_tenure_tokens (job_description : string) :
  let text := Py.lower job_description in
  let keywords := _extract_job_keywords job_description in
  (∀ token, is_tenure_token token = true →
            (token ∈ keywords ↔
             ∃ pattern m, pattern ∈ years_patterns
                          ∧ search pattern text = Some m
                          ∧ token = experience_token (m_group m)))
  ∧ (∀ pattern m, pattern ∈ years_patterns → search pattern text = Some m →
                  is_tenure_token (experience_token (m_group m)) = true
                  ∧ experience_token (m_group m) ∈ keywords)
  ∧ (length (filter (λ token, is_tenure_token token = true) keywords) ≤ 3)%nat.
Proof.
  intros text keywords.
  assert (Hscan : ∀ token,
            token ∈ tenure_tokens text ↔
            ∃ pattern m, pattern ∈ years_patterns ∧ search pattern text = Some m
                         ∧ token = experience_token (m_group m)).
  { intros token. unfold tenure_tokens. rewrite list_elem_of_omap. split.
    - intros (pattern & Hp & H). destruct (search pattern text) as [m|] eqn:E; [|done].
      injection H as <-. by exists pattern, m.
    - intros (pattern & m & Hp & Hm & ->). exists pattern. by rewrite Hm. }
  split; [|split].
  - intros token Htok. subst keywords text.
    by rewrite job_keywords_tokens, Hscan.
  - intros pattern m Hp Hm.
    assert (experience_token (m_group m) ∈ tenure_tokens text) as Hin.
    { apply Hscan. by exists pattern, m. }
    pose proof (tenure_tokens_form _ _ Hin) as Htok. split; [done|].
    subst keywords text. by apply job_keywords_tokens.
  - transitivity (length (tenure_tokens text)).
    + apply submseteq_length, NoDup_submseteq.
      * apply NoDup_filter, NoDup_remove_dups.
      * intros token [Htok Hin]%list_elem_of_filter.
        by apply job_keywords_tokens in Hin.
    + unfold tenure_tokens, years_patterns. cbn [omap list_omap].
      repeat case_match; simpl; lia.
Qed.

Lemma C8_tenure_tokens_witness :
  is_tenure_token "experience_3_years" = true
  ∧ "experience_3_years" ∈ _extract_job_keywords "Backend role, 3-5 years".
Proof.
  split; [reflexivity|].
  destruct (C8_tenure_tokens "Backend role, 3-5 years") as (H & _ & _).
  apply H; [reflexivity|].
  exists range_pattern. eexists.
  split; [unfold years_patterns; do 2 right; left|]. split; by vm_compute.
Defined.

End TenureTokens.

(** ** More on the in-memory cache *)

Section CacheMore.

Import CacheManager.

Context {V : Type}.
Implicit Types (c : cache V) (k : string) (v : V) (op : call V).

(** The two dictionaries of a cache reached from the empty one have the same
    keys. *)
Lemma reached_same_keys (ops : list (call V)) :
  dom (memory_cache (steps (init (V:=V)) ops))
  = dom (cache_expiry (steps (init (V:=V)) ops)).
Proof.
  generalize (init (V:=V)) (eq_refl : dom (memory_cache (init (V:=V)))
                                      = dom (cache_expiry (init (V:=V)))).
  induction ops as [|op ops IH]; intros c Hc; [done|].
  apply IH. destruct op as [k' now|k' v' ttl now|k'|]; simpl.
  - unfold get. destruct (memory_cache c !! k'); [|done].
    destruct (Qlt_le_dec _ _); simpl; [done|].
    by rewrite !dom_delete_L, Hc.
  - by rewrite !dom_insert_L, Hc.
  - unfold delete_. destruct (memory_cache c !! k'); [|done]. simpl.
    by rewrite !dom_delete_L, Hc.
  - done.
Qed.


Lemma step_leaves_alone c k op :
  leaves_alone k op →
  memory_cache (step c op) !! k = memory_cache c !! k
  ∧ cache_expiry (step c op) !! k = cache_expiry c !! k.
Proof.
  intros (k' & Hk' & Hne).
  destruct op as [k0 now|k0 v' ttl now|k0|]; simpl in *; simplify_eq.
  - unfold get. destruct (memory_cache c !! k'); [|done].
    destruct (Qlt_le_dec _ _); simpl; [done|].
    by rewrite !lookup_delete_ne.
  - by rewrite !lookup_insert_ne.
  - unfold delete_. destruct (memory_cache c !! k'); [|done]. simpl.
    by rewrite !lookup_delete_ne.
Qed.

(** X2. Calls about other keys leave an entry as it is, value and expiry time:
    in particular nothing evicts an expired entry but a call about its own key
    or [clear], and a [get] after such calls answers as it would have before
    them. *)
Theorem X2_cache_other_keys (c : cache V) (k : string) (ops : list (call V)) :
  Forall (leaves_alone k) ops →
  memory_cache (steps c ops) !! k = memory_cache c !! k
  ∧ cache_expiry (steps c ops) !! k = cache_expiry c !! k
  ∧ ∀ now, (get (steps c ops) k now).1 = (get c k now).1.
Proof.
  intros Hops.
  assert (memory_cache (steps c ops) !! k = memory_cache c !! k
          ∧ cache_expiry (steps c ops) !! k = cache_expiry c !! k) as [Hm He].
  { revert c. induction Hops as [|op ops Hop _ IH]; intros c; [done|].
    simpl. destruct (IH (step c op)) as [-> ->].
    by apply step_leaves_alone. }
  split; [done|]. split; [done|].
  intros now. unfold get. rewrite Hm, He.
  destruct (memory_cache c !! k); [|done]. by destruct (Qlt_le_dec _ _).
Qed.

(** X3. [delete] answers [True] exactly when the key has a value; afterwards
    the key has no value and [get] misses; it has no expiry time either when
    [delete] answered [True], and in every cache reached from the empty one
    by calls of [get], [set], [delete] and [clear]; on a key without a value
    [delete] changes nothing. *)
Theorem X3_cache_delete (c : cache V) (k : string) :
  ((delete_ c k).1 = true ↔ is_Some (memory_cache c !! k))
  ∧ memory_cache (delete_ c k).2 !! k = None
  ∧ ((delete_ c k).1 = true → cache_expiry (delete_ c k).2 !! k = None)
  ∧ ((∃ ops, c = steps (init (V:=V)) ops) →
     cache_expiry (delete_ c k).2 !! k = None)
  ∧ (∀ now, get (delete_ c k).2 k now = (None, (delete_ c k).2))
  ∧ (memory_cache c !! k = None → delete_ c k = (false, c)).
Proof.
  unfold delete_. destruct (memory_cache c !! k) as [v|] eqn:E; simpl.
  - split; [by split; eauto|].
    split; [apply lookup_delete_eq|].
    split; [intros _; apply lookup_delete_eq|].
    split; [intros _; apply lookup_delete_eq|]. split; [|done].
    intros now. unfold get. simpl. by rewrite lookup_delete_eq.
  - split; [split; [done|by intros [? ?]]|].
    split; [done|]. split; [done|]. split.
    + intros [ops ->]. apply not_elem_of_dom. rewrite <- reached_same_keys.
      by apply not_elem_of_dom.
    + split; [|done]. intros now. unfold get. by rewrite E.
Qed.


End CacheMore.

Lemma X2_cache_other_keys_witness :
  let c := (CacheManager.set (CacheManager.init (V:=Z)) "a" 1%Z 1 0%Q).2 in
  let ops := [CacheManager.CallGet "b" 5%Q;
              CacheManager.CallSet "b" 2%Z 60 5%Q;
              CacheManager.CallDelete "c"] in
  CacheManager.memory_cache (CacheManager.steps c ops) !! "a" = Some 1%Z
  ∧ CacheManager.cache_expiry (CacheManager.steps c ops) !! "a"
    = Some (0 + inject_Z 1)%Q.
Proof.
  intros c ops.
  destruct (X2_cache_other_keys c "a" ops) as (Hm & He & _).
  { repeat apply List.Forall_cons; try apply List.Forall_nil;
      eexists; (split; [reflexivity|discriminate]). }
  rewrite Hm, He. split; apply lookup_insert_eq.
Defined.

Lemma X3_cache_delete_witness :
  let c := (CacheManager.set (CacheManager.init (V:=Z)) "k" 1%Z 60 0%Q).2 in
  (CacheManager.delete_ c "k").1 = true
  ∧ CacheManager.memory_cache (CacheManager.delete_ c "k").2 !! "k" = None
  ∧ CacheManager.cache_expiry (CacheManager.delete_ c "k").2 !! "k" = None
  ∧ CacheManager.delete_ (CacheManager.init (V:=Z)) "k" = (false, CacheManager.init).
Proof.
  intros c.
  destruct (X3_cache_delete c "k") as (Hd & Hm & He & _).
  destruct (X3_cache_delete (CacheManager.init (V:=Z)) "k") as (_ & _ & _ & _ & _ & H).
  assert ((CacheManager.delete_ c "k").1 = true) as Htrue
    by (apply Hd; eexists; apply lookup_insert_eq).
  split; [exact Htrue|]. split; [exact Hm|]. split; [exact (He Htrue)|].
  apply H. reflexivity.
Defined.


(** ** The scores of a match *)

Section MatchScores.

Local Open Scope Q_scope.

Lemma skill_score_between (resume_skills : gmap string (list string))
    (job_keywords : list string) :
  0 <= sm_score (_calculate_skill_match resume_skills job_keywords)
  ∧ sm_score (_calculate_skill_match resume_skills job_keywords) <= 10.
Proof.
  pose proof (length_filter
    (λ k, keyword_matches
            (Py.list_set (flat_map (λ cs, map Py.lower cs.2)
                                   (map_to_list resume_skills))) k)
    job_keywords) as Hlen.
  destruct (scaled_ratio _ _ 10 Hlen) as [H _];
    [lra|lra|by vm_compute|by vm_compute|].
  assert (sm_score (_calculate_skill_match resume_skills job_keywords)
          = py_round1 (Float.mul (float_ratio
              (length (matched_skills (_calculate_skill_match resume_skills job_keywords)))
              (length job_keywords)) 10)) as ->.
  { by destruct job_keywords. }
  exact H.
Qed.

Lemma raw_experience_score_between (required actual : Z) :
  0 <= raw_experience_score required actual
  ∧ raw_experience_score required actual <= 10.
Proof.
  unfold raw_experience_score.
  destruct (0 <? required)%Z eqn:Hr.
  - destruct (required <=? actual)%Z eqn:Hle; [split; lra|].
    destruct (0 <? actual)%Z eqn:Ha; [|split; lra].
    apply Z.ltb_lt in Hr, Ha. apply Z.leb_gt in Hle.
    split; [|apply Q.le_min_l].
    apply Q.min_glb; [lra|].
    destruct (div_int_between actual required ltac:(lia) ltac:(lia)) as [H0 _].
    apply float_mul_nonneg; lra.
  - repeat case_match; split; lra.
Qed.

Lemma experience_score_between (required actual : Z) :
  0 <= py_round1 (raw_experience_score required actual)
  ∧ py_round1 (raw_experience_score required actual) <= 10.
Proof.
  destruct (raw_experience_score_between required actual).
  apply py_round1_upto; [done|done|by vm_compute].
Qed.

Lemma text_similarity_between (resume_text job_text : string) :
  0 <= _calculate_text_similarity resume_text job_text
  ∧ _calculate_text_similarity resume_text job_text <= 10.
Proof.
  unfold _calculate_text_similarity.
  destruct (_ || _); [split; lra|].
  case_bool_decide as Hu; [split; lra|].
  destruct (div_int_between
              (Z.of_nat (size (word_set resume_text ∩ word_set job_text)))
              (Z.of_nat (size (word_set resume_text ∪ word_set job_text))))
    as [H0 H1].
  - split; [lia|]. apply Nat2Z.inj_le, subseteq_size.
    etrans; [apply intersection_subseteq_l|apply union_subseteq_l].
  - lia.
  - split; [apply float_mul_nonneg; lra|].
    apply Qle_trans with (Float.mul 1 10); [|by vm_compute].
    apply float_mul_mono; lra.
Qed.

(** The weighted sum of three scores between 0 and 10 is between 0 and 10. *)
Lemma weighted_sum_between (s e sim : Q) :
  0 <= s ∧ s <= 10 → 0 <= e ∧ e <= 10 → 0 <= sim ∧ sim <= 10 →
  0 <= Float.add (Float.add (Float.mul s weight_skill)
                            (Float.mul e weight_experience))
                 (similarity_term sim)
  ∧ Float.add (Float.add (Float.mul s weight_skill)
                         (Float.mul e weight_experience))
              (similarity_term sim) <= 10.
Proof.
  intros [Hs0 Hs1] [He0 He1] [Ht0 Ht1]. unfold similarity_term.
  assert (0 <= weight_skill) as Hws by (by vm_compute).
  assert (0 <= weight_experience) as Hwe by (by vm_compute).
  assert (0 <= weight_similarity) as Hwt by (by vm_compute).
  pose proof (float_mul_nonneg s _ Hs0 Hws) as H1.
  pose proof (float_mul_nonneg e _ He0 Hwe) as H2.
  pose proof (float_mul_nonneg sim _ Ht0 Hwt) as H3.
  pose proof (float_add_nonneg _ _ H1 H2) as H4.
  split; [by apply float_add_nonneg|].
  apply Qle_trans with
    (Float.add (Float.add (Float.mul 10 weight_skill)
                          (Float.mul 10 weight_experience))
               (Float.mul 10 weight_similarity)); [|by vm_compute].
  apply float_add_mono; [done| |done|].
  - apply float_add_mono; [done| |done|]; apply float_mul_mono; lra.
  - apply float_mul_mono; lra.
Qed.

Lemma overall_score_between (sm : skill_match) (em : experience_match) (sim : Q) :
  0 <= sm_score sm ∧ sm_score sm <= 10 →
  0 <= em_score em ∧ em_score em <= 10 →
  0 <= sim ∧ sim <= 10 →
  0 <= _calculate_overall_score sm em sim
  ∧ _calculate_overall_score sm em sim <= 10.
Proof.
  intros Hs He Ht. unfold _calculate_overall_score.
  destruct (weighted_sum_between _ _ _ Hs He Ht).
  apply py_round1_upto; [done|done|by vm_compute].
Qed.

(** Rounding the overall score a second time, as [match] does, changes
    nothing. *)
Lemma overall_score_rounded (sm : skill_match) (em : experience_match) (sim : Q) :
  0 <= sm_score sm ∧ sm_score sm <= 10 →
  0 <= em_score em ∧ em_score em <= 10 →
  0 <= sim ∧ sim <= 10 →
  py_round1 (_calculate_overall_score sm em sim) = _calculate_overall_score sm em sim.
Proof.
  intros Hs He Ht. unfold _calculate_overall_score.
  destruct (weighted_sum_between _ _ _ Hs He Ht).
  by apply py_round1_idem.
Qed.

(** The similarity [match] uses is between 0 and 10. *)
Lemma similarity_between (use_ai : bool) (summary job_text : string) :
  0 <= (if use_ai then _calculate_text_similarity summary job_text
        else default_similarity)
  ∧ (if use_ai then _calculate_text_similarity summary job_text
     else default_similarity) <= 10.
Proof. destruct use_ai; [apply text_similarity_between|split; by vm_compute]. Qed.

(** X5. [match] returns when the job description has no run of more than 4300
    digits and the number of years has at most 4300 digits; all the scores of
    a result it returns, the overall score included, lie between 0 and 10,
    and the result has at most 20 job keywords. *)
Theorem X5_match_total_bounded (resume_info : profile) (job_description : string)
    (use_ai : bool) :
  ((Z.of_nat (longest_digit_run job_description) ≤ int_max_str_digits)%Z →
   (Z.abs (default 0 (years (p_experience resume_info))) < 10 ^ int_max_str_digits)%Z →
   ∃ r, match_ resume_info job_description use_ai = Ok r)
  ∧ ∀ r, match_ resume_info job_description use_ai = Ok r →
      (0 <= overall_score r ∧ overall_score r <= 10)
      ∧ (0 <= sm_score (mr_skill_match r) ∧ sm_score (mr_skill_match r) <= 10)
      ∧ (0 <= em_score (mr_experience_match r)
         ∧ em_score (mr_experience_match r) <= 10)
      ∧ (0 <= text_similarity r ∧ text_similarity r <= 10)
      ∧ (length (job_keywords r) ≤ 20)%nat.
Proof.
  split; [apply match_total|].
  intros r (em & (req & _ & _ & _ & ->)%calculate_experience_match_ok & ->)%match_ok.
  cbv zeta.
  cbn [overall_score mr_skill_match mr_experience_match text_similarity
       job_keywords].
  set (sm := _calculate_skill_match _ _).
  set (em := {| years_required := req |}).
  pose proof (similarity_between use_ai (p_summary resume_info)
                (Py.take 500 job_description)) as Hsim.
  set (sim := if use_ai then _ else _) in *.
  assert (0 <= sm_score sm ∧ sm_score sm <= 10) as Hsm
    by apply skill_score_between.
  assert (0 <= em_score em ∧ em_score em <= 10) as Hem'
    by apply experience_score_between.
  destruct (overall_score_between sm em sim Hsm Hem' Hsim).
  split; [apply py_round1_upto; [done|done|by vm_compute]|].
  split; [done|]. split; [done|].
  split; [destruct Hsim; apply py_round1_upto; [done|done|by vm_compute]|].
  rewrite length_take. lia.
Qed.

(** X6. What [match] returns is consistent: the recommendation is the tier of
    the overall score reported beside it, and the first line of the feedback
    is the line of that tier; the feedback has between three and five lines. *)
Theorem X6_match_consistent (resume_info : profile) (job_description : string)
    (use_ai : bool) (r : match_result) :
  match_ resume_info job_description use_ai = Ok r →
  recommendation r = _get_recommendation (overall_score r)
  ∧ ∃ headline rest,
      feedback r = headline :: rest
      ∧ (headline = OverallExcellent ↔ recommendation r = strongly_recommend)
      ∧ (headline = OverallGood ↔ recommendation r = recommend)
      ∧ (headline = OverallMedium ↔ recommendation r = consider)
      ∧ (headline = OverallLow ↔ recommendation r = not_recommended)
      ∧ (2 ≤ length rest ≤ 4)%nat.
Proof.
  intros (em & (req & _ & _ & _ & ->)%calculate_experience_match_ok & ->)%match_ok.
  cbv zeta. cbn [overall_score recommendation feedback].
  set (sm := _calculate_skill_match _ _).
  set (em := {| years_required := req |}).
  pose proof (similarity_between use_ai (p_summary resume_info)
                (Py.take 500 job_description)) as Hsim.
  set (sim := if use_ai then _ else _) in *.
  split.
  { rewrite overall_score_rounded; [done|apply skill_score_between|
      apply experience_score_between|done]. }
  set (overall := _calculate_overall_score sm em sim).
  unfold _generate_feedback, _get_recommendation.
  eexists _, _. split; [reflexivity|].
  split; [|split; [|split; [|split]]].
  1-4: destruct (Qgeb overall (85 # 10)), (Qgeb overall 7), (Qgeb overall 5);
    split; intros; try discriminate; reflexivity.
  rewrite !length_app.
  destruct (Qgeb (percentage sm) 80), (Qgeb (percentage sm) 60),
    (Qgeb overall 7), (missing_skills sm); simpl; lia.
Qed.

End MatchScores.

Lemma X5_match_total_bounded_witness :
  ∃ r, match_ {| p_basic_info := BasicInfo "" "" "" "";
                 p_skills := {["programming" := ["Python"]]};
                 p_experience := Experience (Some 2%Z) [] [];
                 p_education := Education "" "" "";
                 p_summary := "python developer" |}
              "Python developer, 3 years" true = Ok r
    ∧ (0 <= overall_score r ∧ overall_score r <= 10)%Q.
Proof.
  destruct (X5_match_total_bounded
              {| p_basic_info := BasicInfo "" "" "" "";
                 p_skills := {["programming" := ["Python"]]};
                 p_experience := Experience (Some 2%Z) [] [];
                 p_education := Education "" "" "";
                 p_summary := "python developer" |}
              "Python developer, 3 years" true) as [Hex Hall].
  destruct Hex as [r Hr]; [by vm_compute|by vm_compute|].
  exists r. split; [exact Hr|]. by destruct (Hall r Hr) as (H & _).
Defined.

Lemma X6_match_consistent_witness :
  ∃ r, match_ {| p_basic_info := BasicInfo "" "" "" "";
                 p_skills := {["programming" := ["Python"]]};
                 p_experience := Experience (Some 2%Z) [] [];
                 p_education := Education "" "" "";
                 p_summary := "python developer" |}
              "Python developer, 3 years" true = Ok r
    ∧ recommendation r = _get_recommendation (overall_score r).
Proof.
  destruct (match_ {| p_basic_info := BasicInfo "" "" "" "";
                      p_skills := {["programming" := ["Python"]]};
                      p_experience := Experience (Some 2%Z) [] [];
                      p_education := Education "" "" "";
                      p_summary := "python developer" |}
                   "Python developer, 3 years" true) as [r|e] eqn:E.
  - exists r. split; [reflexivity|].
    by destruct (X6_match_consistent _ _ _ r E) as (H & _).
  - vm_compute in E. discriminate E.
Defined.

(** ** More on the skill match *)

Section SkillMatchMore.

Local Open Scope Q_scope.

(** The lowercased skills of a profile, as [_calculate_skill_match] collects
    them. *)
Lemma all_resume_skills_elem (resume_skills : gmap string (list string)) (x : string) :
  x ∈ Py.list_set (flat_map (λ cs, map Py.lower cs.2) (map_to_list resume_skills))
  ↔ ∃ category skills skill,
      resume_skills !! category = Some skills ∧ skill ∈ skills ∧ x = Py.lower skill.
Proof.
  unfold Py.list_set. rewrite elem_of_remove_dups.
  change (flat_map (λ cs : string * list string, map Py.lower cs.2)
                   (map_to_list resume_skills))
    with (map_to_list resume_skills ≫= λ cs, Py.lower <$> cs.2).
  rewrite list_elem_of_bind. split.
  - intros ([category skills] & Hx & Hin). simpl in Hx.
    apply list_elem_of_fmap in Hx as (skill & -> & Hs).
    apply elem_of_map_to_list in Hin. by exists category, skills, skill.
  - intros (category & skills & skill & Hl & Hs & ->).
    exists (category, skills). split.
    + simpl. apply list_elem_of_fmap. by exists skill.
    + by apply elem_of_map_to_list.
Qed.

Lemma missing_is_complement (P : string → bool) (keywords l : list string) :
  l ⊆ keywords →
  filter (λ k, bool_decide (k ∉ filter (λ k, P k) keywords)) l
  = filter (λ k, ¬ P k) l.
Proof.
  induction l as [|k l IH]; intros Hl; [done|].
  rewrite !filter_cons, IH by set_solver.
  assert (k ∈ keywords) as Hk by set_solver.
  destruct (decide (P k)) as [HP|HP].
  - rewrite decide_False; [by rewrite decide_False by auto|].
    intros Hn%bool_decide_unpack. apply Hn, list_elem_of_filter. done.
  - rewrite decide_True; [by rewrite decide_True by auto|].
    apply bool_decide_pack. intros [? ?]%list_elem_of_filter. done.
Qed.

(** X7. The matched and the missing skills split the job keywords: together
    they are the keywords, each as often as it is listed; both keep the order
    of the keywords; a keyword is in exactly one of the two. *)
Theorem X7_skill_match_partition (resume_skills : gmap string (list string))
    (job_keywords : list string) :
  let r := _calculate_skill_match resume_skills job_keywords in
  matched_skills r ++ missing_skills r ≡ₚ job_keywords
  ∧ sublist (matched_skills r) job_keywords
  ∧ sublist (missing_skills r) job_keywords
  ∧ (length (matched_skills r) + length (missing_skills r)
     = length job_keywords)%nat
  ∧ ∀ k, k ∈ job_keywords → (k ∈ matched_skills r ↔ k ∉ missing_skills r).
Proof.
  intros r. subst r. cbn [_calculate_skill_match matched_skills missing_skills].
  set (P := keyword_matches _).
  rewrite (missing_is_complement P job_keywords job_keywords) by done.
  assert (Hperm : filter (λ k, P k) job_keywords ++ filter (λ k, ¬ P k) job_keywords
                  ≡ₚ job_keywords) by apply filter_app_complement.
  split; [done|]. split; [apply sublist_filter|]. split; [apply sublist_filter|].
  split; [by rewrite <- length_app, Hperm|].
  intros k Hk. rewrite !list_elem_of_filter. split; [tauto|].
  intros Hn. destruct (decide (P k)); [done|]. exfalso. by apply Hn.
Qed.

Lemma contains_empty (s : string) : Py.contains "" s = true.
Proof. by destruct s. Qed.

(** X8. Two edges of the skill match. A profile without any skill matches no
    keyword: all the keywords are missing and the percentage and the score are
    0. A profile that lists the empty string as a skill matches every keyword:
    none is missing and, when there are keywords, the percentage is 100 and the
    score 10. *)
Theorem X8_skill_match_edges (resume_skills : gmap string (list string))
    (job_keywords : list string) :
  let r := _calculate_skill_match resume_skills job_keywords in
  ((∀ category skills, resume_skills !! category = Some skills → skills = []) →
   matched_skills r = [] ∧ missing_skills r = job_keywords
   ∧ percentage r == 0 ∧ sm_score r == 0)
  ∧ ((∃ category skills, resume_skills !! category = Some skills ∧ "" ∈ skills) →
     matched_skills r = job_keywords ∧ missing_skills r = []
     ∧ (job_keywords ≠ [] → percentage r == 100 ∧ sm_score r == 10)).
Proof.
  intros r. subst r.
  set (all := Py.list_set (flat_map (λ cs, map Py.lower cs.2)
                                    (map_to_list resume_skills))).
  assert (Hmatched : matched_skills (_calculate_skill_match resume_skills job_keywords)
                     = filter (λ k, keyword_matches all k) job_keywords) by done.
  assert (Hmissing : missing_skills (_calculate_skill_match resume_skills job_keywords)
                     = filter (λ k, ¬ keyword_matches all k) job_keywords).
  { cbn [_calculate_skill_match missing_skills]. fold all.
    by apply missing_is_complement. }
  split.
  - intros Hnone.
    assert (all = []) as Hall.
    { destruct all as [|x l] eqn:E; [done|]. exfalso.
      assert (x ∈ all) as Hx by (rewrite E; left).
      apply all_resume_skills_elem in Hx as (c & ss & s & Hl & Hs & _).
      rewrite (Hnone _ _ Hl) in Hs. by apply elem_of_nil in Hs. }
    assert (filter (λ k, keyword_matches all k) job_keywords = []) as Hm.
    { rewrite Hall. clear. induction job_keywords as [|k l IH]; [done|].
      rewrite filter_cons. by rewrite decide_False by (simpl; auto). }
    assert (filter (λ k, ¬ keyword_matches all k) job_keywords = job_keywords) as Hn.
    { rewrite Hall. clear. induction job_keywords as [|k l IH]; [done|].
      rewrite filter_cons. rewrite decide_True by (simpl; auto). by rewrite IH. }
    rewrite Hmatched, Hmissing, Hm, Hn. split; [done|]. split; [done|].
    cbn [_calculate_skill_match percentage sm_score]. fold all. rewrite Hm.
    destruct job_keywords as [|k l]; [split; by vm_compute|].
    assert (Float.div_int (Z.of_nat (length (@nil string)))
                          (Z.of_nat (length (k :: l))) = 0) as ->.
    { apply rnd_zero. change (inject_Z (Z.of_nat (length (@nil string)))) with 0.
      unfold Qdiv. ring. }
    split; by vm_compute.
  - intros (category & skills & Hl & Hin).
    assert ("" ∈ all) as Hall.
    { apply all_resume_skills_elem. by exists category, skills, "". }
    assert (∀ k, keyword_matches all k = true) as Hany.
    { intros k. unfold keyword_matches. apply existsb_exists.
      exists "". split; [by apply list_elem_of_In|].
      rewrite contains_empty. apply orb_true_r. }
    assert (filter (λ k, keyword_matches all k) job_keywords = job_keywords) as Hm.
    { clear -Hany. induction job_keywords as [|k l IH]; [done|].
      rewrite filter_cons, decide_True by (by rewrite Hany). by rewrite IH. }
    assert (filter (λ k, ¬ keyword_matches all k) job_keywords = []) as Hn.
    { clear -Hany. induction job_keywords as [|k l IH]; [done|].
      rewrite filter_cons, decide_False; [done|]. rewrite Hany. auto. }
    rewrite Hmatched, Hmissing, Hm, Hn. split; [done|]. split; [done|].
    intros Hne. cbn [_calculate_skill_match percentage sm_score]. fold all.
    rewrite Hm. destruct job_keywords as [|k l]; [done|].
    set (n := inject_Z (Z.of_nat (length (k :: l)))).
    assert (0 < n) as Hn0.
    { subst n. change 0 with (inject_Z 0). rewrite <- Zlt_Qlt. simpl. lia. }
    assert (n / n == 1) as Hone by (field; lra).
    assert (Float.div_int (Z.of_nat (length (k :: l)))
                          (Z.of_nat (length (k :: l))) = 1) as ->.
    { unfold Float.div_int. fold n. rewrite (rnd_comp _ 1 Hone). by vm_compute. }
    split; by vm_compute.
Qed.

Lemma X8_skill_match_edges_witness :
  percentage (_calculate_skill_match {["other" := []]} ["python"; "aws"]) == 0
  ∧ matched_skills (_calculate_skill_match {["other" := [""]]} ["python"; "aws"])
    = ["python"; "aws"]
  ∧ percentage (_calculate_skill_match {["other" := [""]]} ["python"; "aws"]) == 100.
Proof.
  destruct (X8_skill_match_edges {["other" := []]} ["python"; "aws"]) as [H1 _].
  destruct (X8_skill_match_edges {["other" := [""]]} ["python"; "aws"]) as [_ H2].
  destruct H1 as (_ & _ & H1 & _).
  { intros category skills H. by apply lookup_singleton_Some in H as [_ <-]. }
  destruct H2 as (H2 & _ & H3).
  { exists "other", [""]. split; [apply lookup_singleton_eq|left]. }
  destruct H3 as [H3 _]; [done|]. by split; [|split].
Defined.

End SkillMatchMore.

(** ** More on the experience match and the text similarity *)

Section ExperienceMore.

Local Open Scope Q_scope.

Lemma raw_experience_score_mono (required a a' : Z) :
  (a ≤ a')%Z →
  raw_experience_score required a <= raw_experience_score required a'.
Proof.
  intros Ha.
  destruct (raw_experience_score_between required a) as [Hlo Hhi].
  destruct (raw_experience_score_between required a') as [Hlo' Hhi'].
  revert Hlo Hhi Hlo' Hhi'. unfold raw_experience_score.
  destruct (Z.ltb_spec 0 required) as [Hr|Hr].
  - destruct (Z.leb_spec required a), (Z.leb_spec required a'); try lia; try lra.
    destruct (Z.ltb_spec 0 a), (Z.ltb_spec 0 a'); try lia; try lra.
    intros _ _ _ _. apply Q.min_le_compat_l.
    destruct (div_int_between a required ltac:(lia) ltac:(lia)) as [Hdiv _].
    apply float_mul_mono; [done| |lra|lra].
    apply div_int_mono; lia.
  - destruct (Z.leb_spec 8 a), (Z.leb_spec 8 a'), (Z.leb_spec 5 a),
      (Z.leb_spec 5 a'), (Z.leb_spec 3 a), (Z.leb_spec 3 a'),
      (Z.leb_spec 1 a), (Z.leb_spec 1 a'); try lia; lra.
Qed.

(** X9. More years never lower the experience score: for one job description,
    of two records for which [_calculate_experience_match] returns, the one
    with at least as many years as the other gets at least its score, and the
    score lies between 0 and 10 whatever the years are. *)
Theorem X9_experience_score_monotone (e e' : experience) (job_description : string)
    (em em' : experience_match) :
  (default 0 (years e) ≤ default 0 (years e'))%Z →
  _calculate_experience_match e job_description = Ok em →
  _calculate_experience_match e' job_description = Ok em' →
  years_required em = years_required em'
  ∧ em_score em <= em_score em'
  ∧ 0 <= em_score em ∧ em_score em' <= 10.
Proof.
  intros Hle (req & Hreq & _ & _ & ->)%calculate_experience_match_ok
    (req' & Hreq' & _ & _ & ->)%calculate_experience_match_ok.
  assert (req' = req) as -> by congruence.
  cbn [years_required em_score]. split; [done|].
  destruct (raw_experience_score_between req (default 0%Z (years e))).
  split; [by apply py_round1_mono, raw_experience_score_mono|].
  split; [apply experience_score_between|apply experience_score_between].
Qed.

Lemma X9_experience_score_monotone_witness :
  ∃ em em',
    _calculate_experience_match {| years := Some 2%Z; companies := []; roles := [] |}
      "5+ years of Python" = Ok em
    ∧ _calculate_experience_match {| years := Some 4%Z; companies := []; roles := [] |}
        "5+ years of Python" = Ok em'
    ∧ em_score em <= em_score em'.
Proof.
  destruct (_calculate_experience_match
              {| years := Some 2%Z; companies := []; roles := [] |}
              "5+ years of Python") as [em|x] eqn:E;
    [|vm_compute in E; discriminate E].
  destruct (_calculate_experience_match
              {| years := Some 4%Z; companies := []; roles := [] |}
              "5+ years of Python") as [em'|x] eqn:E';
    [|vm_compute in E'; discriminate E'].
  exists em, em'. split; [reflexivity|]. split; [reflexivity|].
  assert (default 0 (years {| years := Some 2%Z; companies := []; roles := [] |})
          ≤ default 0 (years {| years := Some 4%Z; companies := []; roles := [] |}))%Z
    as Hle by (simpl; lia).
  destruct (X9_experience_score_monotone _ _ _ em em' Hle E E') as (_ & H & _).
  exact H.
Defined.

Lemma words_inter_comm (A B : gset string) : A ∩ B = B ∩ A.
Proof. apply (comm_L (A:=gset string) intersection). Qed.

Lemma words_union_comm (A B : gset string) : A ∪ B = B ∪ A.
Proof. apply (comm_L (A:=gset string) union). Qed.

Lemma words_inter_idemp (A : gset string) : A ∩ A = A.
Proof. apply (idemp_L (A:=gset string) intersection). Qed.

Lemma words_union_idemp (A : gset string) : A ∪ A = A.
Proof. apply (idemp_L (A:=gset string) union). Qed.

Lemma split_ws_blank (t : string) :
  Py.sforall Py.is_space t = true → Py.split_ws (Py.lower t) = [].
Proof.
  unfold Py.split_ws, Py.lower. induction t as [|c t IH]; [done|].
  cbn [Py.sforall Py.smap Py.split_ws_go].
  intros [Hc Ht]%andb_true_iff.
  assert (Py.is_space (Py.lower_char c) = true) as ->.
  { revert Hc. destruct c as [[] [] [] [] [] [] [] []]; by vm_compute. }
  by apply IH.
Qed.

(** X10. The text similarity does not depend on the order of its two texts
    and lies between 0 and 10; it is 0 when one of the texts is empty or white
    space only, and 10 when the two texts have the same set of lowercased
    words, not empty. *)
Theorem X10_text_similarity (resume_text job_text : string) :
  _calculate_text_similarity resume_text job_text
  = _calculate_text_similarity job_text resume_text
  ∧ (0 <= _calculate_text_similarity resume_text job_text
     ∧ _calculate_text_similarity resume_text job_text <= 10)
  ∧ (Py.sforall Py.is_space resume_text = true
     ∨ Py.sforall Py.is_space job_text = true →
     _calculate_text_similarity resume_text job_text = 0)
  ∧ (word_set resume_text = word_set job_text → word_set resume_text ≠ ∅ →
     _calculate_text_similarity resume_text job_text == 10).
Proof.
  split; [|split; [apply text_similarity_between|split]].
  - unfold _calculate_text_similarity.
    rewrite (orb_comm (bool_decide (word_set resume_text = ∅))).
    by rewrite (words_inter_comm (word_set resume_text)),
      (words_union_comm (word_set resume_text)).
  - unfold _calculate_text_similarity, word_set.
    intros [H|H]; rewrite (split_ws_blank _ H); simpl; [done|].
    by rewrite orb_true_r.
  - intros Heq Hne. unfold _calculate_text_similarity. rewrite <- Heq.
    rewrite words_inter_idemp, words_union_idemp, orb_diag.
    rewrite bool_decide_eq_false_2 by done.
    case_bool_decide as Hs.
    { exfalso. apply Hne. by apply leibniz_equiv, size_empty_iff. }
    set (n := inject_Z (Z.of_nat (size (word_set resume_text)))).
    assert (0 < n) as Hn0.
    { subst n. change 0 with (inject_Z 0). rewrite <- Zlt_Qlt. lia. }
    assert (n / n == 1) as Hone by (field; lra).
    unfold Float.div_int. fold n. rewrite (rnd_comp _ 1 Hone). by vm_compute.
Qed.

Lemma X10_text_similarity_witness :
  _calculate_text_similarity "   " "Python developer" = 0
  ∧ _calculate_text_similarity "Python developer" "developer  PYTHON python" == 10.
Proof.
  destruct (X10_text_similarity "   " "Python developer") as (_ & _ & H0 & _).
  destruct (X10_text_similarity "Python developer" "developer  PYTHON python")
    as (_ & _ & _ & H10).
  split; [apply H0; by left|].
  apply H10; [by vm_compute|]. intros H.
  assert ("python" ∈ word_set "Python developer") as Hin.
  { apply elem_of_list_to_set, list_elem_of_In. vm_compute. auto. }
  rewrite H in Hin. by apply not_elem_of_empty in Hin.
Defined.

End ExperienceMore.

(** ** More on the job keywords *)

Section JobKeywords.

Implicit Types (r : regex) (prev : option ascii) (s w : string) (m : mres).

Lemma startswith_refl s : Py.startswith s s = true.
Proof.
  unfold Py.startswith.
  assert (Py.strip_prefix s s = Some EmptyString) as ->; [|done].
  apply strip_prefix_spec. by rewrite append_nil_r.
Qed.

(** A text contains each of its parts. *)
Lemma contains_middle (a w b : string) : Py.contains w (a +:+ w +:+ b) = true.
Proof.
  apply contains_app_r, contains_app_l.
  destruct w; simpl; [done|]. by rewrite startswith_refl.
Qed.

(** What [findall] goes through are parts of the text. *)
Lemma matches_from_part r prev skip s m :
  m ∈ matches_from r prev skip s → ∃ a b, s = a +:+ m_text m +:+ b.
Proof.
  revert prev skip. induction s as [|c s IH]; intros prev skip; cbn [matches_from].
  - destruct skip; [|by intros ?%elem_of_nil].
    destruct (run r prev "") as [|m' l] eqn:E; [by intros ?%elem_of_nil|].
    intros Hm%list_elem_of_singleton. subst m'. exists "", (m_rest m).
    apply (run_prefix r prev). rewrite E. left.
  - assert (∀ prev' skip', m ∈ matches_from r prev' skip' s →
                           ∃ a b, String c s = a +:+ m_text m +:+ b) as Hrec.
    { intros prev' skip' (a & b & ->)%IH. by exists (String c a), b. }
    destruct skip; [|apply Hrec].
    destruct (run r prev (String c s)) as [|m' l] eqn:E; [apply Hrec|].
    intros [Hm|H]%elem_of_cons; [subst m'|by eapply Hrec].
    exists "", (m_rest m). apply (run_prefix r prev). rewrite E. left.
Qed.

Lemma findall_part r s w :
  has_group r = false → w ∈ findall r s → ∃ a b, s = a +:+ w +:+ b.
Proof.
  unfold findall. intros -> (m & -> & Hm)%list_elem_of_fmap.
  by eapply matches_from_part.
Qed.

Lemma lower_char_idem (c : ascii) : Py.lower_char (Py.lower_char c) = Py.lower_char c.
Proof. destruct c as [[] [] [] [] [] [] [] []]; by vm_compute. Qed.

Lemma lower_idem s : Py.lower (Py.lower s) = Py.lower s.
Proof.
  unfold Py.lower. induction s as [|c s IH]; [done|].
  cbn [Py.smap]. by rewrite lower_char_idem, IH.
Qed.

Lemma lower_char_digit (c : ascii) : Py.is_digit c = true → Py.lower_char c = c.
Proof. destruct c as [[] [] [] [] [] [] [] []]; by vm_compute. Qed.

Lemma lower_number s : Py.sforall Py.is_digit s = true → Py.lower s = s.
Proof.
  unfold Py.lower. induction s as [|c s IH]; [done|].
  cbn [Py.smap Py.sforall]. intros [Hc Hs]%andb_true_iff.
  by rewrite lower_char_digit, IH.
Qed.

Lemma tenure_tokens_lower (text token : string) :
  token ∈ tenure_tokens text → Py.lower token = token.
Proof.
  intros (pattern & Hp & H)%list_elem_of_omap.
  destruct (search pattern text) as [m|] eqn:E; [|done].
  injection H as <-. apply search_from_run in E as (prev & s & Hm).
  pose proof years_patterns_groups as Hg. rewrite Forall_forall in Hg.
  destruct (sets_group_run _ _ _ _ _ (Hg _ Hp) Hm) as (g & -> & _ & Hnum).
  change (experience_token (Some g)) with ("experience_" +:+ g +:+ "_years").
  unfold Py.lower. rewrite !smap_app.
  change (Py.smap Py.lower_char g) with (Py.lower g).
  rewrite (lower_number g Hnum). reflexivity.
Qed.

Lemma add_tech_words_found (found words : list string) (x : string) :
  x ∈ found → x ∈ add_tech_words found words.
Proof.
  unfold add_tech_words. revert found.
  induction words as [|word words IH]; intros found Hx; simpl; [done|].
  apply IH. case_bool_decide; [done|]. apply elem_of_app. by left.
Qed.

Lemma common_skills_lower : Forall (λ skill, Py.lower skill = skill) common_skills.
Proof. repeat (apply List.Forall_cons; [reflexivity|]). apply List.Forall_nil. Qed.

(** X11. The job keywords have no duplicates and are all in lower case; a
    keyword that is not a token [experience_<N>_years] occurs in the
    lowercased job description; a skill of the vocabulary is a keyword exactly
    when it occurs in the lowercased job description. *)
Theorem X11_job_keywords (job_description : string) :
  let keywords := _extract_job_keywords job_description in
  NoDup keywords
  ∧ (∀ k, k ∈ keywords → Py.lower k = k)
  ∧ (∀ k, k ∈ keywords →
          is_tenure_token k = true
          ∨ Py.contains k (Py.lower job_description) = true)
  ∧ (∀ skill, skill ∈ common_skills →
              (skill ∈ keywords ↔
               Py.contains skill (Py.lower job_description) = true)).
Proof.
  intros keywords.
  assert (Hcases : ∀ k, k ∈ keywords →
            (k ∈ common_skills ∧ Py.contains k (Py.lower job_description) = true)
            ∨ (∃ word a b, k = Py.lower word
                           ∧ job_description = a +:+ word +:+ b)
            ∨ k ∈ tenure_tokens (Py.lower job_description)).
  { intros k. unfold keywords, _extract_job_keywords, Py.list_set.
    rewrite elem_of_remove_dups, elem_of_app.
    intros [H|H]; [|by right; right].
    apply add_tech_words_elem in H as [H|(word & Hw & ->)].
    - left. apply list_elem_of_filter in H as [Hc Hin].
      split; [done|]. by destruct (Py.contains k _).
    - right; left. apply subseteq_take in Hw.
      apply elem_of_app in Hw as [Hw|Hw];
        apply findall_part in Hw as (a & b & ->); try done;
        by exists word, a, b. }
  assert (Hocc : ∀ k, k ∈ keywords →
            is_tenure_token k = true
            ∨ Py.contains k (Py.lower job_description) = true).
  { intros k [[_ H]|[(word & a & b & -> & ->)|H]]%Hcases.
    - by right.
    - right. unfold Py.lower. rewrite !smap_app. apply contains_middle.
    - left. by eapply tenure_tokens_form. }
  split; [apply NoDup_remove_dups|]. split; [|split; [done|]].
  - intros k [[H _]|[(word & a & b & -> & _)|H]]%Hcases.
    + pose proof common_skills_lower as Hl. rewrite Forall_forall in Hl. auto.
    + apply lower_idem.
    + by eapply tenure_tokens_lower.
  - intros skill Hs. split.
    + intros [Htok|H]%Hocc; [|done].
      pose proof common_skills_not_tokens as Hc. rewrite Forall_forall in Hc.
      rewrite (Hc _ Hs) in Htok. done.
    + intros Hc. unfold keywords, _extract_job_keywords, Py.list_set.
      apply elem_of_remove_dups, elem_of_app. left.
      apply add_tech_words_found, list_elem_of_filter. by rewrite Hc.
Qed.

End JobKeywords.

(** ** More on the extractor: skills, experience section, summary *)

Section ExtractorMore.

(** X12. The skills dictionary has exactly the seven categories. For each of
    the six categories with keywords, the skills found have no duplicates and
    are the keywords of the category that occur in the lowercased text, in
    title case; "other" is always empty. *)
Theorem X12_extract_skills (text : string) :
  dom (_extract_skills text)
  = list_to_set ["programming"; "web"; "databases"; "cloud"; "ai_ml";
                 "soft_skills"; "other"]
  ∧ _extract_skills text !! "other" = Some []
  ∧ ∀ category keywords,
      (category, keywords) ∈ skill_keywords →
      ∃ found,
        _extract_skills text !! category = Some found
        ∧ NoDup found
        ∧ ∀ x, x ∈ found ↔
               ∃ k, k ∈ keywords ∧ Py.contains k (Py.lower text) = true
                    ∧ x = Py.title k.
Proof.
  split; [|split; [apply extract_skills_other|]].
  - unfold _extract_skills, skill_keywords. cbn [foldl fst snd].
    rewrite !dom_insert_L. unfold empty_skills. rewrite dom_list_to_map_L.
    cbn [fmap list_fmap fst list_to_set foldr]. set_solver.
  - intros category keywords Hc. eexists.
    split; [by apply extract_skills_lookup|].
    split; [apply NoDup_remove_dups|].
    intros x. unfold Py.list_set, found_skills.
    rewrite elem_of_remove_dups, list_elem_of_fmap. split.
    + intros (k & -> & [Hk Hin]%list_elem_of_filter). exists k.
      split; [done|]. split; [|done]. by destruct (Py.contains k _).
    + intros (k & Hin & Hk & ->). exists k. split; [done|].
      apply list_elem_of_filter. by rewrite Hk.
Qed.

Lemma classify_elem (following : list string) (x : string) :
  (x ∈ (classify following).1 →
   (∃ line, line ∈ following ∧ x = Py.strip line)
   ∧ (2 < Py.len x)%nat
   ∧ Py.any_in role_keywords (Py.lower x) = true)
  ∧ (x ∈ (classify following).2 →
     (∃ line, line ∈ following ∧ x = Py.strip line)
     ∧ (2 < Py.len x)%nat
     ∧ Py.any_in role_keywords (Py.lower x) = false
     ∧ Py.any_in company_keywords (Py.lower x) = true).
Proof.
  induction following as [|l following [IH1 IH2]]; cbn [classify].
  - split; by intros ?%elem_of_nil.
  - assert (∀ P : string → Prop, (∃ line, line ∈ following ∧ P line) →
                                 ∃ line, line ∈ l :: following ∧ P line) as Hw.
    { intros P (line & Hin & HP). exists line. split; [by right|done]. }
    destruct (negb (bool_decide (Py.strip l = "")) && (2 <? Py.len (Py.strip l))%nat)
      eqn:Hok.
    + apply andb_true_iff in Hok as [_ Hlen%Nat.ltb_lt].
      destruct (Py.any_in role_keywords (Py.lower (Py.strip l))) eqn:Hr;
        [|destruct (Py.any_in company_keywords (Py.lower (Py.strip l))) eqn:Hc];
        cbn [fst snd]; split.
      * intros [->|H]%elem_of_cons.
        -- split; [exists l; split; [by left|done]|done].
        -- destruct (IH1 H) as (? & ? & ?). split; [by apply Hw|done].
      * intros H. destruct (IH2 H) as (? & ? & ?). split; [by apply Hw|done].
      * intros H. destruct (IH1 H) as (? & ? & ?). split; [by apply Hw|done].
      * intros [->|H]%elem_of_cons.
        -- split; [exists l; split; [by left|done]|done].
        -- destruct (IH2 H) as (? & ? & ?). split; [by apply Hw|done].
      * intros H. destruct (IH1 H) as (? & ? & ?). split; [by apply Hw|done].
      * intros H. destruct (IH2 H) as (? & ? & ?). split; [by apply Hw|done].
    + split.
      * intros H. destruct (IH1 H) as (? & ? & ?). split; [by apply Hw|done].
      * intros H. destruct (IH2 H) as (? & ? & ?). split; [by apply Hw|done].
Qed.

Lemma scan_sections_elem (lines : list string) (x : string) :
  (x ∈ (scan_sections lines).1 →
   (∃ line, line ∈ lines ∧ x = Py.strip line)
   ∧ (2 < Py.len x)%nat
   ∧ Py.any_in role_keywords (Py.lower x) = true)
  ∧ (x ∈ (scan_sections lines).2 →
     (∃ line, line ∈ lines ∧ x = Py.strip line)
     ∧ (2 < Py.len x)%nat
     ∧ Py.any_in role_keywords (Py.lower x) = false
     ∧ Py.any_in company_keywords (Py.lower x) = true).
Proof.
  induction lines as [|line rest [IH1 IH2]]; cbn [scan_sections].
  - split; by intros ?%elem_of_nil.
  - assert (∀ (l : list string) (P : string → Prop),
              l ⊆ rest → (∃ line', line' ∈ l ∧ P line') →
              ∃ line', line' ∈ line :: rest ∧ P line') as Hw.
    { intros l P Hl (line' & Hin & HP). exists line'.
      split; [right; by apply Hl|done]. }
    pose proof (subseteq_take 9 rest) as Htake.
    cbn [fst snd]. split; intros [H|H]%elem_of_app.
    + destruct (Py.any_in section_keywords (Py.lower line));
        [|by apply elem_of_nil in H].
      apply classify_elem in H as (? & ? & ?). split; [by eapply Hw|done].
    + destruct (IH1 H) as (? & ? & ?). split; [by eapply (Hw rest)|done].
    + destruct (Py.any_in section_keywords (Py.lower line));
        [|by apply elem_of_nil in H].
      apply classify_elem in H as (? & ? & ?). split; [by eapply Hw|done].
    + destruct (IH2 H) as (? & ? & ?). split; [by eapply (Hw rest)|done].
Qed.

(** X13. In every experience record [_extract_experience] returns, the roles
    and the companies are at most five each, without duplicates; each is a
    line of the text, stripped and longer than two characters; a role
    contains a role keyword, a company a company keyword and no role keyword,
    so no entry is both. *)
Theorem X13_roles_and_companies (text : string) (e : experience) :
  _extract_experience text = Ok e →
  (length (roles e) ≤ 5)%nat ∧ (length (companies e) ≤ 5)%nat
  ∧ NoDup (roles e) ∧ NoDup (companies e)
  ∧ (∀ x, x ∈ roles e →
          (∃ line, line ∈ Py.split_lines text ∧ x = Py.strip line)
          ∧ (2 < Py.len x)%nat
          ∧ Py.any_in role_keywords (Py.lower x) = true)
  ∧ (∀ x, x ∈ companies e →
          (∃ line, line ∈ Py.split_lines text ∧ x = Py.strip line)
          ∧ (2 < Py.len x)%nat
          ∧ Py.any_in role_keywords (Py.lower x) = false
          ∧ Py.any_in company_keywords (Py.lower x) = true)
  ∧ (∀ x, x ∈ roles e → x ∉ companies e).
Proof.
  unfold _extract_experience.
  destruct (_estimate_experience_years text) as [y|]; [|done].
  intros [= <-]. cbn [roles companies].
  set (rc := scan_sections (Py.split_lines text)).
  assert (Hroles : ∀ x, x ∈ take 5 (Py.list_set rc.1) →
            (∃ line, line ∈ Py.split_lines text ∧ x = Py.strip line)
            ∧ (2 < Py.len x)%nat
            ∧ Py.any_in role_keywords (Py.lower x) = true).
  { intros x Hx. apply subseteq_take in Hx. unfold Py.list_set in Hx.
    rewrite elem_of_remove_dups in Hx.
    by apply (proj1 (scan_sections_elem _ _)) in Hx. }
  assert (Hcompanies : ∀ x, x ∈ take 5 (Py.list_set rc.2) →
            (∃ line, line ∈ Py.split_lines text ∧ x = Py.strip line)
            ∧ (2 < Py.len x)%nat
            ∧ Py.any_in role_keywords (Py.lower x) = false
            ∧ Py.any_in company_keywords (Py.lower x) = true).
  { intros x Hx. apply subseteq_take in Hx. unfold Py.list_set in Hx.
    rewrite elem_of_remove_dups in Hx.
    by apply (proj2 (scan_sections_elem _ _)) in Hx. }
  split; [rewrite length_take; lia|]. split; [rewrite length_take; lia|].
  split; [eapply sublist_NoDup; [apply NoDup_remove_dups|apply sublist_take]|].
  split; [eapply sublist_NoDup; [apply NoDup_remove_dups|apply sublist_take]|].
  split; [done|]. split; [done|].
  intros x (_ & _ & Hr)%Hroles (_ & _ & Hn & _)%Hcompanies. congruence.
Qed.

Lemma X13_roles_and_companies_witness :
  ∃ e, _extract_experience "Work experience
Senior Engineer
Acme Inc" = Ok e
    ∧ roles e = ["Senior Engineer"] ∧ companies e = ["Acme Inc"]
    ∧ (∀ x, x ∈ roles e → x ∉ companies e).
Proof.
  destruct (_extract_experience "Work experience
Senior Engineer
Acme Inc") as [e|x] eqn:E; [|vm_compute in E; discriminate E].
  exists e. split; [reflexivity|].
  destruct (X13_roles_and_companies _ e E) as (_ & _ & _ & _ & _ & _ & H).
  split; [|split; [|exact H]].
  - vm_compute in E. by injection E as <-.
  - vm_compute in E. by injection E as <-.
Defined.

Lemma take_len (n : nat) (s : string) : (Py.len (Py.take n s) ≤ n)%nat.
Proof.
  unfold Py.len. revert s.
  induction n as [|n IH]; intros [|c s]; simpl; try lia.
  specialize (IH s). lia.
Qed.

Lemma take_all (n : nat) (s : string) : (Py.len s ≤ n)%nat → Py.take n s = s.
Proof.
  unfold Py.len. revert s.
  induction n as [|n IH]; intros [|c s]; simpl; try done; try lia.
  intros H. rewrite IH; [done|]. lia.
Qed.

Lemma lstrip_len (s : string) : (Py.len (Py.lstrip s) ≤ Py.len s)%nat.
Proof.
  unfold Py.len. induction s as [|c s IH]; simpl; [lia|].
  destruct (Py.is_space c); simpl; lia.
Qed.

Lemma rstrip_len (s : string) : (Py.len (Py.rstrip s) ≤ Py.len s)%nat.
Proof.
  unfold Py.len. induction s as [|c s IH]; simpl; [lia|].
  destruct (Py.rstrip s); [destruct (Py.is_space c)|]; simpl in *; lia.
Qed.

Lemma strip_len (s : string) : (Py.len (Py.strip s) ≤ Py.len s)%nat.
Proof.
  unfold Py.strip. etrans; [apply rstrip_len|apply lstrip_len].
Qed.

Lemma append_len (a b : string) : Py.len (a +:+ b) = (Py.len a + Py.len b)%nat.
Proof.
  unfold Py.len. induction a as [|c a IH]; [done|].
  rewrite append_cons. simpl. by rewrite IH.
Qed.

(** X14. The summary has at most 303 characters. For a text of at most 300
    characters it is the stripped text; for a longer text it is the stripped
    first 300 characters followed by "...". *)
Theorem X14_summary (text : string) :
  (Py.len (_generate_summary text) ≤ 303)%nat
  ∧ ((Py.len text ≤ 300)%nat → _generate_summary text = Py.strip text)
  ∧ ((300 < Py.len text)%nat →
     _generate_summary text = Py.strip (Py.take 300 text) +:+ "..."
     ∧ (3 ≤ Py.len (_generate_summary text))%nat).
Proof.
  unfold _generate_summary.
  pose proof (strip_len (Py.take 300 text)) as Hs.
  pose proof (take_len 300 text) as Ht.
  destruct (Nat.ltb_spec 300 (Py.len text)) as [Hlong|Hshort].
  - rewrite append_len. change (Py.len "...") with 3%nat.
    split; [lia|]. split; [lia|]. intros _. split; [done|lia].
  - split; [lia|]. split; [|lia]. intros _. by rewrite take_all.
Qed.

Lemma X14_summary_witness :
  _generate_summary "  Jane Doe, engineer  " = "Jane Doe, engineer".
Proof.
  destruct (X14_summary "  Jane Doe, engineer  ") as (_ & H & _).
  rewrite H; [reflexivity|]. vm_compute. lia.
Defined.

End ExtractorMore.

(** ** The size and the content of matches *)

Section MatchSizes.

Implicit Types (r : regex) (prev : option ascii) (s w : string) (m : mres).

Lemma rep_run_max (p : ascii → bool) lo (h : nat) s t rest :
  (t, rest) ∈ rep_run p lo (Some h) s → (Py.len t ≤ h)%nat.
Proof.
  unfold Py.len. revert lo h t rest.
  induction s as [|c s IH]; intros lo h t rest; simpl.
  - case_bool_decide; [|by intros ?%elem_of_nil].
    intros [= -> ->]%list_elem_of_singleton. simpl. lia.
  - intros [H|H]%elem_of_app.
    + destruct (p c); simpl in H; [|by apply elem_of_nil in H].
      case_bool_decide as Hh; simpl in H; [by apply elem_of_nil in H|].
      apply list_elem_of_fmap in H as ([t' rest'] & [= -> ->] & H).
      apply IH in H. simpl in *. assert (h ≠ 0)%nat by congruence. lia.
    + case_bool_decide; [|by apply elem_of_nil in H].
      apply list_elem_of_singleton in H as [= -> ->]. simpl. lia.
Qed.

Lemma strip_prefix_len (l s s' : string) :
  Py.strip_prefix l s = Some s' → Py.len s = (Py.len l + Py.len s')%nat.
Proof. intros ->%strip_prefix_spec. apply append_len. Qed.

(** A match takes at least [min_len] characters. *)
Lemma min_len_run r prev s m : m ∈ run r prev s → (min_len r ≤ Py.len (m_text m))%nat.
Proof.
  revert prev s m. induction r as [l|p|p lo hi|r IH|r1 IH1 r2 IH2|r1 IH1 r2 IH2|r IH|];
    intros prev s m; cbn [run min_len].
  - destruct (Py.strip_prefix l s); [|by intros ?%elem_of_nil].
    by intros ->%list_elem_of_singleton.
  - destruct s as [|c s]; [by intros ?%elem_of_nil|].
    destruct (p c); [|by intros ?%elem_of_nil].
    by intros ->%list_elem_of_singleton.
  - intros ([t rest] & -> & H)%list_elem_of_fmap.
    by apply rep_run_spec in H as [_ H].
  - lia.
  - intros (m1 & H & H1)%list_elem_of_bind.
    apply list_elem_of_fmap in H as (m2 & -> & H2). cbn [m_text].
    apply IH1 in H1. apply IH2 in H2. rewrite append_len. lia.
  - intros [H|H]%elem_of_app; [apply IH1 in H|apply IH2 in H]; lia.
  - intros (m' & -> & H)%list_elem_of_fmap. cbn [m_text]. by eapply IH.
  - lia.
Qed.

(** A match takes at most [max_len] characters. *)
Lemma max_len_run r prev s m (h : nat) :
  max_len r = Some h → m ∈ run r prev s → (Py.len (m_text m) ≤ h)%nat.
Proof.
  revert prev s m h.
  induction r as [l|p|p lo hi|r IH|r1 IH1 r2 IH2|r1 IH1 r2 IH2|r IH|];
    intros prev s m h; cbn [run max_len].
  - intros [= <-]. destruct (Py.strip_prefix l s); [|by intros ?%elem_of_nil].
    by intros ->%list_elem_of_singleton.
  - intros [= <-]. destruct s as [|c s]; [by intros ?%elem_of_nil|].
    destruct (p c); [|by intros ?%elem_of_nil].
    by intros ->%list_elem_of_singleton.
  - intros -> ([t rest] & -> & H)%list_elem_of_fmap. by apply rep_run_max in H.
  - intros Hh [H|H]%elem_of_app; [by eapply IH|].
    apply list_elem_of_singleton in H as ->. simpl. lia.
  - destruct (max_len r1) as [h1|]; [|done].
    destruct (max_len r2) as [h2|]; [|done]. intros [= <-].
    intros (m1 & H & H1)%list_elem_of_bind.
    apply list_elem_of_fmap in H as (m2 & -> & H2). cbn [m_text].
    apply (IH1 _ _ _ h1) in H1; [|done]. apply (IH2 _ _ _ h2) in H2; [|done].
    rewrite append_len. lia.
  - destruct (max_len r1) as [h1|]; [|done].
    destruct (max_len r2) as [h2|]; [|done]. intros [= <-].
    intros [H|H]%elem_of_app;
      [apply (IH1 _ _ _ h1) in H|apply (IH2 _ _ _ h2) in H]; try done; lia.
  - intros Hh (m' & -> & H)%list_elem_of_fmap. cbn [m_text]. by eapply IH.
  - intros [= <-]. destruct (xorb _ _); [|by intros ?%elem_of_nil].
    intros ->%list_elem_of_singleton. simpl. lia.
Qed.

Lemma sexists_app (q : ascii → bool) (a b : string) :
  Py.sexists q (a +:+ b) = Py.sexists q a || Py.sexists q b.
Proof.
  induction a as [|c a IH]; [done|].
  rewrite append_cons. simpl. rewrite IH. apply orb_assoc.
Qed.

Lemma sexists_impl (p q : ascii → bool) s :
  (∀ c, p c = true → q c = true) → Py.sexists p s = true → Py.sexists q s = true.
Proof.
  intros Hpq. induction s as [|c s IH]; simpl; [done|].
  intros [Hc|Hs]%orb_true_iff; [by rewrite (Hpq _ Hc)|].
  rewrite (IH Hs). apply orb_true_r.
Qed.

Lemma sforall_nonempty_sexists (p : ascii → bool) s :
  (0 < Py.len s)%nat → Py.sforall p s = true → Py.sexists p s = true.
Proof.
  destruct s as [|c s]; simpl; [lia|].
  intros _ [-> _]%andb_true_iff. done.
Qed.

(** A match of a pattern that takes a character of a class has one. *)
Lemma takes_run q r prev s m :
  takes q r → m ∈ run r prev s → Py.sexists q (m_text m) = true.
Proof.
  revert prev s m. induction r as [l|p|p lo hi|r IH|r1 IH1 r2 IH2|r1 IH1 r2 IH2|r IH|];
    intros prev s m Hq; cbn [run takes] in *; try done.
  - destruct (Py.strip_prefix l s); [|by intros ?%elem_of_nil].
    by intros ->%list_elem_of_singleton.
  - destruct s as [|c s]; [by intros ?%elem_of_nil|].
    destruct (p c) eqn:Hc; [|by intros ?%elem_of_nil].
    intros ->%list_elem_of_singleton. simpl. by rewrite (Hq _ Hc).
  - destruct Hq as [Hlo Hq]. intros ([t rest] & -> & H)%list_elem_of_fmap.
    apply rep_run_spec in H as [H1 H2]. cbn [m_text fst].
    apply (sexists_impl p); [done|].
    apply sforall_nonempty_sexists; [lia|done].
  - intros (m1 & H & H1)%list_elem_of_bind.
    apply list_elem_of_fmap in H as (m2 & -> & H2). cbn [m_text].
    rewrite sexists_app. destruct Hq as [Hq|Hq].
    + by rewrite (IH1 _ _ _ Hq H1).
    + rewrite (IH2 _ _ _ Hq H2). apply orb_true_r.
  - destruct Hq as [Hq1 Hq2].
    intros [H|H]%elem_of_app; [by eapply IH1|by eapply IH2].
  - intros (m' & -> & H)%list_elem_of_fmap. cbn [m_text]. by eapply IH.
Qed.

(** A pattern that takes a character of a class finds nothing in a text
    without one. *)
Lemma search_none_of_takes q r s :
  takes q r → Py.sexists q s = false → search r s = None.
Proof.
  intros Hr Hs. destruct (search r s) as [m|] eqn:E; [|done].
  pose proof E as (prev & s' & Hm)%search_from_run.
  apply search_from_part in E as (a & b & ->).
  rewrite !sexists_app, (takes_run _ _ _ _ _ Hr Hm), orb_true_r in Hs. done.
Qed.

Lemma lower_sexists_digit s :
  Py.sexists Py.is_digit (Py.lower s) = Py.sexists Py.is_digit s.
Proof.
  unfold Py.lower. induction s as [|c s IH]; [done|].
  cbn [Py.smap Py.sexists]. by rewrite lower_char_is_digit, IH.
Qed.

End MatchSizes.

(** Proves [takes digit r] for a pattern with a [\d+] in it. *)
Ltac takes_digit :=
  cbn [takes seq number_before plus];
  repeat first
    [ split; [lia | by intros ? ?]
    | left; split; [lia | by intros ? ?]
    | right ].

(** ** What the extractor reads off the text: education, contact details *)

Section ExtractorFields.

(** A match of [(19|20)\d{2}] is a century followed by two digits. *)
Lemma date_pattern_run prev s m :
  m ∈ run date_pattern prev s →
  Py.len (m_text m) = 4%nat
  ∧ Py.sforall Py.is_digit (m_text m) = true
  ∧ (Py.startswith "19" (m_text m) = true ∨ Py.startswith "20" (m_text m) = true).
Proof.
  intros Hm. split; [|split].
  - pose proof (min_len_run _ _ _ _ Hm) as H1.
    pose proof (max_len_run date_pattern prev s m 4 eq_refl Hm) as H2.
    change (min_len date_pattern) with 4%nat in H1. lia.
  - apply (chars_in_run Py.is_digit) in Hm; [done|].
    repeat split; by intros c Hc.
  - unfold date_pattern in Hm. cbn [run] in Hm.
    apply list_elem_of_bind in Hm as (m1 & Hm & H1).
    apply list_elem_of_fmap in Hm as (m2 & -> & H2). cbn [m_text].
    apply list_elem_of_fmap in H1 as (m0 & -> & H0). cbn [m_text].
    apply elem_of_app in H0 as [H0|H0]; apply (run_Lit_text _ prev s) in H0;
      rewrite H0; [left|right]; by apply startswith_app_l, startswith_refl.
Qed.

(** The element [find] returns is the first that passes the test. *)
Lemma find_first {A : Type} (f : A → bool) (l : list A) (x : A) :
  find f l = Some x →
  ∃ before after, l = before ++ x :: after
                  ∧ Forall (λ y, f y = false) before ∧ f x = true.
Proof.
  induction l as [|y l IH]; [done|]. cbn [find].
  destruct (f y) eqn:E.
  - intros [= ->]. exists [], l. by repeat split.
  - intros (before & after & -> & Hb & Hx)%IH.
    exists (y :: before), after. split; [done|]. split; [by constructor|done].
Qed.

(** X15. The education entry is empty when no line of the text has an
    education keyword in it; otherwise it is read off the first such line:
    the university is that line, stripped; the degree is the first degree
    keyword, in the order of the list, that the lowercased line contains, in
    upper case, or empty when it contains none; the graduation year is empty
    when the line has no year in it, and otherwise a part of the line made of
    four digits that begins with 19 or 20. *)
Theorem X15_education (text : string) :
  let ed := _extract_education text in
  (ed = {| degree := EmptyString; university := EmptyString;
           graduation_year := EmptyString |}
   ∧ Forall (λ line, Py.any_in education_keywords (Py.lower line) = false)
            (Py.split_lines text))
  ∨ ∃ before line after,
      Py.split_lines text = before ++ line :: after
      ∧ Forall (λ l, Py.any_in education_keywords (Py.lower l) = false) before
      ∧ Py.any_in education_keywords (Py.lower line) = true
      ∧ university ed = Py.strip line
      ∧ ((degree ed = EmptyString
          ∧ ∀ d, d ∈ degree_keywords → Py.contains d (Py.lower line) = false)
         ∨ ∃ earlier d later,
             degree_keywords = earlier ++ d :: later
             ∧ Forall (λ d', Py.contains d' (Py.lower line) = false) earlier
             ∧ Py.contains d (Py.lower line) = true
             ∧ degree ed = Py.upper d)
      ∧ ((graduation_year ed = EmptyString ∧ search date_pattern line = None)
         ∨ (Py.len (graduation_year ed) = 4%nat
            ∧ Py.sforall Py.is_digit (graduation_year ed) = true
            ∧ (Py.startswith "19" (graduation_year ed) = true
               ∨ Py.startswith "20" (graduation_year ed) = true)
            ∧ ∃ a b, line = a +:+ graduation_year ed +:+ b)).
Proof.
  intros ed. subst ed. unfold _extract_education.
  destruct (find _ (Py.split_lines text)) as [line|] eqn:E; [right|left].
  - apply find_first in E as (before & after & Hl & Hb & Hkw).
    exists before, line, after. cbn [degree university graduation_year].
    split; [done|]. split; [done|]. split; [done|]. split; [done|]. split.
    + destruct (find _ degree_keywords) as [d|] eqn:Ed.
      * right. apply find_first in Ed as (earlier & later & Hd & He & Hc).
        by exists earlier, d, later.
      * left. split; [done|]. intros d Hd.
        apply list_elem_of_In in Hd.
        by apply (find_none _ _ Ed) in Hd.
    + destruct (search date_pattern line) as [m|] eqn:Em; [right|by left].
      pose proof Em as (prev & s & Hm)%search_from_run.
      apply date_pattern_run in Hm as (H1 & H2 & H3).
      split; [done|]. split; [done|]. split; [done|].
      by apply search_from_part in Em.
  - split; [done|]. apply Forall_forall. intros line Hin.
    apply list_elem_of_In in Hin. by apply (find_none _ _ E) in Hin.
Qed.

Lemma extract_phone_elem (patterns : list regex) (text : string) :
  extract_phone patterns text = EmptyString
  ∨ ∃ pattern, pattern ∈ patterns ∧ extract_phone patterns text ∈ findall pattern text.
Proof.
  induction patterns as [|pattern patterns IH]; simpl; [by left|].
  destruct (findall pattern text) as [|w l] eqn:E.
  - destruct IH as [IH|(p & Hp & IH)]; [by left|right].
    exists p. split; [by right|done].
  - right. exists pattern. split; [by left|]. rewrite E. by left.
Qed.

(** What [findall] returns for a pattern without a group has the size of a
    match. *)
Lemma findall_len r s w :
  has_group r = false → w ∈ findall r s →
  (min_len r ≤ Py.len w)%nat ∧ ∀ h : nat, max_len r = Some h → (Py.len w ≤ h)%nat.
Proof.
  unfold findall. intros -> (m & -> & Hm)%list_elem_of_fmap.
  apply matches_from_run in Hm as (prev & s' & Hm). split.
  - by eapply min_len_run.
  - intros h Hh. by eapply max_len_run.
Qed.

Lemma findall_mentions k r s w :
  has_group r = false → mentions k r = true → w ∈ findall r s →
  Py.contains k w = true.
Proof.
  unfold findall. intros -> Hk (m & -> & Hm)%list_elem_of_fmap.
  apply matches_from_run in Hm as (prev & s' & Hm). by eapply mentions_run.
Qed.

Lemma phone_patterns_shape :
  Forall (λ r, has_group r = false ∧ chars_in phone_char r
               ∧ (10 ≤ min_len r)%nat
               ∧ ∃ h : nat, max_len r = Some h ∧ (h ≤ 19)%nat) phone_patterns.
Proof.
  assert (∀ c, digit c = true → phone_char c = true) as Hd.
  { intros c Hc. unfold phone_char. unfold digit in Hc. by rewrite Hc. }
  assert (∀ c, sep_space_dash c = true → phone_char c = true) as Hs.
  { intros c. unfold sep_space_dash, phone_char, space.
    intros [->|Hc]%orb_true_iff; [by rewrite orb_true_r|].
    assert (c = "-"%char) as ->; [|done].
    unfold one_of in Hc. simpl in Hc. rewrite orb_false_r in Hc.
    by apply bool_decide_eq_true in Hc. }
  assert (∀ c, sep_space_dash_dot c = true → phone_char c = true) as Hs'.
  { intros c. unfold sep_space_dash_dot, phone_char, space.
    intros [->|Hc]%orb_true_iff; [by rewrite orb_true_r|].
    unfold one_of in Hc. simpl in Hc. rewrite orb_false_r in Hc.
    apply orb_true_iff in Hc as [Hc|Hc]; apply bool_decide_eq_true in Hc;
      by subst c. }
  unfold phone_patterns.
  repeat (apply List.Forall_cons;
          [split; [reflexivity|]; split;
           [cbn [seq chars_in between]; repeat split; auto
           |split; [vm_compute; lia|eexists; split; [vm_compute; reflexivity|lia]]]|]).
  apply List.Forall_nil.
Qed.

Lemma email_pattern_chars : chars_in email_char email_pattern.
Proof.
  unfold email_pattern. cbn [seq chars_in plus]. repeat split; try done.
  - intros c. unfold email_char.
    intros [[->| ->]%orb_true_iff|Hc]%orb_true_iff; [done|by rewrite orb_true_r|].
    unfold one_of in *. simpl in *.
    repeat (apply orb_true_iff in Hc as [Hc|Hc];
            [apply bool_decide_eq_true in Hc; by subst c|]). done.
  - intros c. unfold email_char.
    intros [[->| ->]%orb_true_iff|Hc]%orb_true_iff; [done|by rewrite orb_true_r|].
    unfold one_of in *. simpl in *.
    repeat (apply orb_true_iff in Hc as [Hc|Hc];
            [apply bool_decide_eq_true in Hc; by subst c|]). done.
  - intros c Hc. unfold email_char. by rewrite Hc.
Qed.

(** X16. Each contact detail [_extract_basic_info] returns is empty or read
    off the text. The name is the stripped form of one of the first ten lines
    and passes the name test. The phone number is a part of the text of 10 to
    19 characters, all of them digits, white space or one of [+()-.]. The
    e-mail address is a part of the text of at least 6 characters with an "@"
    and a "." in it, all of them letters, digits or one of [._%+-@]. The
    location is the stripped form of a sentence with a location keyword, of
    more than 10 and fewer than 100 characters. *)
Theorem X16_contact_details (text : string) :
  let b := _extract_basic_info text in
  (name b = EmptyString
   ∨ (looks_like_name (name b) = true
      ∧ ∃ line, line ∈ take 10 (Py.split_lines text) ∧ name b = Py.strip line))
  ∧ (phone b = EmptyString
     ∨ ((10 ≤ Py.len (phone b) ≤ 19)%nat
        ∧ Py.sforall phone_char (phone b) = true
        ∧ ∃ a c, text = a +:+ phone b +:+ c))
  ∧ (email b = EmptyString
     ∨ ((6 ≤ Py.len (email b))%nat
        ∧ Py.contains "@" (email b) = true
        ∧ Py.contains "." (email b) = true
        ∧ Py.sforall email_char (email b) = true
        ∧ ∃ a c, text = a +:+ email b +:+ c))
  ∧ (location b = EmptyString
     ∨ ((10 < Py.len (location b) < 100)%nat
        ∧ ∃ sentence, sentence ∈ Py.split_on (one_of ".!?") text
             ∧ Py.any_in location_keywords (Py.lower sentence) = true
             ∧ location b = Py.strip sentence)).
Proof.
  intros b. subst b. cbn [_extract_basic_info name phone email location].
  split; [|split; [|split]].
  - unfold extract_name.
    destruct (find _ _) as [n|] eqn:E; [right|by left]. cbn [default].
    apply find_some in E as [Hin Hn]. split; [done|].
    apply list_elem_of_In, list_elem_of_fmap in Hin as (line & -> & Hl).
    by exists line.
  - destruct (extract_phone_elem phone_patterns text) as [H|(p & Hp & H)];
      [by left|right].
    pose proof (proj1 (Forall_forall _ _) phone_patterns_shape p Hp)
      as (Hg & Hc & Hlo & h & Hh & Hhi).
    destruct (findall_len _ _ _ Hg H) as [H1 H2]. specialize (H2 h Hh).
    split; [lia|]. split; [by eapply findall_chars|by eapply findall_part].
  - unfold extract_email.
    destruct (findall email_pattern text) as [|w l] eqn:E; [by left|right].
    assert (w ∈ findall email_pattern text) as H by (rewrite E; left).
    destruct (findall_len email_pattern text w eq_refl H) as [H1 _].
    split; [exact H1|].
    split; [by apply (findall_mentions "@" email_pattern text w)|].
    split; [by apply (findall_mentions "." email_pattern text w)|].
    split; [by apply (findall_chars _ email_pattern text w eq_refl email_pattern_chars)|].
    by apply (findall_part email_pattern text w).
  - unfold extract_location.
    destruct (find _ _) as [sentence|] eqn:E; [right|by left].
    apply find_some in E as [Hin Hs]. apply list_elem_of_In in Hin.
    unfold is_address in Hs.
    apply andb_true_iff in Hs as [[Hk H1%Nat.ltb_lt]%andb_true_iff H2%Nat.ltb_lt].
    split; [lia|]. by exists sentence.
Qed.

(** ** Years of experience when the text gives no figure *)

Lemma years_from_keywords_no_digit (keywords : list string) (text : string) :
  Py.sexists Py.is_digit text = false →
  years_from_keywords keywords text = Ok (AIExtractor.years_from_level (Py.lower text)).
Proof.
  intros H. induction keywords as [|keyword keywords IH]; [done|].
  cbn [years_from_keywords].
  rewrite (search_none_of_takes Py.is_digit); [done| |by rewrite lower_sexists_digit].
  takes_digit.
Qed.

(** X17. For a text without a digit the years of experience come from the
    level words alone: 5 when the lowercased text contains a senior keyword,
    else 1 when it contains a junior keyword, else 3. *)
Theorem X17_years_without_figures (text : string) :
  Py.sexists Py.is_digit text = false →
  ∃ y, _estimate_experience_years text = Ok y
    ∧ (∀ p, extract_info text = Ok p → years (p_experience p) = Some y)
    ∧ (Py.any_in senior_keywords (Py.lower text) = true → y = 5)
    ∧ (Py.any_in senior_keywords (Py.lower text) = false →
       Py.any_in junior_keywords (Py.lower text) = true → y = 1)
    ∧ (Py.any_in senior_keywords (Py.lower text) = false →
       Py.any_in junior_keywords (Py.lower text) = false → y = 3).
Proof.
  intros H. exists (AIExtractor.years_from_level (Py.lower text)).
  assert (_estimate_experience_years text
          = Ok (AIExtractor.years_from_level (Py.lower text))) as Hy.
  { rewrite estimate_skips_year_span. by apply years_from_keywords_no_digit. }
  split; [done|]. split.
  - intros p (y & Hy' & _ & ->)%extract_info_ok.
    cbn [p_experience years]. congruence.
  - unfold AIExtractor.years_from_level.
    split; [by intros ->|]. split; by intros -> ->.
Qed.

Lemma X17_years_without_figures_witness :
  Py.sexists Py.is_digit "Junior developer, then lead architect" = false
  ∧ _estimate_experience_years "Junior developer, then lead architect" = Ok 5.
Proof.
  split; [reflexivity|].
  destruct (X17_years_without_figures "Junior developer, then lead architect")
    as (y & Hy & _ & H5 & _); [reflexivity|].
  rewrite Hy, H5; reflexivity.
Defined.

End ExtractorFields.

(** ** The parser: [_clean_text] and [parse] *)

Section Parser.

Implicit Types (r : regex) (prev : option ascii) (s repl : string).

Lemma rep_run_zero (p : ascii → bool) hi s : rep_run p 0 hi s ≠ [].
Proof.
  destruct s as [|c s]; cbn [rep_run];
    rewrite (bool_decide_eq_true_2 (0%nat = 0%nat)) by done;
    intros [_ [=]]%app_eq_nil.
Qed.

Lemma run_plus_cons (p : ascii → bool) prev c s :
  p c = true → run (plus p) prev (String c s) ≠ [].
Proof.
  intros Hc. unfold plus. cbn [run rep_run]. rewrite Hc. cbn [andb negb pred fmap option_fmap option_map].
  rewrite bool_decide_eq_false_2 by done. cbn [negb].
  rewrite app_nil_r. intros H%fmap_nil_inv%fmap_nil_inv.
  by apply rep_run_zero in H.
Qed.

(** The text [sub] returns is made of characters of the input and of the
    replacement. *)
Lemma sub_from_chars (q : ascii → bool) r repl prev skip s :
  Py.sforall q repl = true → Py.sforall q s = true →
  Py.sforall q (sub_from r repl prev skip s) = true.
Proof.
  intros Hrepl. revert prev skip.
  induction s as [|c s IH]; intros prev skip Hs; cbn [sub_from].
  - destruct skip; [|done].
    destruct (run r prev ""); [done|]. by rewrite sforall_app, Hrepl.
  - cbn [Py.sforall] in Hs. apply andb_true_iff in Hs as [Hc Hs].
    destruct skip; [|by apply IH].
    destruct (run r prev (String c s)) as [|m l].
    + cbn [Py.sforall]. by rewrite Hc, IH.
    + rewrite !sforall_app, Hrepl, IH by done.
      destruct (Py.len (m_text m)); cbn [Py.sforall]; by rewrite ?Hc.
Qed.

(** After [sub] with a one-character class and an empty replacement no
    character of the class is left. *)
Lemma sub_from_Cls (p : ascii → bool) prev skip s :
  Py.sforall (λ c, negb (p c)) (sub_from (Cls p) EmptyString prev skip s) = true.
Proof.
  revert prev skip. induction s as [|c s IH]; intros prev skip; cbn [sub_from].
  - destruct skip; [|done]. by cbn [run].
  - destruct skip; [|by apply IH].
    cbn [run]. destruct (p c) eqn:Hc.
    + rewrite append_nil_l. cbn [m_text Py.len String.length pred].
      rewrite append_nil_l. apply IH.
    + cbn [Py.sforall]. by rewrite Hc, IH.
Qed.

(** After [sub] with a repetition of a class a character of the class comes
    from the replacement. *)
Lemma sub_from_plus (p q : ascii → bool) repl prev skip s :
  Py.sforall q repl = true →
  Py.sforall (λ c, negb (p c) || q c) (sub_from (plus p) repl prev skip s) = true.
Proof.
  intros Hrepl.
  assert (Py.sforall (λ c, negb (p c) || q c) repl = true) as Hrepl'.
  { apply (sforall_impl q); [|done]. intros c ->. apply orb_true_r. }
  revert prev skip. induction s as [|c s IH]; intros prev skip; cbn [sub_from].
  - destruct skip; [|done].
    destruct (run (plus p) prev ""); [done|]. by rewrite sforall_app, Hrepl'.
  - destruct skip; [|by apply IH].
    destruct (run (plus p) prev (String c s)) as [|m l] eqn:E.
    + cbn [Py.sforall]. rewrite IH, andb_true_r.
      destruct (p c) eqn:Hc; [|done].
      by apply (run_plus_cons p prev c s) in Hc.
    + assert (1 ≤ Py.len (m_text m))%nat as Hlen.
      { apply (min_len_run (plus p) prev (String c s)). rewrite E. left. }
      rewrite !sforall_app, Hrepl', IH.
      destruct (Py.len (m_text m)); [lia|done].
Qed.

Lemma sforall_and (p q : ascii → bool) s :
  Py.sforall p s = true → Py.sforall q s = true →
  Py.sforall (λ c, p c && q c) s = true.
Proof.
  induction s as [|c s IH]; cbn [Py.sforall]; [done|].
  intros [-> Hp]%andb_true_iff [-> Hq]%andb_true_iff. by rewrite IH.
Qed.

Lemma clean_char_intro (c : ascii) :
  negb (negb (kept c)) && (negb (space c) || bool_decide (c = " "%char)) = true →
  clean_char c = true.
Proof. destruct c as [[] [] [] [] [] [] [] []]; by vm_compute. Qed.

Lemma clean_char_no_newline (c : ascii) :
  clean_char c = true → negb (bool_decide (c = "010"%char)) = true.
Proof. destruct c as [[] [] [] [] [] [] [] []]; by vm_compute. Qed.

(** What the two substitutions leave. *)
Lemma substitutions_chars (text : string) :
  Py.sforall clean_char
    (sub special_character EmptyString (sub white_space " " text)) = true.
Proof.
  apply (sforall_impl _ _ _ clean_char_intro), sforall_and.
  - apply sub_from_Cls.
  - apply sub_from_chars; [done|].
    apply (sub_from_plus space (λ c, bool_decide (c = " "%char))). done.
Qed.

Lemma split_on_none (p : ascii → bool) s :
  Py.sforall (λ c, negb (p c)) s = true → Py.split_on p s = [s].
Proof.
  induction s as [|c s IH]; cbn [Py.sforall Py.split_on]; [done|].
  intros [Hc Hs]%andb_true_iff. apply negb_true_iff in Hc. rewrite Hc.
  by rewrite (IH Hs).
Qed.

Lemma split_on_sep (p : ascii → bool) a c b :
  Py.sforall (λ c, negb (p c)) a = true → p c = true →
  Py.split_on p (a +:+ String c b) = a :: Py.split_on p b.
Proof.
  intros Ha Hc. induction a as [|d a IH].
  - rewrite append_nil_l. cbn [Py.split_on]. by rewrite Hc.
  - cbn [Py.sforall] in Ha. apply andb_true_iff in Ha as [Hd Ha].
    apply negb_true_iff in Hd.
    rewrite append_cons. cbn [Py.split_on]. by rewrite Hd, (IH Ha).
Qed.

Lemma sforall_lstrip (q : ascii → bool) s :
  Py.sforall q s = true → Py.sforall q (Py.lstrip s) = true.
Proof.
  induction s as [|c s IH]; cbn [Py.sforall Py.lstrip]; [done|].
  intros [Hc Hs]%andb_true_iff. destruct (Py.is_space c); [by apply IH|].
  cbn [Py.sforall]. by rewrite Hc, Hs.
Qed.

Lemma sforall_rstrip (q : ascii → bool) s :
  Py.sforall q s = true → Py.sforall q (Py.rstrip s) = true.
Proof.
  induction s as [|c s IH]; cbn [Py.sforall Py.rstrip]; [done|].
  intros [Hc Hs]%andb_true_iff. specialize (IH Hs).
  destruct (Py.rstrip s) as [|d r].
  - destruct (Py.is_space c); [done|]. cbn [Py.sforall]. by rewrite Hc.
  - cbn [Py.sforall] in *. by rewrite Hc, IH.
Qed.

Lemma sforall_strip (q : ascii → bool) s :
  Py.sforall q s = true → Py.sforall q (Py.strip s) = true.
Proof. intros H. by apply sforall_rstrip, sforall_lstrip. Qed.

Lemma rstrip_idem s : Py.rstrip (Py.rstrip s) = Py.rstrip s.
Proof.
  induction s as [|c s IH]; [done|]. cbn [Py.rstrip].
  destruct (Py.rstrip s) as [|d r] eqn:E.
  - destruct (Py.is_space c) eqn:Hc; [done|]. cbn [Py.rstrip]. by rewrite Hc.
  - change (Py.rstrip (String c (String d r)))
      with (match Py.rstrip (String d r) with
            | EmptyString => if Py.is_space c then EmptyString else String c EmptyString
            | r' => String c r'
            end).
    by rewrite IH.
Qed.

(** A stripped text has no white space at either end. *)
Lemma strip_idem s : Py.strip (Py.strip s) = Py.strip s.
Proof.
  unfold Py.strip.
  assert (∀ u, Py.lstrip u = u → Py.lstrip (Py.rstrip u) = Py.rstrip u) as H.
  { intros [|c u] Hu; [done|]. cbn [Py.lstrip] in Hu.
    destruct (Py.is_space c) eqn:Hc.
    - pose proof (lstrip_len u) as Hl. rewrite Hu in Hl.
      unfold Py.len in Hl. simpl in Hl. lia.
    - cbn [Py.rstrip]. destruct (Py.rstrip u); rewrite ?Hc; cbn [Py.lstrip];
        by rewrite Hc. }
  assert (Py.lstrip (Py.lstrip s) = Py.lstrip s) as Hl.
  { induction s as [|c s IH]; [done|]. cbn [Py.lstrip].
    destruct (Py.is_space c) eqn:Hc; [done|]. cbn [Py.lstrip]. by rewrite Hc. }
  by rewrite (H _ Hl), rstrip_idem.
Qed.

(** White space runs, line breaks among them, are replaced by single spaces
    before the text is split in lines: a page is one paragraph. *)
Lemma clean_text_one_paragraph (text : string) :
  let para :=
    Py.strip (sub special_character EmptyString (sub white_space " " text)) in
  _clean_text text = if (5 <? Py.len para)%nat then para else EmptyString.
Proof.
  intros para. unfold _clean_text, Py.split_lines.
  rewrite split_on_none.
  2:{ apply (sforall_impl clean_char); [apply clean_char_no_newline|].
      apply substitutions_chars. }
  cbn [map]. fold para. rewrite filter_cons, filter_nil.
  destruct (5 <? Py.len para)%nat eqn:E.
  - assert (para ≠ EmptyString) as Hne.
    { intros Hp. rewrite Hp in E. done. }
    rewrite bool_decide_eq_false_2 by done. done.
  - rewrite andb_false_r. done.
Qed.

Lemma clean_text_chars (text : string) :
  Py.sforall clean_char (_clean_text text) = true.
Proof.
  rewrite clean_text_one_paragraph. cbn zeta.
  destruct (5 <? _)%nat; [|done].
  apply sforall_strip, substitutions_chars.
Qed.

Lemma clean_text_len (text : string) :
  _clean_text text = EmptyString ∨ (5 < Py.len (_clean_text text))%nat.
Proof.
  rewrite clean_text_one_paragraph. cbn zeta.
  destruct (5 <? _)%nat eqn:E; [right|by left]. by apply Nat.ltb_lt.
Qed.

(** X18. [_clean_text] makes one paragraph of a page: every run of white
    space, line breaks included, becomes one space and the characters other
    than word characters, spaces and [.,;:!?@()-/] are deleted before the text
    is split in lines, so there is one line; it is stripped, and dropped when
    it has 5 characters or fewer. Hence the result has no line break and no
    white space other than the space, has no white space at either end, and
    is empty or longer than 5 characters. *)
Theorem X18_clean_text (text : string) :
  let para :=
    Py.strip (sub special_character EmptyString (sub white_space " " text)) in
  _clean_text text = (if (5 <? Py.len para)%nat then para else EmptyString)
  ∧ Py.sforall clean_char (_clean_text text) = true
  ∧ Py.split_lines (_clean_text text) = [_clean_text text]
  ∧ Py.strip (_clean_text text) = _clean_text text
  ∧ (_clean_text text = EmptyString ∨ (5 < Py.len (_clean_text text))%nat).
Proof.
  intros para. split; [apply clean_text_one_paragraph|].
  split; [apply clean_text_chars|]. split; [|split; [|apply clean_text_len]].
  - apply split_on_none, (sforall_impl clean_char); [apply clean_char_no_newline|].
    apply clean_text_chars.
  - rewrite clean_text_one_paragraph. cbn zeta.
    destruct (5 <? _)%nat; [apply strip_idem|done].
Qed.

Lemma text_content_elem (pages : list (option string)) (line : string) :
  line ∈ text_content pages ↔
  ∃ t, Some t ∈ pages ∧ t ≠ EmptyString ∧ line = _clean_text t.
Proof.
  induction pages as [|page_text pages IH]; cbn [text_content].
  - split; [by intros ?%elem_of_nil|]. by intros (t & ?%elem_of_nil & _).
  - destruct page_text as [t|].
    + case_bool_decide as Ht.
      * rewrite IH. split; intros (t' & Hin & Hne & Hl); exists t';
          (split; [|done]).
        -- by right.
        -- apply elem_of_cons in Hin as [[= ->]|Hin]; done.
      * rewrite elem_of_cons, IH. split.
        -- intros [->|(t' & Hin & Hne & Hl)]; [exists t|exists t'];
             (split; [|done]); [by left|by right].
        -- intros (t' & [[= ->]|Hin]%elem_of_cons & Hne & Hl); [by left|right].
           by exists t'.
    + rewrite IH. split; intros (t' & Hin & Hne & Hl); exists t';
        (split; [|done]).
      * by right.
      * apply elem_of_cons in Hin as [[=]|Hin]; done.
Qed.

Lemma text_content_length (pages : list (option string)) :
  length (text_content pages) = length (filter (λ p, has_text p = true) pages).
Proof.
  induction pages as [|page_text pages IH]; [done|].
  cbn [text_content]. rewrite filter_cons.
  destruct page_text as [t|]; cbn [has_text].
  - case_bool_decide; cbn [negb].
    + by rewrite decide_False by done.
    + rewrite decide_True by done. cbn [length]. by rewrite IH.
  - by rewrite decide_False by done.
Qed.

(** The lines of texts without a line break joined with blank lines between
    them: the texts, and a blank line between every two. *)
Lemma join_lines (ls : list string) :
  Forall (λ x, Py.split_lines x = [x]) ls →
  length (Py.split_lines (join (String "010" (String "010" "")) ls))
  = Nat.max 1 (2 * length ls - 1)
  ∧ ∀ line, line ∈ Py.split_lines (join (String "010" (String "010" "")) ls) →
            line = EmptyString ∨ line ∈ ls.
Proof.
  assert (∀ x, Py.split_lines x = [x] →
               Py.sforall (λ c, negb (bool_decide (c = "010"%char))) x = true) as Hnl.
  { unfold Py.split_lines. intros x. induction x as [|c x IH]; [done|].
    cbn [Py.split_on Py.sforall]. case_bool_decide as Hc; [done|].
    destruct (Py.split_on _ x) as [|h t] eqn:E; cbn [negb andb].
    - by destruct x; simpl in E; repeat case_match.
    - intros [= <- ->]. by apply IH. }
  induction 1 as [|x ls Hx Hls [IH1 IH2]]; [split|].
  - done.
  - intros line [->|[]%elem_of_nil]%elem_of_cons. by left.
  - destruct ls as [|y ls].
    + cbn [join length]. rewrite Hx. split; [done|].
      intros line ->%list_elem_of_singleton. right. by left.
    + change (join ?sep (x :: y :: ls)) with (x +:+ sep +:+ join sep (y :: ls)).
      unfold Py.split_lines in *. rewrite !append_cons, append_nil_l.
      rewrite split_on_sep; [|by apply Hnl|done].
      cbn [Py.split_on]. rewrite bool_decide_eq_true_2 by done.
      split.
      * cbn [length] in *. rewrite IH1. lia.
      * intros line [->|[->|Hin]%elem_of_cons]%elem_of_cons.
        -- right. by left.
        -- by left.
        -- destruct (IH2 _ Hin) as [->|Hl]; [by left|right]. by right.
Qed.

(** X19. [parse] fails exactly when reading the file fails, with the message
    of the failure after "PDF parsing failed: ". Otherwise every page with a
    text that is not empty gives one line of the result, its cleaned text,
    and there is one blank line between two pages: for n such pages the
    result has 2n-1 lines (one empty line when there is none), each of them
    empty or the cleaned text of a page and then longer than 5 characters. *)
Theorem X19_parse (file : pdf) :
  match file with
  | inl e =>
      parse file = inl (ParsingFailed e)
      ∧ error_message (ParsingFailed e) = "PDF parsing failed: " +:+ e
  | inr pages =>
      ∃ out, parse file = inr out
        ∧ length (Py.split_lines out)
          = Nat.max 1 (2 * length (filter (λ p, has_text p = true) pages) - 1)
        ∧ ∀ line, line ∈ Py.split_lines out →
            line = EmptyString
            ∨ ((5 < Py.len line)%nat
               ∧ ∃ t, Some t ∈ pages ∧ t ≠ EmptyString ∧ line = _clean_text t)
  end.
Proof.
  destruct file as [e|pages]; [done|].
  eexists. split; [reflexivity|].
  destruct (join_lines (text_content pages)) as [H1 H2].
  { apply Forall_forall. intros x (t & _ & _ & ->)%text_content_elem.
    apply split_on_none, (sforall_impl clean_char); [apply clean_char_no_newline|].
    apply clean_text_chars. }
  split; [by rewrite H1, text_content_length|].
  intros line [->|Hin]%H2; [by left|].
  pose proof Hin as (t & Ht & Hne & ->)%text_content_elem.
  destruct (clean_text_len t) as [->|Hlen]; [by left|right].
  split; [done|]. by exists t.
Qed.

End Parser.

(** ** The request handlers *)

Section AppFacts.

Variables (hash_bytes hash_str : string → Z) (pdfplumber : string → PDFParser.pdf).

Local Abbreviation upload_resume := (App.upload_resume hash_bytes pdfplumber).
Local Abbreviation analyze_resume := (App.analyze_resume hash_str).
Local Abbreviation handle := (App.handle hash_bytes hash_str pdfplumber).
Local Abbreviation serve := (App.serve hash_bytes hash_str pdfplumber).

Implicit Types (st : App.app) (c : CacheManager.cache nat) (d : App.obj)
  (h : list App.obj) (l : nat).

Local Open Scope Q_scope.

Lemma cache_get_hit c key now l :
  (CacheManager.get c key now).1 = Some l →
  CacheManager.memory_cache c !! key = Some l ∧ (CacheManager.get c key now).2 = c.
Proof.
  unfold CacheManager.get. destruct (CacheManager.memory_cache c !! key); [|done].
  destruct (Qlt_le_dec _ _); [|done]. by intros [= ->].
Qed.


Lemma cache_get_keeps c key now key' l :
  CacheManager.memory_cache (CacheManager.get c key now).2 !! key' = Some l →
  CacheManager.memory_cache c !! key' = Some l.
Proof.
  unfold CacheManager.get. destruct (CacheManager.memory_cache c !! key); [|done].
  destruct (Qlt_le_dec _ _); [done|]. cbn [snd CacheManager.memory_cache].
  by intros [_ H]%lookup_delete_Some.
Qed.

Local Close Scope Q_scope.

Lemma set_fields_upload (id : string) d :
  (∃ r, d = App.Upload r) →
  ∃ r, App.set_from_cache true (App.set_resume_id id d) = App.Upload r.
Proof. intros [r ->]. by eexists. Qed.

Lemma set_from_cache_upload d :
  (∃ r, d = App.Upload r) → ∃ r, App.set_from_cache true d = App.Upload r.
Proof. intros [r ->]. by eexists. Qed.

Lemma obj_fields_set (id : string) d :
  obj_resume_id (App.set_from_cache true (App.set_resume_id id d)) = id
  ∧ obj_from_cache (App.set_from_cache true (App.set_resume_id id d)) = true.
Proof. by destruct d. Qed.

Lemma lookup_fresh h d : (h ++ [d]) !! length h = Some d.
Proof. rewrite lookup_app_r by lia. by rewrite Nat.sub_diag. Qed.

Lemma lookup_alter_is_Some (f : App.obj → App.obj) h l l' :
  is_Some (h !! l') → is_Some (alter f l h !! l').
Proof.
  intros [d Hd]. destruct (decide (l = l')) as [->|Hne].
  - rewrite list_lookup_alter_eq, Hd. cbn. by eexists.
  - rewrite list_lookup_alter_ne, Hd by done. by eexists.
Qed.

Lemma lookup_alter_upload (f : App.obj → App.obj) h l l' :
  (∀ d, (∃ r, d = App.Upload r) → ∃ r, f d = App.Upload r) →
  (∃ r, h !! l' = Some (App.Upload r)) →
  ∃ r, alter f l h !! l' = Some (App.Upload r).
Proof.
  intros Hf [r Hr]. destruct (decide (l = l')) as [->|Hne].
  - rewrite list_lookup_alter_eq, Hr. cbn.
    destruct (Hf (App.Upload r)) as [r' ->]; [by eexists|]. by eexists.
  - rewrite list_lookup_alter_ne, Hr by done. by eexists.
Qed.

Lemma lookup_app_is_Some h d l : is_Some (h !! l) → is_Some ((h ++ [d]) !! l).
Proof. intros [d' Hd]. exists d'. by apply lookup_app_l_Some. Qed.

Lemma lookup_app_upload h d l :
  (∃ r, h !! l = Some (App.Upload r)) → ∃ r, (h ++ [d]) !! l = Some (App.Upload r).
Proof. intros [r Hr]. exists r. by apply lookup_app_l_Some. Qed.

(** The two ways [upload_resume] answers with a [JSONResponse]: the cache has
    the key of the content, or it has not and the file is parsed. *)
Lemma upload_resume_answers st (file_name content uuid4 : string) (now_get now_set : Q)
    (c : App.content) :
  (upload_resume st file_name content uuid4 now_get now_set).1 = App.JSONResponse c →
  let cache_key := "upload_" +:+ App.str_int (hash_bytes content) in
  let looked_up := CacheManager.get (App.cache_manager st) cache_key now_get in
  App.endswith ".pdf" (Py.lower file_name) = true
  ∧ (Z.of_nat (Py.len content) ≤ 10 * 1024 * 1024)%Z
  ∧ ((∃ l d, looked_up.1 = Some l
        ∧ alter (λ d, App.set_from_cache true (App.set_resume_id uuid4 d)) l (App.heap st)
            !! l = Some d
        ∧ c = App.Result d
        ∧ (upload_resume st file_name content uuid4 now_get now_set).2
          = {| App.heap :=
                 alter (λ d, App.set_from_cache true (App.set_resume_id uuid4 d)) l
                       (App.heap st);
               App.resume_storage := <[uuid4 := l]> (App.resume_storage st);
               App.cache_manager := looked_up.2 |})
     ∨ (∃ text info,
          looked_up.1 = None
          ∧ PDFParser.parse (pdfplumber content) = inr text
          ∧ extract_info text = Ok info
          ∧ let result :=
              App.Upload {| App.resume_id := uuid4; App.filename := file_name;
                            App.file_size := Z.of_nat (Py.len content);
                            App.status := "success"; App.extracted_info := info;
                            App.text_preview := App.preview 500 text;
                            App.from_cache := false |} in
            c = App.Result result
            ∧ (upload_resume st file_name content uuid4 now_get now_set).2
              = {| App.heap := App.heap st ++ [result];
                   App.resume_storage :=
                     <[uuid4 := length (App.heap st)]> (App.resume_storage st);
                   App.cache_manager :=
                     (CacheManager.set looked_up.2 cache_key (length (App.heap st))
                                       3600 now_set).2 |})).
Proof.
  intros H cache_key looked_up. unfold App.upload_resume in *.
  fold cache_key in H |- *. fold looked_up in H |- *.
  destruct (App.endswith ".pdf" (Py.lower file_name)); [|done]. cbn [negb] in *.
  destruct (10 * 1024 * 1024 <? Z.of_nat (Py.len content))%Z eqn:Hsize; [done|].
  apply Z.ltb_ge in Hsize. split; [done|]. split; [done|].
  destruct (looked_up.1) as [l|].
  - left. destruct (alter _ l (App.heap st) !! l) as [d|] eqn:Hd; [|done].
    cbn [fst] in H. injection H as <-. exists l, d.
    split; [reflexivity|]. split; [exact Hd|]. split; reflexivity.
  - right. destruct (PDFParser.parse (pdfplumber content)) as [e|text] eqn:Hp; [done|].
    destruct (extract_info text) as [info|e] eqn:Hi; [|done].
    cbn [fst] in H. injection H as <-. exists text, info.
    split; [reflexivity|]. split; [reflexivity|]. split; [exact Hi|].
    cbn zeta. split; reflexivity.
Qed.

(** X20. When [upload_resume] answers with a dictionary, the dictionary has
    the new identifier, and a [get_resume] with this identifier answers with
    the same dictionary. The name of the file ends with ".pdf" whatever the
    case and the file has at most 10 MB. When the dictionary is not from the
    cache, the file was parsed and the dictionary holds the name and the size
    of the file, what [extract_info] made of the text, and the first 500
    characters of the text. *)
Theorem X20_upload_then_get st (file_name content uuid4 : string)
    (now_get now_set : Q) (c : App.content) :
  (upload_resume st file_name content uuid4 now_get now_set).1 = App.JSONResponse c →
  let st' := (upload_resume st file_name content uuid4 now_get now_set).2 in
  App.endswith ".pdf" (Py.lower file_name) = true
  ∧ (Z.of_nat (Py.len content) ≤ 10 * 1024 * 1024)%Z
  ∧ ∃ d, c = App.Result d
      ∧ obj_resume_id d = uuid4
      ∧ App.get_resume st' uuid4 = (App.JSONResponse (App.Resume uuid4 d), st')
      ∧ (obj_from_cache d = false →
         ∃ text info,
           PDFParser.parse (pdfplumber content) = inr text
           ∧ extract_info text = Ok info
           ∧ d = App.Upload
                   {| App.resume_id := uuid4; App.filename := file_name;
                      App.file_size := Z.of_nat (Py.len content);
                      App.status := "success"; App.extracted_info := info;
                      App.text_preview := App.preview 500 text;
                      App.from_cache := false |}).
Proof.
  intros H st'. subst st'.
  destruct (upload_resume_answers _ _ _ _ _ _ _ H)
    as (Hname & Hsize & [(l & d & Hl & Hd & -> & ->)|(text & info & Hl & Hp & Hi & -> & ->)]);
    (split; [done|]; split; [done|]).
  - exists d. split; [done|].
    pose proof Hd as Hd'. rewrite list_lookup_alter_eq in Hd'.
    destruct (App.heap st !! l) as [d0|]; [|done]. injection Hd' as <-.
    destruct (obj_fields_set uuid4 d0) as [H1 H2].
    split; [done|]. split.
    + unfold App.get_resume. cbn [App.resume_storage App.heap].
      by rewrite lookup_insert_eq, Hd.
    + by rewrite H2.
  - eexists. split; [done|]. split; [done|]. split.
    + unfold App.get_resume. cbn [App.resume_storage App.heap].
      by rewrite lookup_insert_eq, lookup_fresh.
    + intros _. by exists text, info.
Qed.




(** The handlers keep every reference valid. *)
Lemma handle_well_formed st (req : App.request) :
  well_formed st → well_formed (handle st req).2.
Proof.
  intros [Hs Hc]. destruct req as [file_name content uuid4 now_get now_set
    |id job_description use_ai_matching now_get now_set|id]; cbn [App.handle].
  - unfold App.upload_resume.
    destruct (negb _); [done|].
    destruct (_ <? _)%Z; [done|].
    set (key := "upload_" +:+ App.str_int (hash_bytes content)).
    destruct (CacheManager.get (App.cache_manager st) key now_get) as [[l|] c'] eqn:E;
      cbn [fst snd].
    + assert ((CacheManager.get (App.cache_manager st) key now_get).1 = Some l) as Hhit
        by (by rewrite E).
      apply cache_get_hit in Hhit as [Hl Hc']. rewrite E in Hc'. cbn in Hc'. subst c'.
      destruct (Hc _ _ Hl) as [_ Hup]. specialize (Hup eq_refl).
      assert (well_formed
                {| App.heap := alter (λ d, App.set_from_cache true
                                             (App.set_resume_id uuid4 d)) l (App.heap st);
                   App.resume_storage := <[uuid4 := l]> (App.resume_storage st);
                   App.cache_manager := App.cache_manager st |}) as Hwf.
      { split; cbn [App.heap App.resume_storage App.cache_manager].
        - intros id' l' [[-> <-]|[_ Hl']]%lookup_insert_Some;
            apply lookup_alter_upload; try apply set_fields_upload; eauto.
        - intros key' l' Hk. destruct (Hc _ _ Hk) as [H1 H2]. split.
          + by apply lookup_alter_is_Some.
          + intros Hu. apply lookup_alter_upload; [apply set_fields_upload|auto]. }
      by destruct (alter _ l (App.heap st) !! l).
    + assert (c' = (CacheManager.get (App.cache_manager st) key now_get).2) as Hc'
        by (by rewrite E).
      assert (well_formed {| App.heap := App.heap st;
                             App.resume_storage := App.resume_storage st;
                             App.cache_manager := c' |}) as Hwf.
      { split; [done|]. cbn [App.heap App.cache_manager]. intros key' l' Hk.
        subst c'. apply cache_get_keeps in Hk. auto. }
      destruct (PDFParser.parse _) as [e|text]; [done|].
      destruct (extract_info text) as [info|e]; [|done]. cbn [snd].
      split; cbn [App.heap App.resume_storage App.cache_manager
                  CacheManager.set snd CacheManager.memory_cache].
      * intros id' l' [[-> <-]|[_ Hl']]%lookup_insert_Some.
        -- eexists. apply lookup_fresh.
        -- apply lookup_app_upload. eauto.
      * intros key' l' [[<- <-]|[_ Hk]]%lookup_insert_Some.
        -- split; [eexists; apply lookup_fresh|]. intros _. eexists. apply lookup_fresh.
        -- subst c'. apply cache_get_keeps in Hk. destruct (Hc _ _ Hk) as [H1 H2].
           split; [by apply lookup_app_is_Some|].
           intros Hu. apply lookup_app_upload. auto.
  - unfold App.analyze_resume.
    destruct (App.resume_storage st !! id) as [lr|] eqn:Hlr; [|done].
    set (key := "analyze_" +:+ id +:+ "_" +:+ App.str_int (hash_str job_description)
                +:+ "_" +:+ App.str_bool use_ai_matching).
    destruct (CacheManager.get (App.cache_manager st) key now_get) as [[l|] c'] eqn:E;
      cbn [fst snd].
    + assert ((CacheManager.get (App.cache_manager st) key now_get).1 = Some l) as Hhit
        by (by rewrite E).
      apply cache_get_hit in Hhit as [Hl Hc']. rewrite E in Hc'. cbn in Hc'. subst c'.
      assert (well_formed
                {| App.heap := alter (App.set_from_cache true) l (App.heap st);
                   App.resume_storage := App.resume_storage st;
                   App.cache_manager := App.cache_manager st |}) as Hwf.
      { split; cbn [App.heap App.resume_storage App.cache_manager].
        - intros id' l' Hl'.
          apply lookup_alter_upload; [apply set_from_cache_upload|eauto].
        - intros key' l' Hk. destruct (Hc _ _ Hk) as [H1 H2]. split.
          + by apply lookup_alter_is_Some.
          + intros Hu. apply lookup_alter_upload; [apply set_from_cache_upload|auto]. }
      by destruct (alter _ l (App.heap st) !! l).
    + assert (c' = (CacheManager.get (App.cache_manager st) key now_get).2) as Hc'
        by (by rewrite E).
      assert (well_formed {| App.heap := App.heap st;
                             App.resume_storage := App.resume_storage st;
                             App.cache_manager := c' |}) as Hwf.
      { split; [done|]. cbn [App.heap App.cache_manager]. intros key' l' Hk.
        subst c'. apply cache_get_keeps in Hk. auto. }
      destruct (App.heap st !! lr) as [[r|?]|]; [|done..].
      destruct (match_ _ _ _) as [m|e]; [|done]. cbn [snd].
      split; cbn [App.heap App.resume_storage App.cache_manager
                  CacheManager.set snd CacheManager.memory_cache].
      * intros id' l' Hl'. apply lookup_app_upload. eauto.
      * intros key' l' [[<- <-]|[_ Hk]]%lookup_insert_Some.
        -- split; [eexists; apply lookup_fresh|]. intros Hu. by vm_compute in Hu.
        -- subst c'. apply cache_get_keeps in Hk. destruct (Hc _ _ Hk) as [H1 H2].
           split; [by apply lookup_app_is_Some|].
           intros Hu. apply lookup_app_upload. auto.
  - unfold App.get_resume. by repeat case_match.
Qed.

Lemma serve_well_formed st (reqs : list App.request) :
  well_formed st → well_formed (serve st reqs).
Proof.
  revert st. induction reqs as [|req reqs IH]; intros st Hwf; [done|].
  apply IH. by apply handle_well_formed.
Qed.

Lemma initial_well_formed : well_formed App.initial.
Proof.
  split; intros ? ? H;
    cbn [App.initial App.resume_storage App.cache_manager CacheManager.init
         CacheManager.memory_cache] in H;
    by rewrite lookup_empty in H.
Qed.

Lemma handle_keeps_resumes st (req : App.request) (id : string) :
  is_Some (App.resume_storage st !! id) →
  is_Some (App.resume_storage (handle st req).2 !! id).
Proof.
  intros Hid. destruct req as [file_name content uuid4 now_get now_set
    |id' job_description use_ai_matching now_get now_set|id']; cbn [App.handle].
  - unfold App.upload_resume. repeat case_match; cbn [snd App.resume_storage]; try done;
      by apply lookup_insert_is_Some'; right.
  - unfold App.analyze_resume. repeat case_match; cbn [snd App.resume_storage]; done.
  - unfold App.get_resume. by repeat case_match.
Qed.

Lemma lookup_alter_info (f : App.obj → App.obj) h l l' (r' : App.upload_result) :
  (∀ d r1, f d = App.Upload r1 →
           ∃ r, d = App.Upload r ∧ App.extracted_info r1 = App.extracted_info r) →
  alter f l h !! l' = Some (App.Upload r') →
  ∃ r, h !! l' = Some (App.Upload r) ∧ App.extracted_info r' = App.extracted_info r.
Proof.
  intros Hf. destruct (decide (l = l')) as [->|Hne].
  - rewrite list_lookup_alter_eq. destruct (h !! l') as [d|]; [|done]. cbn.
    intros [= H]. destruct (Hf _ _ H) as (r & -> & Hr). by exists r.
  - rewrite list_lookup_alter_ne by done. intros H. by exists r'.
Qed.

Lemma set_fields_info (id : string) d (r' : App.upload_result) :
  App.set_from_cache true (App.set_resume_id id d) = App.Upload r' →
  ∃ r, d = App.Upload r ∧ App.extracted_info r' = App.extracted_info r.
Proof. destruct d as [r|a]; [|done]. intros [= <-]. by exists r. Qed.

Lemma set_from_cache_info d (r' : App.upload_result) :
  App.set_from_cache true d = App.Upload r' →
  ∃ r, d = App.Upload r ∧ App.extracted_info r' = App.extracted_info r.
Proof. destruct d as [r|a]; [|done]. intros [= <-]. by exists r. Qed.

Lemma lookup_app_singleton h d d' l :
  (h ++ [d]) !! l = Some d' → h !! l = Some d' ∨ d = d'.
Proof.
  intros [H|[_ H]]%lookup_app_Some; [by left|right].
  destruct (l - length h)%nat; [by injection H|done].
Qed.

(** The handlers keep the years of the stored profiles within what [match]
    can print: they come from [extract_info]. *)
Lemma handle_years_fit st (req : App.request) :
  years_fit st → years_fit (handle st req).2.
Proof.
  intros Hfit. destruct req as [file_name content uuid4 now_get now_set
    |id job_description use_ai_matching now_get now_set|id]; cbn [App.handle].
  - unfold App.upload_resume.
    destruct (negb _); [exact Hfit|].
    destruct (_ <? _)%Z; [exact Hfit|].
    set (key := "upload_" +:+ App.str_int (hash_bytes content)).
    destruct (CacheManager.get (App.cache_manager st) key now_get) as [[l|] c'];
      cbn [fst snd].
    + assert (years_fit
                {| App.heap := alter (λ d, App.set_from_cache true
                                             (App.set_resume_id uuid4 d)) l (App.heap st);
                   App.resume_storage := <[uuid4 := l]> (App.resume_storage st);
                   App.cache_manager := c' |}) as H.
      { intros l' r' Hl'. cbn [App.heap] in Hl'.
        apply lookup_alter_info in Hl' as (r & Hr & ->);
          [by eapply Hfit|intros d r1; apply set_fields_info]. }
      by destruct (alter _ l (App.heap st) !! l).
    + destruct (PDFParser.parse _) as [e|text]; [exact Hfit|].
      destruct (extract_info text) as [info|e] eqn:E; [|exact Hfit]. cbn [snd].
      intros l' r' Hl'. cbn [App.heap] in Hl'.
      apply lookup_app_singleton in Hl' as [Hl'|[= <-]]; [by eapply Hfit|].
      cbn [App.extracted_info].
      by apply extract_info_ok in E as (y & _ & Hy & ->).
  - unfold App.analyze_resume.
    destruct (App.resume_storage st !! id) as [lr|]; [|exact Hfit].
    set (key := "analyze_" +:+ id +:+ "_" +:+ App.str_int (hash_str job_description)
                +:+ "_" +:+ App.str_bool use_ai_matching).
    destruct (CacheManager.get (App.cache_manager st) key now_get) as [[l|] c'];
      cbn [fst snd].
    + assert (years_fit
                {| App.heap := alter (App.set_from_cache true) l (App.heap st);
                   App.resume_storage := App.resume_storage st;
                   App.cache_manager := c' |}) as H.
      { intros l' r' Hl'. cbn [App.heap] in Hl'.
        apply lookup_alter_info in Hl' as (r & Hr & ->);
          [by eapply Hfit|intros d r1; apply set_from_cache_info]. }
      by destruct (alter _ l (App.heap st) !! l).
    + destruct (App.heap st !! lr) as [[r|?]|]; [|exact Hfit..].
      destruct (match_ _ _ _) as [m|e]; [|exact Hfit]. cbn [snd].
      intros l' r' Hl'. cbn [App.heap] in Hl'.
      apply lookup_app_singleton in Hl' as [Hl'|[=]]. by eapply Hfit.
  - unfold App.get_resume. repeat case_match; exact Hfit.
Qed.

Lemma serve_years_fit st (reqs : list App.request) :
  years_fit st → years_fit (serve st reqs).
Proof.
  revert st. induction reqs as [|req reqs IH]; intros st Hfit; [done|].
  apply IH. by apply handle_years_fit.
Qed.

Lemma initial_years_fit : years_fit App.initial.
Proof. intros l r H. by cbn in H. Qed.

(** X23. After any sequence of requests from the start, every reference is to
    a dictionary: no request is answered by an error for want of one. A
    resume that is stored stays stored; [get_resume] with its identifier
    answers with an upload result; [analyze_resume] with its identifier
    answers with a dictionary or, when [match] raises, with the status 500
    and the [ValueError] of [match], never with the status 404; it answers
    with a dictionary when the job description has no run of more than 4300
    digits. *)
Theorem X23_stored_resumes (reqs : list App.request) (req : App.request) (id : string) :
  let st := serve App.initial reqs in
  well_formed st
  ∧ (handle st req).1 ≠ App.Dangling
  ∧ (is_Some (App.resume_storage st !! id) →
     is_Some (App.resume_storage (handle st req).2 !! id)
     ∧ (∃ r, App.get_resume st id
             = (App.JSONResponse (App.Resume id (App.Upload r)), st))
     ∧ ∀ job_description use_ai_matching now_get now_set,
         ((∃ d, (analyze_resume st id job_description use_ai_matching
                                now_get now_set).1
                = App.JSONResponse (App.Result d))
          ∨ (analyze_resume st id job_description use_ai_matching now_get now_set).1
            = App.HTTPException 500 (App.AnalysisFailed (App.Raised ValueError)))
         ∧ (Z.of_nat (longest_digit_run job_description) ≤ int_max_str_digits →
            ∃ d, (analyze_resume st id job_description use_ai_matching
                                 now_get now_set).1
                 = App.JSONResponse (App.Result d))).
Proof.
  intros st.
  assert (well_formed st) as Hwf by apply serve_well_formed, initial_well_formed.
  assert (years_fit st) as Hfit by apply serve_years_fit, initial_years_fit.
  split; [done|]. destruct Hwf as [Hs Hc].
  assert (∀ id' job_description use_ai_matching now_get now_set lr,
            App.resume_storage st !! id' = Some lr →
            ((∃ d, (analyze_resume st id' job_description use_ai_matching
                                   now_get now_set).1
                   = App.JSONResponse (App.Result d))
             ∨ (analyze_resume st id' job_description use_ai_matching
                               now_get now_set).1
               = App.HTTPException 500 (App.AnalysisFailed (App.Raised ValueError)))
            ∧ (Z.of_nat (longest_digit_run job_description) ≤ int_max_str_digits →
               ∃ d, (analyze_resume st id' job_description use_ai_matching
                                    now_get now_set).1
                    = App.JSONResponse (App.Result d))) as Hanalyze.
  { intros id' job_description use_ai_matching now_get now_set lr Hlr.
    unfold App.analyze_resume. rewrite Hlr.
    set (key := "analyze_" +:+ id' +:+ "_" +:+ App.str_int (hash_str job_description)
                +:+ "_" +:+ App.str_bool use_ai_matching).
    destruct (CacheManager.get (App.cache_manager st) key now_get) as [[l|] c'] eqn:E;
      cbn [fst snd].
    - assert ((CacheManager.get (App.cache_manager st) key now_get).1 = Some l) as Hhit
        by (by rewrite E).
      apply cache_get_hit in Hhit as [Hl _].
      destruct (Hc _ _ Hl) as [[d Hd] _].
      rewrite list_lookup_alter_eq, Hd. cbn. split; [left|intros _]; by eexists.
    - destruct (Hs _ _ Hlr) as [r Hr]. rewrite Hr.
      pose proof (Hfit _ _ Hr) as Hy.
      destruct (match_ (App.extracted_info r) job_description use_ai_matching)
        as [m|e] eqn:Hm; cbn [fst].
      + split; [left|intros _]; by eexists.
      + apply match_raises in Hm as Hx. subst e. split; [by right|].
        intros Hlen.
        destruct (match_total (App.extracted_info r) job_description
                    use_ai_matching Hlen) as [m Hm']; [lia|congruence]. }
  split.
  - destruct req as [file_name content uuid4 now_get now_set
      |id' job_description use_ai_matching now_get now_set|id']; cbn [App.handle].
    + unfold App.upload_resume.
      destruct (negb _); [done|]. destruct (_ <? _)%Z; [done|].
      set (key := "upload_" +:+ App.str_int (hash_bytes content)).
      destruct (CacheManager.get (App.cache_manager st) key now_get) as [[l|] c'] eqn:E;
        cbn [fst snd].
      * assert ((CacheManager.get (App.cache_manager st) key now_get).1 = Some l)
          as Hhit by (by rewrite E).
        apply cache_get_hit in Hhit as [Hl _].
        destruct (Hc _ _ Hl) as [[d Hd] _].
        by rewrite list_lookup_alter_eq, Hd.
      * destruct (PDFParser.parse _) as [e|text]; [done|].
        by destruct (extract_info text).
    + destruct (App.resume_storage st !! id') as [lr|] eqn:Hlr.
      * destruct (Hanalyze id' job_description use_ai_matching now_get now_set lr Hlr)
          as [[[d ->]| ->] _]; done.
      * unfold App.analyze_resume. by rewrite Hlr.
    + unfold App.get_resume.
      destruct (App.resume_storage st !! id') as [lr|] eqn:Hlr; [|done].
      by destruct (Hs _ _ Hlr) as [r ->].
  - intros [lr Hlr]. split; [by apply handle_keeps_resumes|]. split.
    + destruct (Hs _ _ Hlr) as [r Hr]. exists r.
      unfold App.get_resume. by rewrite Hlr, Hr.
    + intros. by eapply Hanalyze.
Qed.

End AppFacts.

(** A run of the handlers: [hash] is the length, and the text of the only
    page of a file is its content. *)
Lemma X20_upload_then_get_witness :
  let upload := App.upload_resume (λ s, Z.of_nat (Py.len s)) (λ s, inr [Some s]) in
  let st' := (upload App.initial "cv.PDF" "Jane Doe, senior engineer at Acme Inc"
                     "id-1" 0%Q 0%Q).2 in
  ∃ d, App.get_resume st' "id-1" = (App.JSONResponse (App.Resume "id-1" d), st')
       ∧ obj_resume_id d = "id-1".
Proof.
  intros upload st'.
  assert (∃ c, (upload App.initial "cv.PDF" "Jane Doe, senior engineer at Acme Inc"
                       "id-1" 0%Q 0%Q).1 = App.JSONResponse c) as [c Hc].
  { destruct (upload App.initial "cv.PDF" "Jane Doe, senior engineer at Acme Inc"
                     "id-1" 0%Q 0%Q).1 as [c| |] eqn:E;
      [by exists c|vm_compute in E; discriminate..]. }
  destruct (X20_upload_then_get _ _ _ _ _ _ _ _ _ Hc) as (_ & _ & d & _ & Hid & Hget & _).
  exists d. split; [exact Hget|exact Hid].
Defined.



Lemma X23_stored_resumes_witness :
  let hash := λ s, Z.of_nat (Py.len s) in
  let st := App.serve hash hash (λ s, inr [Some s]) App.initial
              [App.PostUpload "jane.pdf" "Jane Doe, senior engineer at Acme Inc"
                              "id-1" 0%Q 1%Q] in
  is_Some (App.resume_storage st !! "id-1")
  ∧ ∃ d, (App.analyze_resume hash st "id-1" "Senior Python developer" false 5%Q 6%Q).1
         = App.JSONResponse (App.Result d).
Proof.
  intros hash st.
  assert (is_Some (App.resume_storage st !! "id-1")) as Hid
    by (vm_compute; by eexists).
  split; [exact Hid|].
  destruct (X23_stored_resumes hash hash (λ s, inr [Some s])
              [App.PostUpload "jane.pdf" "Jane Doe, senior engineer at Acme Inc"
                              "id-1" 0%Q 1%Q] (App.GetResume "id-1") "id-1")
    as (_ & _ & H).
  destruct (H Hid) as (_ & _ & Han).
  destruct (Han "Senior Python developer" false 5%Q 6%Q) as [_ Hjson].
  apply Hjson. by vm_compute.
Defined.
